(** * Roadmap layout planner: graph model, fallback synthesizer and
      the two Graphviz planners (stacked [draw_roadmap], column
      [generate_beautiful_roadmap]).

    Shallow embedding of [schemas.py], [fallback.py] and
    [viz_graphviz.py].  Python [str] values are sequences of Unicode code
    points; dictionaries are [gmap]s, sets are [gset]s, exceptions are
    carried by a small error monad. *)

From Stdlib Require Import String Ascii ZArith Lia.
From stdpp Require Import base list gmap sets sorting pretty.

Local Open Scope list_scope.
Set Warnings "-register-all".

(** ** Python strings *)

(** A Python character is a code point, a [str] is a list of them, so that
    [s[:20]] cuts after twenty characters whatever their encoding. *)
Definition char : Type := N.
Definition str : Type := list char.

(** An ASCII literal, character by character. *)
Fixpoint lit (s : string) : str :=
  match s with
  | EmptyString => []
  | String a s' => N_of_ascii a :: lit s'
  end.

(** [str.isspace] on one character (CPython's [_PyUnicode_IsWhitespace]). *)
Definition is_space (c : char) : bool :=
  ((9 <=? c) && (c <=? 13) || (28 <=? c) && (c <=? 32)
   || (c =? 133) || (c =? 160) || (c =? 5760)
   || (8192 <=? c) && (c <=? 8202)
   || (c =? 8232) || (c =? 8233) || (c =? 8239) || (c =? 8287)
   || (c =? 12288))%N.

Fixpoint lstrip (s : str) : str :=
  match s with
  | [] => []
  | c :: s' => if is_space c then lstrip s' else s
  end.

Definition rstrip (s : str) : str := reverse (lstrip (reverse s)).

(** [s.strip()] *)
Definition strip (s : str) : str := rstrip (lstrip s).

(** Truthiness of a [str]. *)
Definition truthy (s : str) : bool :=
  match s with [] => false | _ => true end.

(** [not v or not v.strip()] *)
Definition blank (v : str) : bool := negb (truthy v) || negb (truthy (strip v)).

(** [str(n)] for a non-negative [int]. *)
Definition str_of_nat (n : nat) : str := lit (pretty n).

(** ** Exceptions *)

(** [ValueError(msg)] is what the validators and [ensure_consistency]
    raise; pydantic gathers the validators' messages of one construction
    in a [ValidationError]. *)
Inductive exn : Type :=
| ValueError (msg : str)
| ValidationError (errors : list str).

Inductive result (A : Type) : Type :=
| Ok (a : A)
| Raise (e : exn).
Arguments Ok {A} a.
Arguments Raise {A} e.

Definition bind {A B} (r : result A) (k : A -> result B) : result B :=
  match r with
  | Ok a => k a
  | Raise e => Raise e
  end.

Notation "'do' x <- r ; k" := (bind r (fun x => k))
  (at level 10, x name, r at level 100, k at level 200).

Definition is_ok {A} (r : result A) : bool :=
  match r with Ok _ => true | Raise _ => false end.

(** The messages a failed field contributes to the [ValidationError]. *)
Definition field_errors {A} (r : result A) : list str :=
  match r with
  | Ok _ => []
  | Raise (ValueError m) => [m]
  | Raise (ValidationError ms) => ms
  end.

(** Validation of a [List[...]] field: every element is validated, the
    messages of all failing elements are gathered. *)
Fixpoint validate_list {A B} (f : A -> result B) (l : list A) : result (list B) :=
  match l with
  | [] => Ok []
  | x :: l' =>
      match f x, validate_list f l' with
      | Ok y, Ok ys => Ok (y :: ys)
      | rx, rl => Raise (ValidationError (field_errors rx ++ field_errors rl))
      end
  end.

(** [len(ids) != len(set(ids))] *)
Definition not_unique (ids : list str) : bool :=
  negb (length ids =? size (list_to_set ids : gset str)).

(** ** schemas.py *)

Module NodeType.
Inductive t : Type := stage_label | task | sub_content | method | phase.

#[global] Instance eq_dec : EqDecision t.
Proof. solve_decision. Defined.

Definition value (ty : t) : str :=
  match ty with
  | stage_label => lit "stage_label"
  | task => lit "task"
  | sub_content => lit "sub_content"
  | method => lit "method"
  | phase => lit "phase"
  end.

(** [NodeType(v)]: look the member up by value. *)
Definition of_value (v : str) : result t :=
  if decide (v = lit "stage_label") then Ok stage_label
  else if decide (v = lit "task") then Ok task
  else if decide (v = lit "sub_content") then Ok sub_content
  else if decide (v = lit "method") then Ok method
  else if decide (v = lit "phase") then Ok phase
  else Raise (ValueError (lit "value is not a valid enumeration member")).
End NodeType.

Module ClusterItem.
Record t : Type := mk { id : str; label : str }.

#[global] Instance eq_dec : EqDecision t.
Proof. solve_decision. Defined.

(** cluster 字段不能为空 *)
Definition msg_empty : str :=
  lit "cluster " ++ [23383; 27573; 19981; 33021; 20026; 31354]%N.

Definition not_empty (v : str) : result str :=
  if blank v then Raise (ValueError msg_empty) else Ok (strip v).

(** [ClusterItem(id=..., label=...)] *)
Definition new (id label : str) : result t :=
  match not_empty id, not_empty label with
  | Ok i, Ok l => Ok (mk i l)
  | ri, rl => Raise (ValidationError (field_errors ri ++ field_errors rl))
  end.
End ClusterItem.

Module NodeItem.
Record t : Type :=
  mk { id : str; label : str; type : NodeType.t; parent_cluster : str }.

#[global] Instance eq_dec : EqDecision t.
Proof. solve_decision. Defined.

(** 不能为空 *)
Definition cannot_be_empty : str := [32; 19981; 33021; 20026; 31354]%N.

Definition id_not_empty (v : str) : result str :=
  if blank v then Raise (ValueError (lit "Node id" ++ cannot_be_empty))
  else Ok (strip v).

Definition label_not_empty (v : str) : result str :=
  if blank v then Raise (ValueError (lit "Node label" ++ cannot_be_empty))
  else Ok (strip v).

Definition cluster_not_empty (v : str) : result str :=
  if blank v then Raise (ValueError (lit "parent_cluster" ++ cannot_be_empty))
  else Ok (strip v).

(** [NodeItem(id=..., label=..., type=..., parent_cluster=...)] *)
Definition new (id label type parent_cluster : str) : result t :=
  match id_not_empty id, label_not_empty label,
        NodeType.of_value type, cluster_not_empty parent_cluster with
  | Ok i, Ok l, Ok ty, Ok c => Ok (mk i l ty c)
  | ri, rl, rt, rc =>
      Raise (ValidationError (field_errors ri ++ field_errors rl
                              ++ field_errors rt ++ field_errors rc))
  end.
End NodeItem.

Module EdgeItem.
(** [label: Optional[str] = ""] *)
Record t : Type := mk { source : str; target : str; label : option str }.

#[global] Instance eq_dec : EqDecision t.
Proof. solve_decision. Defined.

(** Edge 端点不能为空 *)
Definition msg_empty : str :=
  lit "Edge " ++ [31471; 28857; 19981; 33021; 20026; 31354]%N.

Definition endpoint_not_empty (v : str) : result str :=
  if blank v then Raise (ValueError msg_empty) else Ok (strip v).

(** [EdgeItem(source=..., target=...[, label=...])]: an absent label
    takes the default, an explicit [None] stays [None]. *)
Definition new (source target : str) (label : option (option str)) : result t :=
  match endpoint_not_empty source, endpoint_not_empty target with
  | Ok s, Ok d => Ok (mk s d (default (Some []) label))
  | rs, rd => Raise (ValidationError (field_errors rs ++ field_errors rd))
  end.
End EdgeItem.

(** The dictionaries a [Roadmap] is constructed from. *)
Record RawCluster : Type := raw_cluster { rc_id : str; rc_label : str }.
Record RawNode : Type :=
  raw_node { rn_id : str; rn_label : str; rn_type : str; rn_parent_cluster : str }.
Record RawEdge : Type :=
  raw_edge { re_source : str; re_target : str; re_label : option (option str) }.

Module Roadmap.
Record t : Type :=
  mk { title : str;
       clusters : list ClusterItem.t;
       nodes : list NodeItem.t;
       edges : list EdgeItem.t }.

Definition cannot_be_empty : str := NodeItem.cannot_be_empty.
(** 不唯一 *)
Definition not_unique_msg : str := [32; 19981; 21807; 19968]%N.

Definition title_not_empty (v : str) : result str :=
  if blank v then Raise (ValueError (lit "title" ++ cannot_be_empty))
  else Ok (strip v).

Definition clusters_non_empty (v : list ClusterItem.t) : result (list ClusterItem.t) :=
  match v with
  | [] => Raise (ValueError (lit "clusters" ++ cannot_be_empty))
  | _ =>
      let ids := map ClusterItem.id v in
      if not_unique ids
      then Raise (ValueError (lit "clusters id" ++ not_unique_msg))
      else Ok v
  end.

Definition nodes_non_empty (v : list NodeItem.t) : result (list NodeItem.t) :=
  match v with
  | [] => Raise (ValueError (lit "nodes" ++ cannot_be_empty))
  | _ => Ok v
  end.

(** [return v or []] *)
Definition edges_non_empty (v : list EdgeItem.t) : result (list EdgeItem.t) :=
  Ok (match v with [] => [] | _ => v end).

Definition new_cluster (c : RawCluster) : result ClusterItem.t :=
  ClusterItem.new (rc_id c) (rc_label c).
Definition new_node (n : RawNode) : result NodeItem.t :=
  NodeItem.new (rn_id n) (rn_label n) (rn_type n) (rn_parent_cluster n).
Definition new_edge (e : RawEdge) : result EdgeItem.t :=
  EdgeItem.new (re_source e) (re_target e) (re_label e).

(** [Roadmap(title=..., clusters=..., nodes=..., edges=...)]: the fields
    are validated in declaration order, a field's own validator runs
    only when its elements are valid, and every failing field
    contributes to the [ValidationError]. *)
Definition new (title : str) (clusters : list RawCluster)
    (nodes : list RawNode) (edges : list RawEdge) : result t :=
  match title_not_empty title,
        bind (validate_list new_cluster clusters) clusters_non_empty,
        bind (validate_list new_node nodes) nodes_non_empty,
        bind (validate_list new_edge edges) edges_non_empty with
  | Ok ti, Ok cs, Ok ns, Ok es => Ok (mk ti cs ns es)
  | rt, rc, rn, re =>
      Raise (ValidationError (field_errors rt ++ field_errors rc
                              ++ field_errors rn ++ field_errors re))
  end.

(** 节点 id 不唯一 *)
Definition msg_dup : str := [33410; 28857]%N ++ lit " id" ++ not_unique_msg.
(** 边指向不存在的节点: {source} -> {target} *)
Definition msg_dangling (e : EdgeItem.t) : str :=
  [36793; 25351; 21521; 19981; 23384; 22312; 30340; 33410; 28857]%N ++ lit ": "
  ++ EdgeItem.source e ++ lit " -> " ++ EdgeItem.target e.
(** 节点所属 cluster 未声明: {parent_cluster} *)
Definition msg_undeclared (n : NodeItem.t) : str :=
  [33410; 28857; 25152; 23646]%N ++ lit " cluster "
  ++ [26410; 22768; 26126]%N ++ lit ": " ++ NodeItem.parent_cluster n.

(** The loop over [self.edges]. *)
Fixpoint check_edges (id_set : gset str) (es : list EdgeItem.t) : result unit :=
  match es with
  | [] => Ok tt
  | e :: es' =>
      if bool_decide (EdgeItem.source e ∉ id_set)
         || bool_decide (EdgeItem.target e ∉ id_set)
      then Raise (ValueError (msg_dangling e))
      else check_edges id_set es'
  end.

(** The loop over [self.nodes]. *)
Fixpoint check_nodes (cluster_ids : gset str) (ns : list NodeItem.t) : result unit :=
  match ns with
  | [] => Ok tt
  | n :: ns' =>
      if bool_decide (NodeItem.parent_cluster n ∉ cluster_ids)
      then Raise (ValueError (msg_undeclared n))
      else check_nodes cluster_ids ns'
  end.

Definition ensure_consistency (self : t) : result unit :=
  let ids := map NodeItem.id (nodes self) in
  if not_unique ids then Raise (ValueError msg_dup)
  else
    let id_set : gset str := list_to_set ids in
    do _u <- check_edges id_set (edges self);
    let cluster_ids : gset str := list_to_set (map ClusterItem.id (clusters self)) in
    check_nodes cluster_ids (nodes self).
End Roadmap.

(** ** fallback.py *)

(** 技术路线图（解析失败回退） *)
Definition fallback_title : str :=
  [25216; 26415; 36335; 32447; 22270; 65288; 35299; 26512; 22833; 36133;
   22238; 36864; 65289]%N.

Definition stage_word : str := [38454; 27573]%N.        (* 阶段 *)
Definition colon : char := 65306%N.                     (* ： *)
Definition research_prep : str := [30740; 31350; 20934; 22791]%N.   (* 研究准备 *)
Definition core_research : str := [26680; 24515; 30740; 31350]%N.   (* 核心研究 *)
Definition app_validation : str := [24212; 29992; 39564; 35777]%N.  (* 应用验证 *)

Definition fallback_clusters : list RawCluster :=
  [ raw_cluster (lit "phase1") (stage_word ++ [19968%N; colon] ++ research_prep);
    raw_cluster (lit "phase2") (stage_word ++ [20108%N; colon] ++ core_research);
    raw_cluster (lit "phase3") (stage_word ++ [19977%N; colon] ++ app_validation) ].

Definition fallback_nodes : list RawNode :=
  [ (* Phase 1 *)
    raw_node (lit "s1") research_prep (lit "stage_label") (lit "phase1");
    raw_node (lit "t1") [25991; 29486; 35843; 30740]%N (lit "task") (lit "phase1");
    raw_node (lit "sub1") ([36755; 20837; 65306; 30693; 32593]%N ++ lit "/WOS")
             (lit "sub_content") (lit "phase1");
    raw_node (lit "m1") [25991; 29486; 20998; 26512; 27861]%N (lit "method") (lit "phase1");
    (* Phase 2 *)
    raw_node (lit "s2") core_research (lit "stage_label") (lit "phase2");
    raw_node (lit "t2") [26500; 24314; 27169; 22411]%N (lit "task") (lit "phase2");
    raw_node (lit "sub2") ([21464; 37327; 65306]%N ++ lit "GDP/R&D")
             (lit "sub_content") (lit "phase2");
    raw_node (lit "m2") [22238; 24402; 20998; 26512]%N (lit "method") (lit "phase2");
    (* Phase 3 *)
    raw_node (lit "s3") app_validation (lit "stage_label") (lit "phase3");
    raw_node (lit "t3") [23454; 35777; 20998; 26512]%N (lit "task") (lit "phase3");
    raw_node (lit "sub3") [25351; 26631; 65306; 20934; 30830; 29575]%N
             (lit "sub_content") (lit "phase3");
    raw_node (lit "m3") [26696; 20363; 30740; 31350]%N (lit "method") (lit "phase3") ].

Definition fallback_edges : list RawEdge :=
  [ raw_edge (lit "t1") (lit "t2") None;
    raw_edge (lit "t2") (lit "t3") None;
    raw_edge (lit "t1") (lit "sub1") None;
    raw_edge (lit "t2") (lit "sub2") None;
    raw_edge (lit "t3") (lit "sub3") None;
    raw_edge (lit "sub1") (lit "m1") None;
    raw_edge (lit "sub2") (lit "m2") None;
    raw_edge (lit "sub3") (lit "m3") None ].

(** [error[:20]] *)
Definition error_fragment (error : str) : str := take 20 error.

Definition build_fallback_roadmap (raw_text error : str) : result Roadmap.t :=
  let title := fallback_title in
  let title :=
    if truthy error
    then title ++ lit " [Error: " ++ error_fragment error ++ lit "...]"
    else title in
  Roadmap.new title fallback_clusters fallback_nodes fallback_edges.

(** ** viz_graphviz.py *)

(** *** What is handed to Graphviz *)

(** Keyword arguments of [dot.node], [dot.edge] and [dot.attr]. *)
Definition attrs : Type := list (string * str).

Definition kw (k v : string) : string * str := (k, lit v).
Definition kv (k : string) (v : str) : string * str := (k, v).

(** [d.get(k)] on keyword arguments; the keys of one call are distinct. *)
Fixpoint attr_get (k : string) (a : attrs) : option str :=
  match a with
  | [] => None
  | (k', v) :: a' => if String.eqb k k' then Some v else attr_get k a'
  end.

(** The statements of a graph body, in the order the calls append them. *)
Inductive stmt : Type :=
| Node (name : str) (a : attrs)
| Edge (tail head : str) (a : attrs)
| Attr (target : option string) (a : attrs)
| Subgraph (name : str) (body : list stmt).

(** Graphviz draws an edge without [style] solid and one without
    [arrowhead] with the normal arrowhead. *)
Definition rendered_style (a : attrs) : str := default (lit "solid") (attr_get "style" a).
Definition rendered_arrowhead (a : attrs) : str := default (lit "normal") (attr_get "arrowhead" a).

(** *** Python built-ins used by the planners *)

(** [sorted(l, key=key)]: stable, equal keys keep their input order. *)
Fixpoint insert_by {A} (key : A -> nat) (x : A) (l : list A) : list A :=
  match l with
  | [] => [x]
  | y :: l' => if key x <=? key y then x :: l else y :: insert_by key x l'
  end.

Definition sorted {A} (key : A -> nat) (l : list A) : list A :=
  foldr (insert_by key) [] l.

(** [enumerate(l)] *)
Definition enumerate {A} (l : list A) : list (nat * A) := imap pair l.

Fixpoint range_up (fuel : nat) (i stop step : Z) : list Z :=
  match fuel with
  | O => []
  | S fuel' => if (i <? stop)%Z then i :: range_up fuel' (i + step) stop step else []
  end.

Fixpoint range_down (fuel : nat) (i stop step : Z) : list Z :=
  match fuel with
  | O => []
  | S fuel' => if (stop <? i)%Z then i :: range_down fuel' (i + step) stop step else []
  end.

(** [range(start, stop, step)]; a zero step is a [ValueError]. *)
Definition range (start stop step : Z) : result (list Z) :=
  if (step =? 0)%Z then Raise (ValueError (lit "range() arg 3 must not be zero"))
  else if (0 <? step)%Z then Ok (range_up (Z.to_nat (stop - start)) start stop step)
  else Ok (range_down (Z.to_nat (start - stop)) start stop step).

(** [l[i:j]] for bounds that are not negative. *)
Definition slice {A} (l : list A) (i j : Z) : list A :=
  take (Z.to_nat j - Z.to_nat i) (drop (Z.to_nat i) l).

(** The pairs [(xs[i], xs[i + 1])] for [i in range(len(xs) - 1)]. *)
Definition consecutive {A} (xs : list A) : list (A * A) :=
  omap (fun i => match xs !! i, xs !! (i + 1) with
                 | Some a, Some b => Some (a, b)
                 | _, _ => None
                 end)
       (seq 0 (length xs - 1)).

(** A loop whose body may raise: the first exception ends it. *)
Fixpoint traverse {A B} (f : A -> result B) (l : list A) : result (list B) :=
  match l with
  | [] => Ok []
  | x :: l' => do y <- f x; do ys <- traverse f l'; Ok (y :: ys)
  end.

(** *** Tables built from the roadmap *)

(** [{n.id: n for n in nodes}]: a later node replaces an earlier one. *)
Definition nodes_by_id (ns : list NodeItem.t) : gmap str NodeItem.t :=
  foldl (fun m n => <[NodeItem.id n := n]> m) ∅ ns.

(** [edges_by_source.setdefault(e.source, []).append(e)] *)
Definition edges_by_source (es : list EdgeItem.t) : gmap str (list EdgeItem.t) :=
  foldl (fun m e => <[EdgeItem.source e := default [] (m !! EdgeItem.source e) ++ [e]]> m) ∅ es.

(** [{n.id: idx for idx, n in enumerate(nodes)}] *)
Definition node_index (ns : list NodeItem.t) : gmap str nat :=
  foldl (fun m '(idx, n) => <[NodeItem.id n := idx]> m) ∅ (enumerate ns).

(** [lambda x: node_index.get(x.id, 0)] *)
Definition index_key (ns : list NodeItem.t) (x : NodeItem.t) : nat :=
  default 0 (node_index ns !! NodeItem.id x).

(** [{(e.source, e.target) for e in edges}] *)
Definition existing_pairs (es : list EdgeItem.t) : gset (str * str) :=
  list_to_set (map (fun e => (EdgeItem.source e, EdgeItem.target e)) es).

(** [n.type in (NodeType.phase, NodeType.stage_label)] *)
Definition is_stage (ty : NodeType.t) : bool :=
  bool_decide (ty = NodeType.phase) || bool_decide (ty = NodeType.stage_label).

(** [dot.edge(a, b, style="solid", arrowhead="normal")] for the adjacent
    pairs of [ids] that are no explicit edge. *)
Definition adjacency_edges (pairs : gset (str * str)) (ids : list str) : list stmt :=
  map (fun '(a, b) => Edge a b [kw "style" "solid"; kw "arrowhead" "normal"])
      (filter (fun ab => ab ∉ pairs) (consecutive ids)).

(** *** Stacked mode: [draw_roadmap] *)

Definition phase_style : attrs :=
  [kw "shape" "box"; kw "style" "rounded,filled"; kw "fillcolor" "#2b3a67";
   kw "fontcolor" "white"; kw "color" "#2b3a67"].
Definition task_style : attrs :=
  [kw "shape" "box"; kw "style" "filled"; kw "fillcolor" "#ffffff"; kw "color" "#4a6fa5"].
Definition method_style : attrs :=
  [kw "shape" "parallelogram"; kw "style" "filled"; kw "fillcolor" "#eef3ff";
   kw "color" "#7aa2f7"].

(** [def _chunks(lst, size)] *)
Definition _chunks {A} (lst : list A) (size : Z) : result (list (list A)) :=
  do idxs <- range 0 (Z.of_nat (length lst)) size;
  match map (fun i => slice lst i (i + size)) idxs with
  | [] => Ok [[]]
  | cs => Ok cs
  end.

(** [[nodes_by_id[e.target] for e in edges_by_source.get(src, [])
      if nodes_by_id.get(e.target) and nodes_by_id[e.target].type == ty]] *)
Definition targets_of_type (r : Roadmap.t) (src : str) (ty : NodeType.t) : list NodeItem.t :=
  omap (fun e => match nodes_by_id (Roadmap.nodes r) !! EdgeItem.target e with
                 | Some n => if decide (NodeItem.type n = ty) then Some n else None
                 | None => None
                 end)
       (default [] (edges_by_source (Roadmap.edges r) !! src)).

(** [node and node.type == ty] *)
Definition has_type (ty : NodeType.t) (node : option NodeItem.t) : bool :=
  match node with
  | Some n => bool_decide (NodeItem.type n = ty)
  | None => false
  end.

Module Stacked.
Section stacked.
(** [str(cluster)], pydantic's rendering of the model, used in row names. *)
Variable cluster_str : ClusterItem.t -> str.
Variable roadmap_data : Roadmap.t.
Variable max_methods_per_row : Z.

Definition stage_nodes (cluster_id : str) : list NodeItem.t :=
  sorted (index_key (Roadmap.nodes roadmap_data))
    (filter (fun n => NodeItem.parent_cluster n = cluster_id
                      ∧ is_stage (NodeItem.type n) = true)
            (Roadmap.nodes roadmap_data)).

Definition cluster_inner_nodes (cluster_id : str) : list NodeItem.t :=
  sorted (index_key (Roadmap.nodes roadmap_data))
    (filter (fun n => NodeItem.parent_cluster n = cluster_id
                      ∧ is_stage (NodeItem.type n) = false)
            (Roadmap.nodes roadmap_data)).

(** [dot.node(n.id, label=n.label, **style, group="phase")] *)
Definition stage_node_stmt (n : NodeItem.t) : stmt :=
  Node (NodeItem.id n) (kv "label" (NodeItem.label n) :: phase_style ++ [kw "group" "phase"]).

(** [c.node(n.id, label=n.label, **style, group=group_val)] *)
Definition inner_node_stmt (n : NodeItem.t) : stmt :=
  let style := if decide (NodeItem.type n = NodeType.task) then task_style else method_style in
  let group_val := if decide (NodeItem.type n = NodeType.task) then lit "task" else lit "method" in
  Node (NodeItem.id n) (kv "label" (NodeItem.label n) :: style ++ [kv "group" group_val]).

Definition row_name (cluster : ClusterItem.t) (p t : NodeItem.t) (idx : nat) : str :=
  cluster_str cluster ++ lit "_row_" ++ NodeItem.id p ++ lit "_" ++ NodeItem.id t
  ++ lit "_" ++ str_of_nat idx.

Definition proxy_id (p t : NodeItem.t) (idx : nat) : str :=
  lit "proxy_" ++ NodeItem.id p ++ lit "_" ++ NodeItem.id t ++ lit "_" ++ str_of_nat idx.

(** One [rank="same"] row: the proxy, the task, the methods of the chunk. *)
Definition row_stmt (cluster : ClusterItem.t) (p t : NodeItem.t)
    (idx : nat) (mchunk : list NodeItem.t) : stmt :=
  Subgraph (row_name cluster p t idx)
    (Attr None [kw "rank" "same"]
     :: Node (proxy_id p t idx)
          [kw "label" ""; kw "shape" "box"; kw "style" "invis"; kw "width" "0";
           kw "height" "0"; kw "group" "phase"]
     :: Node (NodeItem.id t) []
     :: map (fun m => Node (NodeItem.id m) []) mchunk).

(** The rows of task [t] reached from stage node [p]. *)
Definition task_rows (cluster : ClusterItem.t) (p t : NodeItem.t) : result (list stmt) :=
  let methods := targets_of_type roadmap_data (NodeItem.id t) NodeType.method in
  do chunks <- _chunks methods max_methods_per_row;
  Ok (imap (row_stmt cluster p t) chunks).

(** The body of [for p in phase_nodes]. *)
Definition stage_rows (cluster : ClusterItem.t) (p : NodeItem.t) : result (list stmt) :=
  let row_tasks := targets_of_type roadmap_data (NodeItem.id p) NodeType.task in
  do rows <- traverse (task_rows cluster p) row_tasks;
  Ok (concat rows).

(** The loop [for p in phase_nodes] of one cluster: all its rows. *)
Definition cluster_rows (cluster : ClusterItem.t) : result (list stmt) :=
  do rows <- traverse (stage_rows cluster) (stage_nodes (ClusterItem.id cluster));
  Ok (concat rows).

Definition task_nodes_in_cluster (cluster_id : str) : list str :=
  map NodeItem.id
    (filter (fun n => NodeItem.type n = NodeType.task) (cluster_inner_nodes cluster_id)).

(** The ordering edges between adjacent tasks of one cluster. *)
Definition task_order_edges (cluster_id : str) : list stmt :=
  adjacency_edges (existing_pairs (Roadmap.edges roadmap_data))
                  (task_nodes_in_cluster cluster_id).

(** The body of [for cluster in roadmap_data.clusters]: the stage nodes
    and the ordering edges go to the main graph, the subgraph is added
    when its [with] block ends. *)
Definition draw_cluster (cluster : ClusterItem.t) : result (list stmt) :=
  let cluster_id := ClusterItem.id cluster in
  let cluster_label := ClusterItem.label cluster in
  do rows <- cluster_rows cluster;
  Ok (map stage_node_stmt (stage_nodes cluster_id)
      ++ task_order_edges cluster_id
      ++ [Subgraph (lit "cluster_" ++ cluster_id)
            (Attr None [kw "style" "dashed"; kw "color" "#9aa5b1";
                        kv "label" cluster_label; kw "labelloc" "t"; kw "labeljust" "l"]
             :: map inner_node_stmt (cluster_inner_nodes cluster_id)
             ++ rows)]).

(** [stage_order] once every cluster has been visited. *)
Definition stage_order : list str :=
  concat (map (fun c => map NodeItem.id (stage_nodes (ClusterItem.id c)))
              (Roadmap.clusters roadmap_data)).

(** The keyword arguments chosen for an explicit edge. *)
Definition edge_attrs (src_node tgt_node : option NodeItem.t) : attrs :=
  if has_type NodeType.method src_node || has_type NodeType.method tgt_node
  then [kw "style" "invis"; kw "arrowhead" "none"]
  else if has_type NodeType.task src_node && has_type NodeType.sub_content tgt_node
  then [kw "style" "dashed"; kw "arrowhead" "none"]
  else if has_type NodeType.sub_content src_node || has_type NodeType.sub_content tgt_node
  then [kw "style" "invis"; kw "arrowhead" "none"]
  else [kw "arrowhead" "normal"].

(** The body of [for e in roadmap_data.edges]. *)
Definition edge_stmt (e : EdgeItem.t) : stmt :=
  let src_node := nodes_by_id (Roadmap.nodes roadmap_data) !! EdgeItem.source e in
  let tgt_node := nodes_by_id (Roadmap.nodes roadmap_data) !! EdgeItem.target e in
  Edge (EdgeItem.source e) (EdgeItem.target e)
       (kv "label" (default [] (EdgeItem.label e)) :: edge_attrs src_node tgt_node).

Definition stage_order_edges : list stmt :=
  adjacency_edges (existing_pairs (Roadmap.edges roadmap_data)) stage_order.

(** The body of the graph [draw_roadmap] renders. *)
Definition draw_roadmap : result (list stmt) :=
  do cs <- traverse draw_cluster (Roadmap.clusters roadmap_data);
  Ok (concat cs
      ++ map edge_stmt (Roadmap.edges roadmap_data)
      ++ stage_order_edges).
End stacked.
End Stacked.

(** *** Column mode: [generate_beautiful_roadmap] *)

Module Column.
Section column.
Variable roadmap_data : Roadmap.t.
Variable fontname : str.

(** [data = roadmap_data.dict()]: the same fields, as dictionaries. *)
Definition nodes : list NodeItem.t := Roadmap.nodes roadmap_data.
Definition edges : list EdgeItem.t := Roadmap.edges roadmap_data.
Definition clusters : list ClusterItem.t := Roadmap.clusters roadmap_data.

Definition current_nodes (cluster_id : str) : list NodeItem.t :=
  sorted (index_key nodes)
    (filter (fun n => NodeItem.parent_cluster n = cluster_id) nodes).

(** [n.get("type") in ("stage_label", "phase")] *)
Definition stage_nodes (cluster_id : str) : list NodeItem.t :=
  filter (fun n => NodeItem.type n = NodeType.stage_label
                   ∨ NodeItem.type n = NodeType.phase)
         (current_nodes cluster_id).
Definition task_nodes (cluster_id : str) : list NodeItem.t :=
  filter (fun n => NodeItem.type n = NodeType.task) (current_nodes cluster_id).
Definition sub_nodes (cluster_id : str) : list NodeItem.t :=
  filter (fun n => NodeItem.type n = NodeType.sub_content) (current_nodes cluster_id).
Definition method_nodes (cluster_id : str) : list NodeItem.t :=
  filter (fun n => NodeItem.type n = NodeType.method) (current_nodes cluster_id).

Definition stage_node_stmt (node : NodeItem.t) : stmt :=
  Node (NodeItem.id node)
    [kv "label" (NodeItem.label node); kw "shape" "box"; kw "style" "rounded,filled";
     kw "fillcolor" "#2b3a67"; kw "color" "#2b3a67"; kw "fontcolor" "white";
     kw "width" "2.5"].
Definition task_node_stmt (node : NodeItem.t) : stmt :=
  Node (NodeItem.id node)
    [kv "label" (NodeItem.label node); kw "shape" "box"; kw "style" "filled";
     kw "fillcolor" "white"; kw "color" "black"; kw "width" "2.5"].
Definition sub_node_stmt (node : NodeItem.t) : stmt :=
  Node (NodeItem.id node)
    [kv "label" (NodeItem.label node); kw "shape" "note"; kw "style" "dashed";
     kw "fillcolor" "#F5F5F5"; kw "color" "#666666"; kw "width" "2.0"].
Definition method_node_stmt (node : NodeItem.t) : stmt :=
  Node (NodeItem.id node)
    [kv "label" (NodeItem.label node); kw "shape" "ellipse"; kw "style" "filled";
     kw "fillcolor" "#E1F5FE"; kw "color" "#01579B"].

Definition task_ids (cluster_id : str) : list str :=
  map NodeItem.id (task_nodes cluster_id).

Definition task_order_edges (cluster_id : str) : list stmt :=
  adjacency_edges (existing_pairs edges) (task_ids cluster_id).

(** The body of [for cluster in clusters]. *)
Definition draw_cluster (cluster : ClusterItem.t) : list stmt :=
  let cluster_id := ClusterItem.id cluster in
  let cluster_label := ClusterItem.label cluster in
  map stage_node_stmt (stage_nodes cluster_id)
  ++ task_order_edges cluster_id
  ++ [Subgraph (lit "cluster_" ++ cluster_id)
        ([Attr None [kv "label" cluster_label]; Attr None [kw "style" "dashed"];
          Attr None [kw "color" "#404040"]; Attr None [kw "fontcolor" "#404040"];
          Attr None [kw "bgcolor" "#F9F9F9"]]
         ++ map task_node_stmt (task_nodes cluster_id)
         ++ map sub_node_stmt (sub_nodes cluster_id)
         ++ map method_node_stmt (method_nodes cluster_id))].

Definition stage_order : list str :=
  concat (map (fun c => map NodeItem.id (stage_nodes (ClusterItem.id c))) clusters).

(** [next((n for n in nodes if n["id"] == node_id), None)] *)
Definition find_node (node_id : str) : option NodeItem.t :=
  head (filter (fun n => NodeItem.id n = node_id) nodes).

(** [edge_attrs] after the chain of [if]/[elif] on the endpoint types. *)
Definition edge_attrs (src_node tgt_node : option NodeItem.t) : attrs :=
  kw "color" "#333333" ::
  match src_node, tgt_node with
  | Some s, Some t =>
      let src_type := NodeItem.type s in
      let tgt_type := NodeItem.type t in
      if bool_decide (src_type = NodeType.method) || bool_decide (tgt_type = NodeType.method)
      then [kw "style" "invis"; kw "arrowhead" "none"; kw "constraint" "true"]
      else if bool_decide (src_type = NodeType.task)
              && bool_decide (tgt_type = NodeType.sub_content)
      then [kw "style" "dashed"; kw "arrowhead" "none"]
      else if bool_decide (src_type = NodeType.sub_content)
              || bool_decide (tgt_type = NodeType.sub_content)
      then [kw "style" "invis"; kw "arrowhead" "none"]
      else if bool_decide (src_type = NodeType.task) && bool_decide (tgt_type = NodeType.task)
      then [kw "style" "solid"; kw "constraint" "false"]
      else if bool_decide (src_type = NodeType.task)
              && bool_decide (tgt_type = NodeType.sub_content)
      then [kw "style" "dashed"; kw "arrowhead" "none"]
      else if bool_decide (src_type = NodeType.sub_content)
              && bool_decide (tgt_type = NodeType.method)
      then []
      else []
  | _, _ => []
  end.

(** The body of [for edge in edges]; a [None] label is left out. *)
Definition edge_stmt (edge : EdgeItem.t) : stmt :=
  let src_id := EdgeItem.source edge in
  let tgt_id := EdgeItem.target edge in
  let label := match EdgeItem.label edge with Some l => [kv "label" l] | None => [] end in
  Edge src_id tgt_id (label ++ edge_attrs (find_node src_id) (find_node tgt_id)).

Definition all_tasks : list str :=
  map NodeItem.id (filter (fun n => NodeItem.type n = NodeType.task) nodes).
Definition all_subs : list str :=
  map NodeItem.id (filter (fun n => NodeItem.type n = NodeType.sub_content) nodes).
Definition all_methods : list str :=
  map NodeItem.id (filter (fun n => NodeItem.type n = NodeType.method) nodes).
(** [[n["id"] for n in nodes if n["type"] == "stage_label"]] *)
Definition all_stages : list str :=
  map NodeItem.id (filter (fun n => NodeItem.type n = NodeType.stage_label) nodes).

(** [if ids: with dot.subgraph(name=name) as r: ...] *)
Definition rank_group (name : string) (ids : list str) : list stmt :=
  match ids with
  | [] => []
  | _ => [Subgraph (lit name) (Attr None [kw "rank" "same"] :: map (fun nid => Node nid []) ids)]
  end.

Definition rank_groups : list stmt :=
  rank_group "rank_stage" all_stages ++ rank_group "rank_task" all_tasks
  ++ rank_group "rank_sub" all_subs ++ rank_group "rank_method" all_methods.

(** [[n for n in [rep_stage, rep_task, rep_sub, rep_method] if n]] *)
Definition chain : list str :=
  omap (fun rep => match rep with
                   | Some n => if truthy n then Some n else None
                   | None => None
                   end)
       [head all_stages; head all_tasks; head all_subs; head all_methods].

(** [dot.edge(chain[i], chain[i+1], style="invis", weight="100")] *)
Definition chain_edges : list stmt :=
  map (fun '(a, b) => Edge a b [kw "style" "invis"; kw "weight" "100"]) (consecutive chain).

Definition stage_order_edges : list stmt :=
  adjacency_edges (existing_pairs edges) stage_order.

Definition header : list stmt :=
  [Attr None [kw "rankdir" "LR"]; Attr None [kw "splines" "ortho"];
   Attr None [kw "nodesep" "0.6"]; Attr None [kw "ranksep" "0.8"];
   Attr None [kv "fontname" fontname]; Attr None [kw "compound" "true"];
   Attr None [kw "newrank" "true"];
   Attr (Some "node"%string)
        [kv "fontname" fontname; kw "fontsize" "12"; kw "shape" "box";
         kw "style" "rounded,filled"; kw "fillcolor" "white"];
   Attr (Some "edge"%string) [kv "fontname" fontname; kw "fontsize" "11"]].

(** The body of the graph [generate_beautiful_roadmap] renders. *)
Definition generate_beautiful_roadmap : list stmt :=
  header
  ++ concat (map draw_cluster clusters)
  ++ map edge_stmt edges
  ++ rank_groups
  ++ chain_edges
  ++ stage_order_edges.
End column.
End Column.

(** The edges of a graph body (edges are always added to the main graph). *)
Fixpoint edges_of (body : list stmt) : list stmt :=
  match body with
  | [] => []
  | Edge a b at_ :: body' => Edge a b at_ :: edges_of body'
  | _ :: body' => edges_of body'
  end.

(** The edges of a statement, those of its subgraphs included. *)
Fixpoint stmt_edges (s : stmt) : list stmt :=
  match s with
  | Edge _ _ _ => [s]
  | Subgraph _ body => flat_map stmt_edges body
  | _ => []
  end.

(** Every edge of a graph body, at any depth. *)
Definition all_edges (body : list stmt) : list stmt := flat_map stmt_edges body.

(** ** The specification's tables *)

Inductive column : Type := col_stage | col_task | col_sub_content | col_method.

#[global] Instance column_eq_dec : EqDecision column.
Proof. solve_decision. Defined.

(** The column a type dictates: [phase] is an alias of [stage_label]. *)
Definition column_of (ty : NodeType.t) : column :=
  match ty with
  | NodeType.stage_label | NodeType.phase => col_stage
  | NodeType.task => col_task
  | NodeType.sub_content => col_sub_content
  | NodeType.method => col_method
  end.

(** The edge style precedence table: (style, arrowhead), first match wins. *)
Definition style_policy (src tgt : NodeType.t) : str * str :=
  if bool_decide (src = NodeType.method ∨ tgt = NodeType.method)
  then (lit "invis", lit "none")
  else if bool_decide (src = NodeType.task ∧ tgt = NodeType.sub_content)
  then (lit "dashed", lit "none")
  else if bool_decide (src = NodeType.sub_content ∨ tgt = NodeType.sub_content)
  then (lit "invis", lit "none")
  else (lit "solid", lit "normal").

(** [ceil(m / k)] *)
Definition ceil_div (m k : nat) : nat := (m + k - 1) / k.

(** ** Sample roadmaps *)

Definition node (id : string) (ty : NodeType.t) (parent_cluster : string) : NodeItem.t :=
  NodeItem.mk (lit id) (lit id) ty (lit parent_cluster).
Definition edge (source target : string) : EdgeItem.t :=
  EdgeItem.mk (lit source) (lit target) (Some []).
Definition cluster (id : string) : ClusterItem.t := ClusterItem.mk (lit id) (lit id).

(** One cluster with a stage, a task, a sub-content and a method. *)
Definition sample_nodes : list NodeItem.t :=
  [node "S" NodeType.stage_label "c1"; node "T1" NodeType.task "c1";
   node "Sub1" NodeType.sub_content "c1"; node "M1" NodeType.method "c1"].

Definition sample_ok : Roadmap.t :=
  Roadmap.mk (lit "sample") [cluster "c1"] sample_nodes
    [edge "T1" "Sub1"; edge "Sub1" "M1"].

(** The edge to ["X"] dangles. *)
Definition sample_dangling : Roadmap.t :=
  Roadmap.mk (lit "sample") [cluster "c1"] sample_nodes [edge "T1" "X"].

(** Cluster ["c2"] is not declared. *)
Definition sample_undeclared : Roadmap.t :=
  Roadmap.mk (lit "sample") [cluster "c1"]
    (sample_nodes ++ [node "T2" NodeType.task "c2"]) [].

(** Dictionaries with a node id, and with a cluster id, given twice. *)
Definition raw_c1 : RawCluster := raw_cluster (lit "c1") (lit "first").
Definition raw_t1 : RawNode := raw_node (lit "t1") (lit "one") (lit "task") (lit "c1").
Definition raw_t1' : RawNode := raw_node (lit "t1") (lit "other") (lit "method") (lit "c1").

(** The task has a method edge but no stage node points to it. *)
Definition sample_method_edge : Roadmap.t :=
  Roadmap.mk (lit "sample") [cluster "c1"] sample_nodes [edge "T1" "M1"].

(** The stage node points to the task. *)
Definition sample_stage_edge : Roadmap.t :=
  Roadmap.mk (lit "sample") [cluster "c1"] sample_nodes [edge "S" "T1"; edge "T1" "M1"].

(** The stage node points to two tasks, the first with three methods and
    the second with none. *)
Definition sample_rows : Roadmap.t :=
  Roadmap.mk (lit "sample") [cluster "c1"]
    [node "S" NodeType.stage_label "c1"; node "T1" NodeType.task "c1";
     node "T2" NodeType.task "c1"; node "M1" NodeType.method "c1";
     node "M2" NodeType.method "c1"; node "M3" NodeType.method "c1"]
    [edge "S" "T1"; edge "S" "T2"; edge "T1" "M1"; edge "T1" "M2"; edge "T1" "M3"].

(** A stage written with the legacy type next to one written [stage_label]. *)
Definition sample_phase : Roadmap.t :=
  Roadmap.mk (lit "sample") [cluster "c1"]
    [node "P1" NodeType.phase "c1"; node "S2" NodeType.stage_label "c1";
     node "T1" NodeType.task "c1"] [].

(** ** Dumping a roadmap *)

(** [model.dict()]: the fields as a dictionary; a node type is carried by
    its value, which [NodeType(...)] reads back. *)
Definition ClusterItem_dict (c : ClusterItem.t) : RawCluster :=
  raw_cluster (ClusterItem.id c) (ClusterItem.label c).
Definition NodeItem_dict (n : NodeItem.t) : RawNode :=
  raw_node (NodeItem.id n) (NodeItem.label n) (NodeType.value (NodeItem.type n))
           (NodeItem.parent_cluster n).
Definition EdgeItem_dict (e : EdgeItem.t) : RawEdge :=
  raw_edge (EdgeItem.source e) (EdgeItem.target e) (Some (EdgeItem.label e)).

(** A [Roadmap] constructed again from the fields of [roadmap.dict()]. *)
Definition Roadmap_reload (r : Roadmap.t) : result Roadmap.t :=
  Roadmap.new (Roadmap.title r) (map ClusterItem_dict (Roadmap.clusters r))
    (map NodeItem_dict (Roadmap.nodes r)) (map EdgeItem_dict (Roadmap.edges r)).

(** Two nodes share the id ["T1"]; the edge dangles as well. *)
Definition sample_duplicate : Roadmap.t :=
  Roadmap.mk (lit "sample") [cluster "c1"]
    (sample_nodes ++ [node "T1" NodeType.method "c9"]) [edge "T1" "X"].

(** ** More string built-ins *)

(** [sep.join(lines)] *)
Fixpoint join (sep : str) (lines : list str) : str :=
  match lines with
  | [] => []
  | [l] => l
  | l :: rest => l ++ sep ++ join sep rest
  end.

(** [s[:n]]: a negative [n] counts from the end. *)
Definition slice_to (s : str) (n : Z) : str :=
  if (0 <=? n)%Z then take (Z.to_nat n) s
  else take (length s - Z.to_nat (- n)) s.

(** [re.sub(r"\s+", " ", text)]: every maximal run of whitespace becomes
    one space; [in_run] tells that the run has already been replaced. *)
Fixpoint collapse_ws (in_run : bool) (text : str) : str :=
  match text with
  | [] => []
  | c :: text' =>
      if is_space c
      then (if in_run then collapse_ws true text' else 32%N :: collapse_ws true text')
      else c :: collapse_ws false text'
  end.

(** [s.strip(chars)] *)
Fixpoint lstrip_chars (chars : list char) (s : str) : str :=
  match s with
  | [] => []
  | c :: s' => if bool_decide (c ∈ chars) then lstrip_chars chars s' else s
  end.
Definition rstrip_chars (chars : list char) (s : str) : str :=
  reverse (lstrip_chars chars (reverse s)).
Definition strip_chars (chars : list char) (s : str) : str :=
  rstrip_chars chars (lstrip_chars chars s).

(** [s.startswith(prefix)] *)
Fixpoint startswith (prefix s : str) : bool :=
  match prefix, s with
  | [], _ => true
  | p :: prefix', c :: s' => (p =? c)%N && startswith prefix' s'
  | _ :: _, [] => false
  end.

(** [s.find(pat)]: the index of the first occurrence, [None] for [-1]. *)
Fixpoint str_find (pat s : str) : option nat :=
  if startswith pat s then Some 0
  else match s with
       | [] => None
       | _ :: s' => S <$> str_find pat s'
       end.

(** [s.rfind(c)] for a one-character pattern. *)
Fixpoint str_rfind (c : char) (s : str) : option nat :=
  match s with
  | [] => None
  | d :: s' =>
      match str_rfind c s' with
      | Some i => Some (S i)
      | None => if (d =? c)%N then Some 0 else None
      end
  end.

(** The two parts of [s.split(sep, 1)] for a one-character [sep] that
    occurs in [s]. *)
Fixpoint before (sep : char) (s : str) : str :=
  match s with
  | [] => []
  | c :: s' => if (c =? sep)%N then [] else c :: before sep s'
  end.
Fixpoint after (sep : char) (s : str) : str :=
  match s with
  | [] => []
  | c :: s' => if (c =? sep)%N then s' else after sep s'
  end.

(** ** parser_docx.py *)

(** The loop over [doc.paragraphs], on the texts of the paragraphs. *)
Definition docx_lines (paragraphs : list str) : list str :=
  omap (fun para_text =>
          let text := strip para_text in
          if 2 <=? length text then Some (collapse_ws false text) else None)
       paragraphs.

Definition read_docx (paragraphs : list str) (max_chars : Z) : str :=
  let full_text := join [10%N] (docx_lines paragraphs) in
  slice_to full_text max_chars.

(** ** secure_api.py *)

(** The body of [for line in fr]. *)
Definition parse_env_line (data : gmap str str) (line : str) : gmap str str :=
  let s := strip line in
  if negb (truthy s) || startswith (lit "#") s then data
  else if bool_decide (61%N ∉ s) then data
  else
    let k := before 61%N s in
    let v := after 61%N s in
    let k := strip k in
    let v := strip_chars [39%N] (strip_chars [34%N] (strip v)) in
    <[k := v]> data.

(** [_parse_env_file], on the lines the open file yields. *)
Definition _parse_env_file (lines : list str) : gmap str str :=
  foldl parse_env_line ∅ lines.



Section load_api_key.
(** The surroundings: [os.path.exists], the lines of a text file,
    [os.getenv], and the decryption of the key file with a passphrase (the
    [try]/[except] block around Fernet), [None] when it raises. *)
Variable path_exists : str -> bool.
Variable file_lines : str -> list str.
Variable getenv : str -> option str.
Variable decrypt_file : str -> str -> option str.




End load_api_key.

(** ** llm_analyzer.py *)

(** One character of the pattern [json] under [re.IGNORECASE]: the letter
    in either case and, for [s], the long s. *)
Definition matches_ci (letter c : char) : bool :=
  (c =? letter)%N || (c =? letter - 32)%N || ((letter =? 115)%N && (c =? 383)%N).

(** The pattern [```\s*json\s*([\s\S]*?)```] tried at the start of [s]:
    the text captured by the group. *)
Definition fence_at (s : str) : option str :=
  if startswith (lit "```") s
  then match lstrip (drop 3 s) with
       | j :: s_ :: o :: n :: rest =>
           if matches_ci 106%N j && matches_ci 115%N s_
              && matches_ci 111%N o && matches_ci 110%N n
           then let body := lstrip rest in
                match str_find (lit "```") body with
                | Some i => Some (take i body)
                | None => None
                end
           else None
       | _ => None
       end
  else None.

(** [re.search]: the match at the leftmost position where one exists. *)
Fixpoint search_fence (text : str) : option str :=
  match fence_at text with
  | Some g => Some g
  | None => match text with
            | [] => None
            | _ :: text' => search_fence text'
            end
  end.

Definition _extract_json_block (text : str) : option str :=
  match search_fence text with
  | Some group1 => Some (strip group1)
  | None =>
      let start := str_find (lit "{") text in
      let end_ := str_rfind 125%N text in
      match start, end_ with
      | Some start, Some end_ =>
          if start <? end_ then Some (take (end_ + 1 - start) (drop start text)) else None
      | _, _ => None
      end
  end.

(** The last [try] of [analyze_structure], on parsed data that has the four
    fields: construction and consistency check, or the fallback with the
    text of the exception ([str(e)]). *)
Definition validate_or_fallback (exn_str : exn -> str) (text title : str)
    (clusters : list RawCluster) (nodes : list RawNode) (edges : list RawEdge)
    : result Roadmap.t :=
  match (do roadmap <- Roadmap.new title clusters nodes edges;
         do _u <- Roadmap.ensure_consistency roadmap;
         Ok roadmap) with
  | Ok roadmap => Ok roadmap
  | Raise e => build_fallback_roadmap text (exn_str e)
  end.

(** ** Predicates used in the statements *)

(** Whitespace occurs only as a single space or a single newline; [prev]
    tells that a whitespace character comes just before the text. *)
Fixpoint single_spaced (prev : bool) (s : str) : Prop :=
  match s with
  | [] => True
  | c :: s' =>
      if is_space c
      then prev = false ∧ (c = 32%N ∨ c = 10%N) ∧ single_spaced true s'
      else single_spaced false s'
  end.

(** * Properties *)

(** Closed decidable facts are settled by evaluation. *)
Ltac by_evaluation :=
  match goal with |- ?P => apply (bool_decide_unpack P); vm_compute; exact I end.

(** ** Strings *)

Lemma lstrip_keep c s : is_space c = false -> lstrip (c :: s) = c :: s.
Proof. intros H. simpl. now rewrite H. Qed.

Lemma rstrip_keep s d : is_space d = false -> rstrip (s ++ [d]) = s ++ [d].
Proof.
  intros H. unfold rstrip. rewrite reverse_snoc, lstrip_keep by done.
  now rewrite reverse_cons, reverse_involutive.
Qed.

Lemma strip_keep c s d :
  is_space c = false -> is_space d = false -> strip (c :: s ++ [d]) = c :: s ++ [d].
Proof.
  intros Hc Hd. unfold strip. rewrite lstrip_keep by done.
  exact (rstrip_keep (c :: s) d Hd).
Qed.

Lemma blank_keep c s d :
  is_space c = false -> is_space d = false -> blank (c :: s ++ [d]) = false.
Proof. intros Hc Hd. unfold blank. now rewrite strip_keep. Qed.

(** ** Uniqueness test by set size *)

Lemma size_list_to_set_le (l : list str) : size (list_to_set l : gset str) ≤ length l.
Proof.
  induction l as [|x l IH]; [done|].
  rewrite list_to_set_cons. simpl.
  rewrite size_union_alt, size_singleton.
  assert (size (list_to_set l ∖ {[x]} : gset str) ≤ size (list_to_set l : gset str)).
  { apply subseteq_size. intros y [Hy _]%elem_of_difference. exact Hy. }
  lia.
Qed.

Lemma not_unique_false (ids : list str) : not_unique ids = false <-> NoDup ids.
Proof.
  unfold not_unique. rewrite negb_false_iff, Nat.eqb_eq. split.
  - induction ids as [|x l IH]; [constructor|].
    rewrite list_to_set_cons. simpl. intros Hlen.
    destruct (decide (x ∈ l)) as [Hin|Hin].
    + exfalso.
      assert (({[x]} ∪ list_to_set l : gset str) = list_to_set l) as Heq.
      { apply subseteq_union_1_L, singleton_subseteq_l. now apply elem_of_list_to_set. }
      rewrite Heq in Hlen. pose proof (size_list_to_set_le l). lia.
    + rewrite size_union, size_singleton in Hlen
        by (apply disjoint_singleton_l; now rewrite elem_of_list_to_set).
      constructor; [done|]. apply IH. lia.
  - intros Hnd. now rewrite size_list_to_set.
Qed.

Lemma not_unique_true (ids : list str) : not_unique ids = true <-> ¬ NoDup ids.
Proof.
  rewrite <- not_unique_false. destruct (not_unique ids); split; congruence.
Qed.

(** ** The consistency loops *)

Lemma check_edges_ok id_set es :
  Forall (fun e => EdgeItem.source e ∈ id_set ∧ EdgeItem.target e ∈ id_set) es ->
  Roadmap.check_edges id_set es = Ok tt.
Proof.
  induction 1 as [|e es [Hs Ht] _ IH]; [done|]. simpl.
  rewrite !bool_decide_eq_false_2 by (intros Hn; now apply Hn). done.
Qed.

Lemma check_edges_raise id_set es e :
  e ∈ es -> EdgeItem.source e ∉ id_set ∨ EdgeItem.target e ∉ id_set ->
  exists msg, Roadmap.check_edges id_set es = Raise (ValueError msg).
Proof.
  intros Hin Hbad. induction es as [|e' es IH]; [by apply elem_of_nil in Hin|].
  simpl. destruct (bool_decide (EdgeItem.source e' ∉ id_set)
                   || bool_decide (EdgeItem.target e' ∉ id_set)) eqn:Hb; [eauto|].
  apply elem_of_cons in Hin as [->|Hin]; [|auto].
  apply orb_false_iff in Hb as [H1 H2].
  apply bool_decide_eq_false in H1, H2. tauto.
Qed.

Lemma check_edges_cases id_set es :
  Roadmap.check_edges id_set es = Ok tt
  ∨ exists msg, Roadmap.check_edges id_set es = Raise (ValueError msg).
Proof.
  induction es as [|e es IH]; simpl; [auto|].
  destruct (_ || _); eauto.
Qed.

Lemma check_nodes_ok cluster_ids ns :
  Forall (fun n => NodeItem.parent_cluster n ∈ cluster_ids) ns ->
  Roadmap.check_nodes cluster_ids ns = Ok tt.
Proof.
  induction 1 as [|n ns Hn _ IH]; [done|]. simpl.
  rewrite bool_decide_eq_false_2 by (intros Hx; now apply Hx). done.
Qed.

Lemma check_nodes_raise cluster_ids ns n :
  n ∈ ns -> NodeItem.parent_cluster n ∉ cluster_ids ->
  exists msg, Roadmap.check_nodes cluster_ids ns = Raise (ValueError msg).
Proof.
  intros Hin Hbad. induction ns as [|n' ns IH]; [by apply elem_of_nil in Hin|].
  simpl. destruct (bool_decide (NodeItem.parent_cluster n' ∉ cluster_ids)) eqn:Hb; [eauto|].
  apply elem_of_cons in Hin as [->|Hin]; [|auto].
  apply bool_decide_eq_false in Hb. tauto.
Qed.

(** A validated roadmap: what [ensure_consistency] returning means. *)
Lemma ensure_consistency_Ok (r : Roadmap.t) :
  Roadmap.ensure_consistency r = Ok tt <->
  NoDup (map NodeItem.id (Roadmap.nodes r))
  ∧ Forall (fun e => EdgeItem.source e ∈ map NodeItem.id (Roadmap.nodes r)
                     ∧ EdgeItem.target e ∈ map NodeItem.id (Roadmap.nodes r))
           (Roadmap.edges r)
  ∧ Forall (fun n => NodeItem.parent_cluster n ∈ map ClusterItem.id (Roadmap.clusters r))
           (Roadmap.nodes r).
Proof.
  unfold Roadmap.ensure_consistency. split.
  - destruct (not_unique _) eqn:Hu; [done|].
    apply not_unique_false in Hu. intros H. split; [done|].
    destruct (Roadmap.check_edges _ _) eqn:He; [|done]. simpl in H.
    split.
    + apply Forall_forall. intros e Hin.
      destruct (decide (EdgeItem.source e ∈ map NodeItem.id (Roadmap.nodes r)));
        destruct (decide (EdgeItem.target e ∈ map NodeItem.id (Roadmap.nodes r)));
        try done;
        edestruct (check_edges_raise (list_to_set (map NodeItem.id (Roadmap.nodes r)))
                     (Roadmap.edges r) e) as [m Hm];
        try done; rewrite ?not_elem_of_list_to_set; try tauto; congruence.
    + apply Forall_forall. intros n Hin.
      destruct (decide (NodeItem.parent_cluster n ∈ map ClusterItem.id (Roadmap.clusters r)));
        [done|].
      edestruct (check_nodes_raise (list_to_set (map ClusterItem.id (Roadmap.clusters r)))
                   (Roadmap.nodes r) n) as [m Hm];
        try done; rewrite ?not_elem_of_list_to_set; try tauto; congruence.
  - intros (Hnd & He & Hn).
    apply not_unique_false in Hnd. rewrite Hnd.
    rewrite check_edges_ok; simpl.
    + apply check_nodes_ok. eapply Forall_impl; [exact Hn|].
      intros n Hx. now apply elem_of_list_to_set.
    + eapply Forall_impl; [exact He|].
      intros e [? ?]. now rewrite !elem_of_list_to_set.
Qed.

(** ** Graph model *)

(** C5. Referential validity is enforced: when some edge has a source or a
    target that is no node id, or some node has a [parent_cluster] that is
    no declared cluster id, [ensure_consistency] raises (the [ValueError]
    that plays the role of the consistency error), nothing is repaired;
    when node ids are unique, every edge endpoint is a node id and every
    [parent_cluster] is declared, it returns without raising. *)
Theorem ensure_consistency_referential (r : Roadmap.t) :
  let ids := map NodeItem.id (Roadmap.nodes r) in
  let cluster_ids := map ClusterItem.id (Roadmap.clusters r) in
  ((exists e, e ∈ Roadmap.edges r
              ∧ (EdgeItem.source e ∉ ids ∨ EdgeItem.target e ∉ ids)) ->
   exists msg, Roadmap.ensure_consistency r = Raise (ValueError msg))
  ∧ ((exists n, n ∈ Roadmap.nodes r ∧ NodeItem.parent_cluster n ∉ cluster_ids) ->
     exists msg, Roadmap.ensure_consistency r = Raise (ValueError msg))
  ∧ (NoDup ids ->
     (forall e, e ∈ Roadmap.edges r -> EdgeItem.source e ∈ ids ∧ EdgeItem.target e ∈ ids) ->
     (forall n, n ∈ Roadmap.nodes r -> NodeItem.parent_cluster n ∈ cluster_ids) ->
     Roadmap.ensure_consistency r = Ok tt).
Proof.
  intros ids cluster_ids. repeat split.
  - intros (e & Hin & Hbad). unfold Roadmap.ensure_consistency.
    destruct (not_unique _); [eauto|].
    destruct (check_edges_raise (list_to_set ids) (Roadmap.edges r) e) as [m Hm];
      [done| rewrite !not_elem_of_list_to_set; exact Hbad |].
    fold ids. rewrite Hm. eauto.
  - intros (n & Hin & Hbad). unfold Roadmap.ensure_consistency.
    destruct (not_unique _); [eauto|]. fold ids cluster_ids.
    destruct (check_edges_cases (list_to_set ids) (Roadmap.edges r)) as [->|[m ->]];
      simpl; [|eauto].
    apply (check_nodes_raise _ _ n); [done|].
    now rewrite not_elem_of_list_to_set.
  - intros Hnd He Hn. apply ensure_consistency_Ok.
    split; [done|]. split; apply Forall_forall; auto.
Qed.

(** Characterisation of a successful list validation. *)
Lemma validate_list_Ok {A B} (f : A -> result B) (l : list A) :
  Forall (fun x => is_ok (f x) = true) l ->
  exists ys, validate_list f l = Ok ys ∧ length ys = length l.
Proof.
  induction 1 as [|x l Hx _ (ys & IH & Hlen)]; [by exists []|].
  simpl. rewrite IH. destruct (f x) as [y|]; [|done].
  exists (y :: ys). simpl. auto.
Qed.

(** C10. Construction accepts duplicate node ids: whenever the title is
    not blank, the clusters are valid, declared once and at least one,
    every node and edge dictionary is valid and there is at least one node,
    [Roadmap(...)] succeeds whether or not two nodes share an id, and a
    shared node id is only reported by a later [ensure_consistency]; a
    cluster id declared twice already fails the construction. *)
Theorem duplicate_ids_node_late_cluster_early
    (title : str) (clusters : list RawCluster) (nodes : list RawNode)
    (edges : list RawEdge) (cs : list ClusterItem.t) :
  validate_list Roadmap.new_cluster clusters = Ok cs ->
  (blank title = false -> cs <> [] -> NoDup (map ClusterItem.id cs) ->
   nodes <> [] ->
   Forall (fun n => is_ok (Roadmap.new_node n) = true) nodes ->
   Forall (fun e => is_ok (Roadmap.new_edge e) = true) edges ->
   exists r, Roadmap.new title clusters nodes edges = Ok r
             ∧ validate_list Roadmap.new_node nodes = Ok (Roadmap.nodes r)
             ∧ (¬ NoDup (map NodeItem.id (Roadmap.nodes r)) ->
                Roadmap.ensure_consistency r = Raise (ValueError Roadmap.msg_dup)))
  ∧ (¬ NoDup (map ClusterItem.id cs) ->
     exists errors, Roadmap.new title clusters nodes edges = Raise (ValidationError errors)).
Proof.
  intros Hcs. split.
  - intros Ht Hne Hnd Hnodes Hn He.
    destruct (validate_list_Ok _ _ Hn) as (ns & Hns & Hlen).
    destruct (validate_list_Ok _ _ He) as (es & Hes & _).
    unfold Roadmap.new, Roadmap.title_not_empty.
    rewrite Ht, Hcs, Hns, Hes. simpl.
    unfold Roadmap.clusters_non_empty.
    destruct cs as [|c cs']; [done|].
    apply not_unique_false in Hnd. rewrite Hnd.
    destruct ns as [|n ns'].
    { destruct nodes; [done|discriminate]. }
    simpl. eexists. split; [reflexivity|]. split; [reflexivity|].
    intros Hdup. apply not_unique_true in Hdup.
    unfold Roadmap.ensure_consistency. simpl in *. now rewrite Hdup.
  - intros Hdup. unfold Roadmap.new. rewrite Hcs. simpl.
    unfold Roadmap.clusters_non_empty.
    destruct cs as [|c cs']; [destruct Hdup; constructor|].
    apply not_unique_true in Hdup. rewrite Hdup.
    destruct (Roadmap.title_not_empty title); eauto.
Qed.

Lemma ensure_consistency_referential_witness :
  (exists msg, Roadmap.ensure_consistency sample_dangling = Raise (ValueError msg))
  ∧ (exists msg, Roadmap.ensure_consistency sample_undeclared = Raise (ValueError msg))
  ∧ Roadmap.ensure_consistency sample_ok = Ok tt.
Proof.
  split; [|split].
  - destruct (ensure_consistency_referential sample_dangling) as (H & _ & _).
    apply H. exists (edge "T1" "X"). split; [by_evaluation|]. right. by_evaluation.
  - destruct (ensure_consistency_referential sample_undeclared) as (_ & H & _).
    apply H. exists (node "T2" NodeType.task "c2"). split; by_evaluation.
  - destruct (ensure_consistency_referential sample_ok) as (_ & _ & H).
    apply H.
    + by_evaluation.
    + apply Forall_forall. by_evaluation.
    + apply Forall_forall. by_evaluation.
Defined.

Lemma duplicate_ids_node_late_cluster_early_witness :
  (exists r, Roadmap.new (lit "T") [raw_c1] [raw_t1; raw_t1'] [] = Ok r
             ∧ Roadmap.ensure_consistency r = Raise (ValueError Roadmap.msg_dup))
  ∧ (exists errors,
       Roadmap.new (lit "T") [raw_c1; raw_c1] [raw_t1] [] = Raise (ValidationError errors)).
Proof.
  split.
  - destruct (duplicate_ids_node_late_cluster_early (lit "T") [raw_c1] [raw_t1; raw_t1'] []
                [ClusterItem.mk (lit "c1") (lit "first")]) as [H _];
      [vm_compute; reflexivity|].
    destruct H as (r & Hr & Hns & Hdup);
      [vm_compute; reflexivity | discriminate | by_evaluation | discriminate
      | repeat constructor | constructor |].
    exists r. split; [exact Hr|]. apply Hdup.
    assert (validate_list Roadmap.new_node [raw_t1; raw_t1']
            = Ok [NodeItem.mk (lit "t1") (lit "one") NodeType.task (lit "c1");
                  NodeItem.mk (lit "t1") (lit "other") NodeType.method (lit "c1")]) as E
      by (vm_compute; reflexivity).
    rewrite E in Hns. injection Hns as <-. by_evaluation.
  - destruct (duplicate_ids_node_late_cluster_early (lit "T") [raw_c1; raw_c1] [raw_t1] []
                [ClusterItem.mk (lit "c1") (lit "first");
                 ClusterItem.mk (lit "c1") (lit "first")]) as [_ H];
      [vm_compute; reflexivity|].
    apply H. by_evaluation.
Defined.

(** ** Fallback synthesizer *)

Lemma fallback_title_ok (error : str) :
  let title := if truthy error
               then fallback_title ++ lit " [Error: " ++ error_fragment error ++ lit "...]"
               else fallback_title in
  Roadmap.title_not_empty title = Ok title.
Proof.
  destruct error as [|c error]; [vm_compute; reflexivity|].
  cbv zeta. cbn [truthy].
  set (frag := error_fragment (c :: error)).
  assert (fallback_title ++ lit " [Error: " ++ frag ++ lit "...]"
          = 25216%N :: (tail fallback_title ++ lit " [Error: " ++ frag ++ lit "...")
                       ++ [93%N]) as ->.
  { change (lit "...]") with (lit "..." ++ [93%N]).
    change fallback_title with (25216%N :: tail fallback_title).
    rewrite <- !app_comm_cons. f_equal. now rewrite <- !app_assoc. }
  unfold Roadmap.title_not_empty. now rewrite blank_keep, strip_keep.
Qed.

(** C2. Whatever the text and the error, [build_fallback_roadmap] returns a
    roadmap that [ensure_consistency] accepts, with 3 clusters, 12 nodes
    (a stage label, a task, a sub-content and a method per cluster) and the
    8 edges t1→t2→t3, t_i→sub_i, sub_i→m_i; with a non-empty error the
    title carries [error[:20]]: the first 20 characters of the error, or
    the whole error when it is shorter. *)
Theorem build_fallback_roadmap_valid (raw_text error : str) :
  exists r,
    build_fallback_roadmap raw_text error = Ok r
    ∧ Roadmap.ensure_consistency r = Ok tt
    ∧ length (Roadmap.clusters r) = 3
    ∧ length (Roadmap.nodes r) = 12
    ∧ length (Roadmap.edges r) = 8
    ∧ map ClusterItem.id (Roadmap.clusters r) = [lit "phase1"; lit "phase2"; lit "phase3"]
    ∧ map (fun n => (NodeItem.id n, NodeItem.type n, NodeItem.parent_cluster n))
          (Roadmap.nodes r)
      = [ (lit "s1", NodeType.stage_label, lit "phase1");
          (lit "t1", NodeType.task, lit "phase1");
          (lit "sub1", NodeType.sub_content, lit "phase1");
          (lit "m1", NodeType.method, lit "phase1");
          (lit "s2", NodeType.stage_label, lit "phase2");
          (lit "t2", NodeType.task, lit "phase2");
          (lit "sub2", NodeType.sub_content, lit "phase2");
          (lit "m2", NodeType.method, lit "phase2");
          (lit "s3", NodeType.stage_label, lit "phase3");
          (lit "t3", NodeType.task, lit "phase3");
          (lit "sub3", NodeType.sub_content, lit "phase3");
          (lit "m3", NodeType.method, lit "phase3") ]
    ∧ map (fun e => (EdgeItem.source e, EdgeItem.target e)) (Roadmap.edges r)
      = [ (lit "t1", lit "t2"); (lit "t2", lit "t3");
          (lit "t1", lit "sub1"); (lit "t2", lit "sub2"); (lit "t3", lit "sub3");
          (lit "sub1", lit "m1"); (lit "sub2", lit "m2"); (lit "sub3", lit "m3") ]
    ∧ Roadmap.title r
      = (if truthy error
         then fallback_title ++ lit " [Error: " ++ take 20 error ++ lit "...]"
         else fallback_title)
    ∧ take 20 error `prefix_of` error
    ∧ length (take 20 error) ≤ 20
    ∧ (20 ≤ length error -> length (take 20 error) = 20)
    ∧ (length error ≤ 20 -> take 20 error = error).
Proof.
  unfold build_fallback_roadmap, Roadmap.new.
  pose proof (fallback_title_ok error) as Ht. cbv zeta in Ht |- *. rewrite Ht.
  set (cs := bind (validate_list Roadmap.new_cluster fallback_clusters) _).
  set (ns := bind (validate_list Roadmap.new_node fallback_nodes) _).
  set (es := bind (validate_list Roadmap.new_edge fallback_edges) _).
  vm_compute in cs, ns, es. subst cs ns es. cbv iota beta.
  eexists. split; [reflexivity|].
  split; [vm_compute; reflexivity|].
  repeat (split; [reflexivity|]).
  split; [apply prefix_take|].
  rewrite length_take. split; [lia|]. split; [lia|].
  intros Hlen. by apply take_ge.
Qed.

(** ** Tables of the planners *)

Section tables.
Implicit Types (ns : list NodeItem.t) (es : list EdgeItem.t).

Lemma nodes_by_id_snoc ns n :
  nodes_by_id (ns ++ [n]) = <[NodeItem.id n := n]> (nodes_by_id ns).
Proof. unfold nodes_by_id. now rewrite foldl_snoc. Qed.

Lemma nodes_by_id_Some ns k n :
  nodes_by_id ns !! k = Some n -> n ∈ ns ∧ NodeItem.id n = k.
Proof.
  induction ns as [|x ns IH] using rev_ind; [done|].
  rewrite nodes_by_id_snoc, lookup_insert. case_decide as Hk.
  - intros [= <-]. split; [|done]. apply elem_of_app. right. by left.
  - intros H. destruct (IH H). split; [|done]. apply elem_of_app. by left.
Qed.

Lemma nodes_by_id_unique ns n :
  NoDup (map NodeItem.id ns) -> n ∈ ns -> nodes_by_id ns !! NodeItem.id n = Some n.
Proof.
  induction ns as [|x ns IH] using rev_ind; [by intros _ ?%elem_of_nil|].
  rewrite map_app, nodes_by_id_snoc. intros Hnd Hin.
  apply NoDup_app in Hnd as (Hnd & Hfresh & _).
  apply elem_of_app in Hin as [Hin|Hin].
  - rewrite lookup_insert_ne; [auto|].
    intros Heq. apply (Hfresh (NodeItem.id n)).
    + apply list_elem_of_fmap. eauto.
    + rewrite <- Heq. by left.
  - apply list_elem_of_singleton in Hin as ->. apply lookup_insert_eq.
Qed.

Lemma head_filter_unique ns n :
  NoDup (map NodeItem.id ns) -> n ∈ ns ->
  head (filter (fun m => NodeItem.id m = NodeItem.id n) ns) = Some n.
Proof.
  induction ns as [|x ns IH]; [by intros _ ?%elem_of_nil|].
  simpl. intros [Hx Hnd]%NoDup_cons Hin.
  rewrite filter_cons. case_decide as Heq.
  - apply elem_of_cons in Hin as [->|Hin]; [done|].
    destruct Hx. rewrite Heq. apply list_elem_of_fmap. eauto.
  - apply elem_of_cons in Hin as [->|Hin]; [done|]. auto.
Qed.

Lemma node_index_snoc ns n :
  node_index (ns ++ [n]) = <[NodeItem.id n := length ns]> (node_index ns).
Proof.
  unfold node_index, enumerate. rewrite imap_app, foldl_app. simpl.
  now rewrite Nat.add_0_r.
Qed.

Lemma node_index_unique ns i n :
  NoDup (map NodeItem.id ns) -> ns !! i = Some n ->
  node_index ns !! NodeItem.id n = Some i.
Proof.
  revert i. induction ns as [|x ns IH] using rev_ind; [done|].
  intros i. rewrite map_app, node_index_snoc. intros Hnd Hi.
  apply NoDup_app in Hnd as (Hnd & Hfresh & _).
  apply lookup_app_Some in Hi as [Hi|[Hlen Hi]].
  - rewrite lookup_insert_ne; [auto|].
    intros Heq. apply (Hfresh (NodeItem.id n)).
    + apply list_elem_of_fmap. exists n. split; [done|]. by eapply list_elem_of_lookup_2.
    + rewrite <- Heq. by left.
  - apply list_lookup_singleton_Some in Hi as [Hi <-].
    rewrite lookup_insert_eq. f_equal. lia.
Qed.

Lemma edges_by_source_snoc es e :
  edges_by_source (es ++ [e])
  = <[EdgeItem.source e :=
        default [] (edges_by_source es !! EdgeItem.source e) ++ [e]]> (edges_by_source es).
Proof. unfold edges_by_source. now rewrite foldl_snoc. Qed.

(** [edges_by_source.get(src, [])] lists the edges leaving [src], in
    their order in the roadmap. *)
Lemma edges_by_source_get es src :
  default [] (edges_by_source es !! src) = filter (fun e => EdgeItem.source e = src) es.
Proof.
  induction es as [|e es IH] using rev_ind; [done|].
  rewrite edges_by_source_snoc, filter_app, <- IH.
  destruct (decide (EdgeItem.source e = src)) as [<-|Hne].
  - rewrite lookup_insert_eq, filter_cons_True by done. done.
  - rewrite lookup_insert_ne, filter_cons_False by done. now rewrite app_nil_r.
Qed.

End tables.

(** ** Built-ins *)

Lemma elem_of_consecutive {A} (xs : list A) a b :
  (a, b) ∈ consecutive xs <-> exists i, xs !! i = Some a ∧ xs !! S i = Some b.
Proof.
  unfold consecutive. rewrite list_elem_of_omap. split.
  - intros (i & _ & Hi). exists i. rewrite Nat.add_1_r in Hi.
    destruct (xs !! i), (xs !! S i); naive_solver.
  - intros (i & Ha & Hb). exists i. split.
    + apply elem_of_seq. apply lookup_lt_Some in Hb. lia.
    + rewrite Nat.add_1_r, Ha, Hb. done.
Qed.


Lemma insert_by_head {A} (key : A -> nat) x l :
  Forall (fun y => key x ≤ key y) l -> insert_by key x l = x :: l.
Proof.
  destruct 1 as [|y l Hy _]; [done|]. simpl.
  now apply Nat.leb_le in Hy as ->.
Qed.

(** Sorting a list whose keys already increase leaves it as it is. *)
Lemma sorted_id {A} (key : A -> nat) (l : list A) :
  StronglySorted (fun a b => key a ≤ key b) l -> sorted key l = l.
Proof.
  induction 1 as [|x l _ IH Hx]; [done|].
  unfold sorted in *. simpl. rewrite IH. now apply insert_by_head.
Qed.

Lemma StronglySorted_of_lookup {A} (R : relation A) (l : list A) :
  (forall i j a b, i < j -> l !! i = Some a -> l !! j = Some b -> R a b) ->
  StronglySorted R l.
Proof.
  induction l as [|x l IH]; intros H; constructor.
  - apply IH. intros i j a b Hij Ha Hb. apply (H (S i) (S j)); [lia|done..].
  - apply Forall_forall. intros b [j Hj]%list_elem_of_lookup.
    apply (H 0 (S j)); [lia|done..].
Qed.

Lemma StronglySorted_filter {A} (R : relation A) (P : A -> Prop)
    `{!forall x, Decision (P x)} (l : list A) :
  StronglySorted R l -> StronglySorted R (filter P l).
Proof.
  induction 1 as [|x l _ IH Hx]; [constructor|].
  rewrite filter_cons. case_decide; [|done].
  constructor; [done|]. apply Forall_forall.
  intros y [_ Hy]%list_elem_of_filter. rewrite Forall_forall in Hx. auto.
Qed.

(** With unique ids, filtering the node sequence already yields the
    order [sorted] asks for. *)
Lemma sorted_filter_nodes (ns : list NodeItem.t) (P : NodeItem.t -> Prop)
    `{!forall x, Decision (P x)} :
  NoDup (map NodeItem.id ns) -> sorted (index_key ns) (filter P ns) = filter P ns.
Proof.
  intros Hnd. apply sorted_id, StronglySorted_filter, StronglySorted_of_lookup.
  intros i j a b Hij Ha Hb. unfold index_key.
  rewrite (node_index_unique ns i a), (node_index_unique ns j b) by done.
  simpl. lia.
Qed.

(** ** Layout planner *)

(** C6. Order preservation: on a validated roadmap, every grouping the
    planners order (stage nodes and boxed nodes of a cluster in stacked
    mode, the nodes of a cluster and its stage, task, sub-content and
    method lists in column mode) is the node sequence of the roadmap
    restricted to the grouping, so nodes keep their source order and
    neither ids nor labels play a part. *)
Theorem order_preservation (r : Roadmap.t) (cluster_id : str) :
  Roadmap.ensure_consistency r = Ok tt ->
  Stacked.stage_nodes r cluster_id
  = filter (fun n => NodeItem.parent_cluster n = cluster_id
                     ∧ is_stage (NodeItem.type n) = true) (Roadmap.nodes r)
  ∧ Stacked.cluster_inner_nodes r cluster_id
    = filter (fun n => NodeItem.parent_cluster n = cluster_id
                       ∧ is_stage (NodeItem.type n) = false) (Roadmap.nodes r)
  ∧ (forall ty,
       filter (fun n => NodeItem.type n = ty) (Stacked.cluster_inner_nodes r cluster_id)
       `sublist_of` Roadmap.nodes r)
  ∧ Stacked.task_nodes_in_cluster r cluster_id
    = map NodeItem.id
        (filter (fun n => NodeItem.type n = NodeType.task
                          ∧ NodeItem.parent_cluster n = cluster_id
                          ∧ is_stage (NodeItem.type n) = false) (Roadmap.nodes r))
  ∧ Column.current_nodes r cluster_id
    = filter (fun n => NodeItem.parent_cluster n = cluster_id) (Roadmap.nodes r)
  ∧ Column.stage_nodes r cluster_id
    = filter (fun n => (NodeItem.type n = NodeType.stage_label
                        ∨ NodeItem.type n = NodeType.phase)
                       ∧ NodeItem.parent_cluster n = cluster_id) (Roadmap.nodes r)
  ∧ Column.task_nodes r cluster_id
    = filter (fun n => NodeItem.type n = NodeType.task
                       ∧ NodeItem.parent_cluster n = cluster_id) (Roadmap.nodes r)
  ∧ Column.sub_nodes r cluster_id
    = filter (fun n => NodeItem.type n = NodeType.sub_content
                       ∧ NodeItem.parent_cluster n = cluster_id) (Roadmap.nodes r)
  ∧ Column.method_nodes r cluster_id
    = filter (fun n => NodeItem.type n = NodeType.method
                       ∧ NodeItem.parent_cluster n = cluster_id) (Roadmap.nodes r).
Proof.
  intros (Hnd & _ & _)%ensure_consistency_Ok.
  assert (Stacked.cluster_inner_nodes r cluster_id
          = filter (fun n => NodeItem.parent_cluster n = cluster_id
                             ∧ is_stage (NodeItem.type n) = false) (Roadmap.nodes r)) as Hin
    by now apply sorted_filter_nodes.
  assert (Column.current_nodes r cluster_id
          = filter (fun n => NodeItem.parent_cluster n = cluster_id) (Roadmap.nodes r)) as Hcur
    by now apply sorted_filter_nodes.
  split; [now apply sorted_filter_nodes|].
  split; [exact Hin|].
  split.
  { intros ty. rewrite Hin. etrans; apply sublist_filter; apply _. }
  split.
  { unfold Stacked.task_nodes_in_cluster. now rewrite Hin, list_filter_filter. }
  split; [exact Hcur|].
  unfold Column.stage_nodes, Column.task_nodes, Column.sub_nodes, Column.method_nodes.
  rewrite Hcur, !list_filter_filter. done.
Qed.

Lemma order_preservation_witness :
  Stacked.cluster_inner_nodes sample_ok (lit "c1")
  = [node "T1" NodeType.task "c1"; node "Sub1" NodeType.sub_content "c1";
     node "M1" NodeType.method "c1"].
Proof.
  destruct (order_preservation sample_ok (lit "c1")) as (_ & -> & _);
    [vm_compute; reflexivity|].
  vm_compute. reflexivity.
Defined.

(** C3. Edge style policy: on a validated roadmap both endpoints of an
    explicit edge are nodes, and in either mode the style and arrowhead the
    edge is drawn with are those the precedence table gives for the two
    endpoint types: method at either end, invisible without arrowhead;
    else task to sub-content, dashed without arrowhead; else sub-content at
    either end, invisible; else solid with the normal arrowhead.  The
    planners being functions of the roadmap, two runs decide alike. *)
Theorem edge_style_policy (r : Roadmap.t) (e : EdgeItem.t) :
  Roadmap.ensure_consistency r = Ok tt ->
  e ∈ Roadmap.edges r ->
  exists s t a a',
    s ∈ Roadmap.nodes r ∧ NodeItem.id s = EdgeItem.source e
    ∧ t ∈ Roadmap.nodes r ∧ NodeItem.id t = EdgeItem.target e
    ∧ Stacked.edge_stmt r e = Edge (EdgeItem.source e) (EdgeItem.target e) a
    ∧ Column.edge_stmt r e = Edge (EdgeItem.source e) (EdgeItem.target e) a'
    ∧ (rendered_style a, rendered_arrowhead a)
      = style_policy (NodeItem.type s) (NodeItem.type t)
    ∧ (rendered_style a', rendered_arrowhead a')
      = style_policy (NodeItem.type s) (NodeItem.type t).
Proof.
  intros (Hnd & He & _)%ensure_consistency_Ok Hin.
  rewrite Forall_forall in He. destruct (He e Hin) as [Hs Ht].
  apply list_elem_of_fmap in Hs as (s & Hs & Hsin).
  apply list_elem_of_fmap in Ht as (t & Ht & Htin).
  exists s, t. eexists. eexists.
  split; [done|]. split; [done|]. split; [done|]. split; [done|].
  split; [reflexivity|]. split; [reflexivity|].
  unfold Column.find_node, Column.nodes.
  rewrite Hs, Ht, !nodes_by_id_unique, !head_filter_unique by done.
  destruct (EdgeItem.label e); destruct s as [? ? [] ?], t as [? ? [] ?];
    split; reflexivity.
Qed.

Lemma edge_style_policy_witness :
  exists a, Stacked.edge_stmt sample_ok (edge "T1" "Sub1") = Edge (lit "T1") (lit "Sub1") a
            ∧ (rendered_style a, rendered_arrowhead a) = (lit "dashed", lit "none").
Proof.
  destruct (edge_style_policy sample_ok (edge "T1" "Sub1"))
    as (s & t & a & a' & Hs & Hsid & Ht & Htid & Ha & _ & Hp & _);
    [vm_compute; reflexivity | by_evaluation |].
  exists a. split; [exact Ha|]. rewrite Hp.
  assert (s = node "T1" NodeType.task "c1") as ->.
  { revert Hs Hsid. unfold sample_ok, sample_nodes. simpl Roadmap.nodes.
    rewrite !elem_of_cons, elem_of_nil. intros [->|[->|[->|[->|[]]]]]; done. }
  assert (t = node "Sub1" NodeType.sub_content "c1") as ->.
  { revert Ht Htid. unfold sample_ok, sample_nodes. simpl Roadmap.nodes.
    rewrite !elem_of_cons, elem_of_nil. intros [->|[->|[->|[->|[]]]]]; done. }
  reflexivity.
Defined.

(** *** Row chunking *)

Lemma ceil_div_0 k : 1 ≤ k -> ceil_div 0 k = 0.
Proof. intros Hk. unfold ceil_div. apply Nat.div_small. lia. Qed.

Lemma ceil_div_step m k : 1 ≤ k -> 1 ≤ m -> ceil_div m k = S (ceil_div (m - k) k).
Proof.
  intros Hk Hm. unfold ceil_div.
  destruct (decide (m ≤ k)) as [Hle|Hgt].
  - replace (m - k) with 0 by lia. simpl.
    rewrite (Nat.div_small (k - 1)) by lia.
    replace (m + k - 1) with ((m - 1) + 1 * k) by lia.
    rewrite Nat.div_add by lia. rewrite Nat.div_small by lia. done.
  - replace (m + k - 1) with ((m - k + k - 1) + 1 * k) by lia.
    rewrite Nat.div_add by lia. lia.
Qed.

(** The slices taken at the indices of [range(s, len(l), k)] cut
    [l[s:]] into pieces of [k] elements, the last one possibly shorter. *)
Lemma slices_range_up {A} (l : list A) (K : Z) (fuel s : nat) :
  (1 ≤ K)%Z -> length l - s ≤ fuel ->
  let cs := map (fun i => slice l i (i + K))
                (range_up fuel (Z.of_nat s) (Z.of_nat (length l)) K) in
  concat cs = drop s l
  ∧ Forall (fun c => 1 ≤ length c ≤ Z.to_nat K) cs
  ∧ length cs = ceil_div (length l - s) (Z.to_nat K).
Proof.
  intros HK. revert s. induction fuel as [|fuel IH]; intros s Hfuel;
    cbv zeta; cbn [range_up map concat length].
  - rewrite drop_ge by lia. replace (length l - s) with 0 by lia.
    rewrite ceil_div_0 by lia. auto.
  - destruct (Z.ltb_spec (Z.of_nat s) (Z.of_nat (length l))) as [Hlt|Hge];
      cbn [map concat length].
    + replace (Z.of_nat s + K)%Z with (Z.of_nat (s + Z.to_nat K)) by lia.
      destruct (IH (s + Z.to_nat K)) as (Hcat & Hall & Hlen); [lia|].
      rewrite Hcat, Hlen.
      assert (slice l (Z.of_nat s) (Z.of_nat (s + Z.to_nat K))
              = take (Z.to_nat K) (drop s l)) as ->.
      { unfold slice. rewrite !Nat2Z.id. f_equal. lia. }
      split; [|split].
      * now rewrite <- drop_drop, take_drop.
      * constructor; [|done]. rewrite length_take, length_drop. lia.
      * rewrite (ceil_div_step (length l - s)) by lia. do 2 f_equal. lia.
    + rewrite drop_ge by lia. replace (length l - s) with 0 by lia.
      rewrite ceil_div_0 by lia. simpl. auto.
Qed.

Lemma slices_range_up_lookup {A} (l : list A) (K : Z) (fuel s i : nat) (c : list A) :
  (1 ≤ K)%Z ->
  map (fun i => slice l i (i + K)) (range_up fuel (Z.of_nat s) (Z.of_nat (length l)) K) !! i
  = Some c ->
  c = take (Z.to_nat K) (drop (s + i * Z.to_nat K) l) ∧ s + i * Z.to_nat K < length l.
Proof.
  intros HK. revert s i. induction fuel as [|fuel IH]; intros s i; cbn [range_up map]; [done|].
  destruct (Z.ltb_spec (Z.of_nat s) (Z.of_nat (length l))) as [Hlt|Hge]; [|done].
  cbn [map]. destruct i as [|i]; simpl.
  - intros [= <-]. unfold slice. rewrite Nat2Z.id, Nat.add_0_r. split; [|lia].
    f_equal. lia.
  - replace (Z.of_nat s + K)%Z with (Z.of_nat (s + Z.to_nat K)) by lia.
    intros Hi. apply IH in Hi as [-> Hlt'].
    split; [do 2 f_equal; lia|lia].
Qed.

Lemma _chunks_spec {A} (lst : list A) (size : Z) :
  (1 ≤ size)%Z ->
  exists chunks,
    _chunks lst size = Ok chunks
    ∧ concat chunks = lst
    ∧ Forall (fun c => length c ≤ Z.to_nat size) chunks
    ∧ length chunks = (if decide (lst = []) then 1 else ceil_div (length lst) (Z.to_nat size))
    ∧ (lst = [] -> chunks = [[]]).
Proof.
  intros Hsize. unfold _chunks, range.
  destruct (Z.eqb_spec size 0) as [|_]; [lia|].
  destruct (Z.ltb_spec 0 size) as [_|]; [|lia]. simpl.
  destruct (slices_range_up lst size (Z.to_nat (Z.of_nat (length lst) - 0)) 0 Hsize)
    as (Hcat & Hall & Hlen); [lia|].
  change (Z.of_nat 0) with 0%Z in *. rewrite drop_0, Nat.sub_0_r in *.
  destruct (map _ _) as [|c cs] eqn:Hcs.
  - simpl in Hcat. subst lst. exists [[]]. rewrite decide_True by done.
    repeat split; auto. constructor; [simpl; lia|done].
  - exists (c :: cs). split; [done|]. split; [done|]. split.
    { eapply Forall_impl; [exact Hall|]. simpl. lia. }
    split.
    + rewrite Hlen. case_decide as Hnil; [|done].
      rewrite Hnil in Hlen. cbn [length] in Hlen.
      rewrite ceil_div_0 in Hlen by lia. discriminate.
    + intros Hnil. rewrite Hnil in Hlen. cbn [length] in Hlen.
      rewrite ceil_div_0 in Hlen by lia. discriminate.
Qed.

Lemma elem_of_concat {A} (x : A) (ls : list (list A)) :
  x ∈ concat ls <-> exists l, x ∈ l ∧ l ∈ ls.
Proof.
  induction ls as [|l ls IH]; simpl.
  - split; [by intros ?%elem_of_nil|]. by intros (? & _ & ?%elem_of_nil).
  - rewrite elem_of_app, IH. split.
    + intros [?|(l' & ? & ?)]; [exists l|exists l']; split; try done; by constructor.
    + intros (l' & ? & [->|?]%elem_of_cons); eauto.
Qed.

Lemma traverse_Ok {A B} (f : A -> result B) (l : list A) :
  (forall x, x ∈ l -> exists y, f x = Ok y) ->
  exists ys, traverse f l = Ok ys ∧ Forall2 (fun x y => f x = Ok y) l ys.
Proof.
  induction l as [|x l IH]; intros H; [by exists []|].
  destruct (H x) as [y Hy]; [by left|].
  destruct IH as (ys & Hys & Hall); [intros; apply H; by right|].
  exists (y :: ys). simpl. rewrite Hy. simpl. rewrite Hys. simpl. auto.
Qed.

Lemma elem_of_concat_Forall2 {A B} (f : A -> result (list B)) (l : list A)
    (ys : list (list B)) (b : B) :
  Forall2 (fun x y => f x = Ok y) l ys ->
  b ∈ concat ys <-> exists x y, x ∈ l ∧ f x = Ok y ∧ b ∈ y.
Proof.
  induction 1 as [|x y l ys Hxy _ IH]; simpl.
  - split; [by intros ?%elem_of_nil|]. by intros (? & ? & ?%elem_of_nil & _).
  - rewrite elem_of_app, IH. split.
    + intros [Hb|(x' & y' & Hin & Hf & Hb)].
      * exists x, y. split; [by left|done].
      * exists x', y'. split; [by right|done].
    + intros (x' & y' & [->|Hin]%elem_of_cons & Hf & Hb).
      * left. congruence.
      * right. eauto.
Qed.

(** The claim as worded fails: a task with one method edge that no stage
    node points to gets no row at all, not [ceil(1/3) = 1]; the box of
    the cluster in the plan holds its nodes and no row. *)
Lemma row_chunking_needs_stage_edge :
  Roadmap.ensure_consistency sample_method_edge = Ok tt
  ∧ targets_of_type sample_method_edge (lit "T1") NodeType.method
    = [node "M1" NodeType.method "c1"]
  ∧ Stacked.cluster_rows ClusterItem.id sample_method_edge 3 (cluster "c1") = Ok []
  ∧ length (@nil stmt)
    <> ceil_div (length (targets_of_type sample_method_edge (lit "T1") NodeType.method)) 3
  ∧ Stacked.draw_roadmap ClusterItem.id sample_method_edge 3
    = Ok (Stacked.stage_node_stmt (node "S" NodeType.stage_label "c1")
          :: Subgraph (lit "cluster_c1")
               (Attr None [kw "style" "dashed"; kw "color" "#9aa5b1";
                           kv "label" (lit "c1"); kw "labelloc" "t"; kw "labeljust" "l"]
                :: map Stacked.inner_node_stmt
                     [node "T1" NodeType.task "c1"; node "Sub1" NodeType.sub_content "c1";
                      node "M1" NodeType.method "c1"])
          :: map (Stacked.edge_stmt sample_method_edge) (Roadmap.edges sample_method_edge)).
Proof.
  split; [vm_compute; reflexivity|]. split; [vm_compute; reflexivity|].
  split; [vm_compute; reflexivity|]. split; [vm_compute; discriminate|].
  vm_compute. reflexivity.
Qed.

(** *** Totality *)

(** C9, at the failing input: the roadmap is validated and a stage node
    points to a task; with a batch size of zero [draw_roadmap] raises the
    [ValueError] of [range] instead of returning a plan. *)
Theorem draw_roadmap_zero_batch_raises (cluster_str : ClusterItem.t -> str) :
  Roadmap.ensure_consistency sample_stage_edge = Ok tt
  ∧ Stacked.draw_roadmap cluster_str sample_stage_edge 0
    = Raise (ValueError (lit "range() arg 3 must not be zero")).
Proof. split; vm_compute; reflexivity. Qed.

Lemma _chunks_nonzero {A} (lst : list A) (size : Z) :
  size <> 0%Z -> exists chunks, _chunks lst size = Ok chunks.
Proof.
  intros Hsize. unfold _chunks, range.
  destruct (Z.eqb_spec size 0) as [|_]; [done|].
  destruct (0 <? size)%Z; simpl; destruct (map _ _); eauto.
Qed.

(** Away from the zero batch size the stacked planner always returns. *)
Lemma draw_roadmap_total (cluster_str : ClusterItem.t -> str) (r : Roadmap.t) (K : Z) :
  K <> 0%Z -> exists body, Stacked.draw_roadmap cluster_str r K = Ok body.
Proof.
  intros HK. unfold Stacked.draw_roadmap.
  destruct (traverse_Ok (Stacked.draw_cluster cluster_str r K) (Roadmap.clusters r))
    as (cs & -> & _); [|simpl; eauto].
  intros cl _. unfold Stacked.draw_cluster, Stacked.cluster_rows.
  destruct (traverse_Ok (Stacked.stage_rows cluster_str r K cl)
              (Stacked.stage_nodes r (ClusterItem.id cl))) as (ys & -> & _); [|simpl; eauto].
  intros p _. unfold Stacked.stage_rows.
  destruct (traverse_Ok (Stacked.task_rows cluster_str r K cl p)
              (targets_of_type r (NodeItem.id p) NodeType.task)) as (zs & -> & _);
    [|simpl; eauto].
  intros t _. unfold Stacked.task_rows.
  destruct (_chunks_nonzero (targets_of_type r (NodeItem.id t) NodeType.method) K HK)
    as [chunks ->].
  simpl. eauto.
Qed.

(** *** Columns *)

(** Stacked mode: the [group] a node is declared with depends on its type
    alone; both stage types are in group [phase]. *)
Lemma stacked_group_by_type (n : NodeItem.t) :
  (is_stage (NodeItem.type n) = true ->
   exists a, Stacked.stage_node_stmt n = Node (NodeItem.id n) a
             ∧ attr_get "group" a = Some (lit "phase"))
  ∧ (is_stage (NodeItem.type n) = false ->
     exists a, Stacked.inner_node_stmt n = Node (NodeItem.id n) a
               ∧ attr_get "group" a
                 = Some (if decide (NodeItem.type n = NodeType.task)
                         then lit "task" else lit "method")).
Proof.
  split; intros _; eexists; (split; [reflexivity|]).
  - reflexivity.
  - unfold Stacked.inner_node_stmt. case_decide; reflexivity.
Qed.

Lemma elem_of_rank_group (name : string) (ids : list str) (x : str) :
  x ∈ ids ->
  exists body, Column.rank_group name ids = [Subgraph (lit name) body] ∧ Node x [] ∈ body.
Proof.
  intros Hx. destruct ids as [|y ids]; [by apply elem_of_nil in Hx|].
  eexists. split; [reflexivity|]. right.
  apply list_elem_of_fmap. eauto.
Qed.

(** Column mode: a node of one of the four current types is in the global
    rank group of its type. *)
Lemma column_rank_by_type (r : Roadmap.t) (n : NodeItem.t) :
  n ∈ Roadmap.nodes r -> NodeItem.type n <> NodeType.phase ->
  exists body,
    Subgraph (match column_of (NodeItem.type n) with
              | col_stage => lit "rank_stage"
              | col_task => lit "rank_task"
              | col_sub_content => lit "rank_sub"
              | col_method => lit "rank_method"
              end) body ∈ Column.rank_groups r
    ∧ Node (NodeItem.id n) [] ∈ body.
Proof.
  intros Hin Hty. unfold Column.rank_groups.
  assert (forall ty, NodeItem.type n = ty ->
            NodeItem.id n
            ∈ map NodeItem.id (filter (fun m => NodeItem.type m = ty) (Column.nodes r))) as Hid.
  { intros ty Hn. apply list_elem_of_fmap. exists n. split; [done|].
    by apply list_elem_of_filter. }
  destruct (NodeItem.type n) eqn:Hn; [| | | |done]; simpl.
  - destruct (elem_of_rank_group "rank_stage" (Column.all_stages r) (NodeItem.id n))
      as (body & -> & Hb); [by apply Hid|].
    exists body. split; [|done]. rewrite !elem_of_app. left. by left.
  - destruct (elem_of_rank_group "rank_task" (Column.all_tasks r) (NodeItem.id n))
      as (body & -> & Hb); [by apply Hid|].
    exists body. split; [|done]. rewrite !elem_of_app. right. left. by left.
  - destruct (elem_of_rank_group "rank_sub" (Column.all_subs r) (NodeItem.id n))
      as (body & -> & Hb); [by apply Hid|].
    exists body. split; [|done]. rewrite !elem_of_app. right. right. left. by left.
  - destruct (elem_of_rank_group "rank_method" (Column.all_methods r) (NodeItem.id n))
      as (body & -> & Hb); [by apply Hid|].
    exists body. split; [|done]. rewrite !elem_of_app. right. right. right. by left.
Qed.

(** C1, at the failing input: the roadmap is validated, its two stage
    nodes are both drawn as stage nodes, yet the global stage rank group of
    column mode holds only the one typed [stage_label]; the node typed
    [phase] is in no rank group. *)
Theorem phase_left_out_of_stage_rank :
  Roadmap.ensure_consistency sample_phase = Ok tt
  ∧ column_of NodeType.phase = column_of NodeType.stage_label
  ∧ Column.stage_order sample_phase = [lit "P1"; lit "S2"]
  ∧ Column.rank_groups sample_phase
    = [ Subgraph (lit "rank_stage") [Attr None [kw "rank" "same"]; Node (lit "S2") []];
        Subgraph (lit "rank_task") [Attr None [kw "rank" "same"]; Node (lit "T1") []] ].
Proof. repeat split; vm_compute; reflexivity. Qed.

Lemma filter_ext_Forall {A} (P Q : A -> Prop) `{!forall x, Decision (P x)}
    `{!forall x, Decision (Q x)} (l : list A) :
  Forall (fun x => P x <-> Q x) l -> filter P l = filter Q l.
Proof.
  induction 1 as [|x l Hx _ IH]; [done|].
  rewrite !filter_cons, IH. repeat case_decide; tauto.
Qed.

Lemma length_omap_total {A B} (f : A -> option B) (l : list A) :
  Forall (fun x => is_Some (f x)) l -> length (omap f l : list B) = length l.
Proof.
  induction 1 as [|x l [y Hy] _ IH]; [done|].
  cbn [omap list_omap]. rewrite Hy. simpl. now f_equal.
Qed.

Lemma length_consecutive {A} (xs : list A) : length (consecutive xs) = length xs - 1.
Proof.
  unfold consecutive. rewrite length_omap_total, length_seq; [done|].
  apply Forall_forall. intros i Hi%elem_of_seq.
  destruct (lookup_lt_is_Some_2 xs i) as [a ->]; [lia|].
  destruct (lookup_lt_is_Some_2 xs (i + 1)) as [b ->]; [lia|].
  eauto.
Qed.

Lemma head_id_truthy (ns : list NodeItem.t) :
  Forall (fun n => NodeItem.id n <> []) ns ->
  match head (map NodeItem.id ns) with
  | Some n => if truthy n then Some n else None
  | None => None
  end = head (map NodeItem.id ns).
Proof. destruct 1 as [|n ns Hn _]; [done|]. simpl. now destruct (NodeItem.id n). Qed.

Lemma validate_list_Forall2 {A B} (f : A -> result B) (l : list A) (ys : list B) :
  validate_list f l = Ok ys -> Forall2 (fun x y => f x = Ok y) l ys.
Proof.
  revert ys. induction l as [|x l IH]; intros ys; simpl.
  - intros [= <-]. constructor.
  - destruct (f x) as [y|] eqn:Hx, (validate_list f l) as [ys'|]; try done.
    intros [= <-]. constructor; auto.
Qed.

Lemma new_node_id_not_empty (n : RawNode) (n' : NodeItem.t) :
  Roadmap.new_node n = Ok n' -> NodeItem.id n' <> [].
Proof.
  unfold Roadmap.new_node, NodeItem.new, NodeItem.id_not_empty, blank.
  destruct (truthy (rn_id n)); simpl; [|by repeat case_match].
  destruct (strip (rn_id n)) as [|c s] eqn:Hs; simpl; [by repeat case_match|].
  repeat case_match; try done. by intros [= <-].
Qed.

(** Construction leaves no node with an empty id. *)
Lemma new_ids_not_empty title clusters nodes edges (r : Roadmap.t) :
  Roadmap.new title clusters nodes edges = Ok r ->
  Forall (fun n => NodeItem.id n <> []) (Roadmap.nodes r).
Proof.
  unfold Roadmap.new.
  destruct (Roadmap.title_not_empty title); [|by repeat case_match].
  destruct (bind (validate_list Roadmap.new_cluster clusters) _); [|by repeat case_match].
  destruct (validate_list Roadmap.new_node nodes) as [ns|] eqn:Hns; simpl;
    [|by repeat case_match].
  destruct (Roadmap.nodes_non_empty ns) as [ns'|] eqn:Hne; [|by repeat case_match].
  destruct (bind (validate_list Roadmap.new_edge edges) _); [|done].
  intros [= <-]. simpl.
  assert (ns' = ns) as -> by (destruct ns; simpl in Hne; congruence).
  apply validate_list_Forall2 in Hns.
  clear Hne. induction Hns as [|x y l ys Hxy _ IH]; [constructor|].
  constructor; [by eapply new_node_id_not_empty|done].
Qed.

(** The claim as worded fails in stacked mode: the plan of a validated
    roadmap holds its explicit edges and the ordering edges only, none of
    them weighted and none leaving the stage node, whereas column mode
    chains the four columns. *)
Lemma stacked_has_no_column_chain :
  Roadmap.ensure_consistency sample_ok = Ok tt
  ∧ (exists body,
       Stacked.draw_roadmap ClusterItem.id sample_ok 3 = Ok body
       ∧ edges_of body = map (Stacked.edge_stmt sample_ok) (Roadmap.edges sample_ok)
       ∧ Forall (fun s => match s with
                          | Edge a _ at_ => a <> lit "S" ∧ attr_get "weight" at_ = None
                          | _ => True
                          end) (edges_of body))
  ∧ Column.chain_edges sample_ok
    = [ Edge (lit "S") (lit "T1") [kw "style" "invis"; kw "weight" "100"];
        Edge (lit "T1") (lit "Sub1") [kw "style" "invis"; kw "weight" "100"];
        Edge (lit "Sub1") (lit "M1") [kw "style" "invis"; kw "weight" "100"] ].
Proof.
  split; [vm_compute; reflexivity|]. split; [|vm_compute; reflexivity].
  eexists. split; [vm_compute; reflexivity|].
  split; [vm_compute; reflexivity|].
  repeat constructor; simpl; discriminate.
Qed.


(** *** The plan as a whole *)

Lemma traverse_inv {A B} (f : A -> result B) (l : list A) (ys : list B) :
  traverse f l = Ok ys -> Forall2 (fun x y => f x = Ok y) l ys.
Proof.
  revert ys. induction l as [|x l IH]; intros ys; simpl.
  - intros [= <-]. constructor.
  - destruct (f x) as [y|] eqn:Hx; [|done]. simpl.
    destruct (traverse f l) as [ys'|]; [|done]. simpl. intros [= <-].
    constructor; auto.
Qed.

Lemma all_edges_app (l1 l2 : list stmt) : all_edges (l1 ++ l2) = all_edges l1 ++ all_edges l2.
Proof. apply flat_map_app. Qed.

Lemma all_edges_none (l : list stmt) :
  Forall (fun s => stmt_edges s = []) l -> all_edges l = [].
Proof. induction 1 as [|s l Hs _ IH]; [done|]. unfold all_edges in *. simpl. by rewrite Hs, IH. Qed.

Lemma all_edges_only (l : list stmt) :
  Forall (fun s => exists a b at_, s = Edge a b at_) l -> all_edges l = l.
Proof.
  induction 1 as [|s l (a & b & at_ & ->) _ IH]; [done|].
  unfold all_edges in *. simpl. by rewrite IH.
Qed.

Lemma all_edges_adjacency (pairs : gset (str * str)) (ids : list str) :
  all_edges (adjacency_edges pairs ids) = adjacency_edges pairs ids.
Proof.
  apply all_edges_only, Forall_forall. unfold adjacency_edges.
  intros s ([a b] & -> & _)%list_elem_of_fmap. eauto.
Qed.

Lemma all_edges_nodes {A} (f : A -> stmt) (l : list A) :
  (forall x, exists nid at_, f x = Node nid at_) -> all_edges (map f l) = [].
Proof.
  intros Hf. apply all_edges_none, Forall_forall.
  intros s (x & -> & _)%list_elem_of_fmap. by destruct (Hf x) as (nid & at_ & ->).
Qed.

Lemma all_edges_concat (ls : list (list stmt)) :
  all_edges (concat ls) = concat (map all_edges ls).
Proof.
  induction ls as [|l ls IH]; [done|]. simpl. by rewrite all_edges_app, IH.
Qed.

(** With unique ids the table of nodes finds the node that has the id. *)
Lemma nodes_by_id_find (ns : list NodeItem.t) (k : str) :
  NoDup (map NodeItem.id ns) ->
  nodes_by_id ns !! k = List.find (fun n => bool_decide (NodeItem.id n = k)) ns.
Proof.
  intros Hnd. destruct (List.find _ ns) as [n|] eqn:Hf.
  - apply find_some in Hf as [Hin Hk]. apply bool_decide_eq_true in Hk as <-.
    apply nodes_by_id_unique; [done|]. by apply list_elem_of_In.
  - destruct (nodes_by_id ns !! k) as [n|] eqn:Hn; [|done].
    apply nodes_by_id_Some in Hn as [Hin Hk].
    apply list_elem_of_In in Hin. apply (find_none _ _ Hf) in Hin.
    by rewrite bool_decide_eq_true_2 in Hin.
Qed.

Lemma targets_of_type_find (r : Roadmap.t) (src : str) (ty : NodeType.t) :
  NoDup (map NodeItem.id (Roadmap.nodes r)) ->
  targets_of_type r src ty
  = omap (fun e => match List.find (fun n => bool_decide (NodeItem.id n = EdgeItem.target e))
                                   (Roadmap.nodes r) with
                   | Some n => if decide (NodeItem.type n = ty) then Some n else None
                   | None => None
                   end)
         (filter (fun e => EdgeItem.source e = src) (Roadmap.edges r)).
Proof.
  intros Hnd. unfold targets_of_type. rewrite edges_by_source_get.
  induction (filter _ (Roadmap.edges r)) as [|e es IH]; [done|].
  cbn [omap list_omap]. by rewrite IH, nodes_by_id_find.
Qed.

Lemma stage_nodes_source (r : Roadmap.t) (cluster_id : str) :
  NoDup (map NodeItem.id (Roadmap.nodes r)) ->
  Stacked.stage_nodes r cluster_id
  = filter (fun n => NodeItem.parent_cluster n = cluster_id
                     ∧ (NodeItem.type n = NodeType.stage_label
                        ∨ NodeItem.type n = NodeType.phase)) (Roadmap.nodes r)
  ∧ Column.stage_nodes r cluster_id
    = filter (fun n => NodeItem.parent_cluster n = cluster_id
                       ∧ (NodeItem.type n = NodeType.stage_label
                          ∨ NodeItem.type n = NodeType.phase)) (Roadmap.nodes r).
Proof.
  intros Hnd. split.
  - unfold Stacked.stage_nodes. rewrite sorted_filter_nodes by done.
    apply filter_ext_Forall, Forall_forall. intros n _. unfold is_stage.
    destruct (NodeItem.type n); simpl; split; intros [? ?]; split; try done;
      (by left) || (by right) || (by destruct H0).
  - unfold Column.stage_nodes, Column.current_nodes, Column.nodes.
    rewrite sorted_filter_nodes by done. rewrite list_filter_filter.
    apply filter_ext_Forall, Forall_forall. intros n _. simpl. tauto.
Qed.


Lemma _chunks_lookup {A} (lst : list A) (size : Z) (chunks : list (list A)) :
  (1 ≤ size)%Z -> _chunks lst size = Ok chunks ->
  forall i c, chunks !! i = Some c ->
    c = take (Z.to_nat size) (drop (i * Z.to_nat size) lst).
Proof.
  intros Hsize. unfold _chunks, range.
  destruct (Z.eqb_spec size 0) as [|_]; [lia|].
  destruct (Z.ltb_spec 0 size) as [_|]; [|lia]. simpl.
  rewrite Z.sub_0_r, Nat2Z.id.
  destruct (map _ _) as [|c0 cs] eqn:Hcs.
  - intros [= <-] i c Hi. apply list_lookup_singleton_Some in Hi as [-> <-].
    destruct lst as [|x lst]; [by rewrite drop_nil, take_nil|].
    exfalso. simpl in Hcs.
    destruct (Z.ltb_spec 0 (Z.of_nat (S (length lst)))); [done|lia].
  - intros [= <-] i c Hi. rewrite <- Hcs in *. clear Hcs c0 cs.
    by pose proof (slices_range_up_lookup lst size (length lst) 0 i c Hsize Hi) as [-> _].
Qed.

Section stacked_plan.
Variable cluster_str : ClusterItem.t -> str.
Variable r : Roadmap.t.
Variable K : Z.

Lemma stmt_edges_row (cl : ClusterItem.t) (p t : NodeItem.t) (idx : nat)
    (mchunk : list NodeItem.t) :
  stmt_edges (Stacked.row_stmt cluster_str cl p t idx mchunk) = [].
Proof.
  unfold Stacked.row_stmt. cbn [stmt_edges flat_map app].
  apply (all_edges_nodes (fun m => Node (NodeItem.id m) [])). eauto.
Qed.

Lemma task_rows_inv (cl : ClusterItem.t) (p t : NodeItem.t) (rs : list stmt) :
  Stacked.task_rows cluster_str r K cl p t = Ok rs ->
  exists chunks,
    _chunks (targets_of_type r (NodeItem.id t) NodeType.method) K = Ok chunks
    ∧ rs = imap (Stacked.row_stmt cluster_str cl p t) chunks.
Proof.
  unfold Stacked.task_rows. cbv zeta.
  destruct (_chunks _ K) as [chunks|]; [|done]. simpl. intros [= <-]. eauto.
Qed.

Lemma cluster_rows_inv (cl : ClusterItem.t) (rows : list stmt) :
  Stacked.cluster_rows cluster_str r K cl = Ok rows ->
  exists per_stage,
    rows = concat per_stage
    ∧ Forall2 (fun p rows_p =>
                 exists per_task,
                   rows_p = concat per_task
                   ∧ Forall2 (fun t rs => Stacked.task_rows cluster_str r K cl p t = Ok rs)
                             (targets_of_type r (NodeItem.id p) NodeType.task) per_task)
              (Stacked.stage_nodes r (ClusterItem.id cl)) per_stage.
Proof.
  unfold Stacked.cluster_rows.
  destruct (traverse _ (Stacked.stage_nodes r _)) as [per_stage|] eqn:Ht; [|done].
  simpl. intros [= <-]. exists per_stage. split; [done|].
  apply traverse_inv in Ht. eapply Forall2_impl; [exact Ht|].
  intros p rows_p. unfold Stacked.stage_rows. cbv zeta.
  destruct (traverse _ (targets_of_type r _ _)) as [per_task|] eqn:Hp; [|done].
  simpl. intros [= <-]. exists per_task. split; [done|]. by apply traverse_inv.
Qed.

Lemma cluster_rows_no_edges (cl : ClusterItem.t) (rows : list stmt) :
  Stacked.cluster_rows cluster_str r K cl = Ok rows -> all_edges rows = [].
Proof.
  intros (per_stage & -> & Hall)%cluster_rows_inv.
  apply all_edges_none, Forall_forall. intros s (rows_p & Hs & Hin)%elem_of_concat.
  apply list_elem_of_lookup in Hin as [i Hi].
  destruct (Forall2_lookup_r _ _ _ _ _ Hall Hi) as (p & _ & per_task & -> & Hp).
  apply elem_of_concat in Hs as (rs & Hs & Hin).
  apply list_elem_of_lookup in Hin as [j Hj].
  destruct (Forall2_lookup_r _ _ _ _ _ Hp Hj) as (t & _ & Hrs).
  apply task_rows_inv in Hrs as (chunks & _ & ->).
  apply list_elem_of_lookup in Hs as [k Hk].
  apply list_lookup_imap_Some in Hk as (c & _ & ->). apply stmt_edges_row.
Qed.

Lemma draw_cluster_inv (cl : ClusterItem.t) (c : list stmt) :
  Stacked.draw_cluster cluster_str r K cl = Ok c ->
  exists rows,
    Stacked.cluster_rows cluster_str r K cl = Ok rows
    ∧ c = map Stacked.stage_node_stmt (Stacked.stage_nodes r (ClusterItem.id cl))
          ++ Stacked.task_order_edges r (ClusterItem.id cl)
          ++ [Subgraph (lit "cluster_" ++ ClusterItem.id cl)
                (Attr None [kw "style" "dashed"; kw "color" "#9aa5b1";
                            kv "label" (ClusterItem.label cl); kw "labelloc" "t";
                            kw "labeljust" "l"]
                 :: map Stacked.inner_node_stmt
                      (Stacked.cluster_inner_nodes r (ClusterItem.id cl))
                 ++ rows)].
Proof.
  unfold Stacked.draw_cluster. cbv zeta.
  destruct (Stacked.cluster_rows cluster_str r K cl) as [rows|]; [|done].
  simpl. intros [= <-]. eauto.
Qed.

Lemma draw_roadmap_inv (body : list stmt) :
  Stacked.draw_roadmap cluster_str r K = Ok body ->
  exists cs,
    Forall2 (fun cl c => Stacked.draw_cluster cluster_str r K cl = Ok c)
            (Roadmap.clusters r) cs
    ∧ body = concat cs ++ map (Stacked.edge_stmt r) (Roadmap.edges r)
             ++ Stacked.stage_order_edges r.
Proof.
  unfold Stacked.draw_roadmap.
  destruct (traverse _ (Roadmap.clusters r)) as [cs|] eqn:Ht; [|done].
  simpl. intros [= <-]. exists cs. split; [by apply traverse_inv|done].
Qed.

Lemma all_edges_draw_cluster (cl : ClusterItem.t) (c : list stmt) :
  Stacked.draw_cluster cluster_str r K cl = Ok c ->
  all_edges c = Stacked.task_order_edges r (ClusterItem.id cl).
Proof.
  intros (rows & Hrows & ->)%draw_cluster_inv.
  rewrite !all_edges_app.
  rewrite all_edges_nodes by (intros n; unfold Stacked.stage_node_stmt; eauto).
  unfold Stacked.task_order_edges at 1. rewrite all_edges_adjacency.
  assert (all_edges [Subgraph (lit "cluster_" ++ ClusterItem.id cl)
                       (Attr None [kw "style" "dashed"; kw "color" "#9aa5b1";
                                   kv "label" (ClusterItem.label cl); kw "labelloc" "t";
                                   kw "labeljust" "l"]
                        :: map Stacked.inner_node_stmt
                             (Stacked.cluster_inner_nodes r (ClusterItem.id cl))
                        ++ rows)] = []) as ->.
  { unfold all_edges at 1. cbn [flat_map stmt_edges app]. rewrite app_nil_r.
    change (flat_map stmt_edges ?l) with (all_edges l). rewrite all_edges_app.
    rewrite all_edges_nodes by (intros n; unfold Stacked.inner_node_stmt; eauto).
    by rewrite (cluster_rows_no_edges _ _ Hrows). }
  by rewrite app_nil_r.
Qed.

(** The edges of the stacked plan: the ordering edges of the tasks of each
    cluster, the explicit edges and the ordering edges of the stages. *)
Lemma all_edges_draw_roadmap (body : list stmt) :
  Stacked.draw_roadmap cluster_str r K = Ok body ->
  all_edges body
  = concat (map (fun cl => Stacked.task_order_edges r (ClusterItem.id cl))
                (Roadmap.clusters r))
    ++ map (Stacked.edge_stmt r) (Roadmap.edges r)
    ++ Stacked.stage_order_edges r.
Proof.
  intros (cs & Hcs & ->)%draw_roadmap_inv.
  rewrite !all_edges_app, all_edges_concat. f_equal; [|f_equal].
  - f_equal. induction Hcs as [|cl c cls cs Hc _ IH]; [done|].
    simpl. by rewrite IH, (all_edges_draw_cluster _ _ Hc).
  - apply all_edges_only, Forall_forall.
    intros s (e & -> & _)%list_elem_of_fmap. unfold Stacked.edge_stmt. eauto.
  - apply all_edges_adjacency.
Qed.

(** The boxes of the stacked plan, one per cluster. *)
Lemma elem_of_draw_roadmap_Subgraph (body : list stmt) (name : str) (sub : list stmt) :
  Stacked.draw_roadmap cluster_str r K = Ok body ->
  Subgraph name sub ∈ body
  <-> exists cl rows,
        cl ∈ Roadmap.clusters r
        ∧ Stacked.cluster_rows cluster_str r K cl = Ok rows
        ∧ name = lit "cluster_" ++ ClusterItem.id cl
        ∧ sub = Attr None [kw "style" "dashed"; kw "color" "#9aa5b1";
                           kv "label" (ClusterItem.label cl); kw "labelloc" "t";
                           kw "labeljust" "l"]
                :: map Stacked.inner_node_stmt
                     (Stacked.cluster_inner_nodes r (ClusterItem.id cl))
                ++ rows.
Proof.
  intros (cs & Hcs & ->)%draw_roadmap_inv.
  rewrite !elem_of_app, (elem_of_concat_Forall2 _ _ _ _ Hcs). split.
  - intros [(cl & c & Hcl & Hc & Hin)|[Hin|Hin]].
    + apply draw_cluster_inv in Hc as (rows & Hrows & ->).
      rewrite !elem_of_app in Hin. destruct Hin as [Hin|[Hin|Hin]].
      * apply list_elem_of_fmap in Hin as (n & Hn & _). discriminate.
      * unfold Stacked.task_order_edges, adjacency_edges in Hin.
        apply list_elem_of_fmap in Hin as ([a b] & Hn & _). discriminate.
      * apply list_elem_of_singleton in Hin. injection Hin as -> ->.
        exists cl, rows. done.
    + apply list_elem_of_fmap in Hin as (e & He & _). discriminate.
    + unfold Stacked.stage_order_edges, adjacency_edges in Hin.
      apply list_elem_of_fmap in Hin as ([a b] & Hn & _). discriminate.
  - intros (cl & rows & Hcl & Hrows & -> & ->). left.
    exists cl. eexists. split; [done|]. split.
    + unfold Stacked.draw_cluster. cbv zeta. rewrite Hrows. reflexivity.
    + rewrite !elem_of_app. right. right. by apply list_elem_of_singleton.
Qed.
End stacked_plan.

(** The edges of the column plan: the ordering edges of the tasks of each
    cluster, the explicit edges, the chain and the ordering edges of the
    stages. *)
Lemma all_edges_generate (r : Roadmap.t) (fontname : str) :
  all_edges (Column.generate_beautiful_roadmap r fontname)
  = concat (map (fun cl => Column.task_order_edges r (ClusterItem.id cl))
                (Roadmap.clusters r))
    ++ map (Column.edge_stmt r) (Roadmap.edges r)
    ++ Column.chain_edges r
    ++ Column.stage_order_edges r.
Proof.
  unfold Column.generate_beautiful_roadmap. rewrite !all_edges_app.
  assert (all_edges (Column.header fontname) = []) as -> by reflexivity.
  assert (all_edges (Column.rank_groups r) = []) as ->.
  { unfold Column.rank_groups. rewrite !all_edges_app.
    assert (forall name ids, all_edges (Column.rank_group name ids) = []) as Hg.
    { intros name [|x ids]; [done|]. unfold Column.rank_group, all_edges.
      cbn [flat_map stmt_edges app]. rewrite app_nil_r.
      apply (all_edges_nodes (fun nid => Node nid []) (x :: ids)). eauto. }
    by rewrite !Hg. }
  cbn [app]. f_equal; [|f_equal; [|f_equal]].
  - rewrite all_edges_concat. unfold Column.clusters. f_equal.
    induction (Roadmap.clusters r) as [|cl cls IH]; [done|].
    cbn [map]. rewrite IH. f_equal. unfold Column.draw_cluster. cbv zeta.
    rewrite !all_edges_app.
    rewrite all_edges_nodes by (intros n; unfold Column.stage_node_stmt; eauto).
    unfold Column.task_order_edges at 1. rewrite all_edges_adjacency.
    unfold all_edges at 1. cbn [flat_map stmt_edges app].
    change (flat_map stmt_edges ?l) with (all_edges l). rewrite !all_edges_app.
    rewrite !all_edges_nodes
      by (intros n; unfold Column.task_node_stmt, Column.sub_node_stmt,
                      Column.method_node_stmt; eauto).
    by rewrite !app_nil_r.
  - apply all_edges_only, Forall_forall.
    intros s (e & -> & _)%list_elem_of_fmap. unfold Column.edge_stmt. eauto.
  - apply all_edges_only, Forall_forall. unfold Column.chain_edges.
    intros s ([a b] & -> & _)%list_elem_of_fmap. eauto.
  - apply all_edges_adjacency.
Qed.

Lemma elem_of_concat_map {A B} (f : A -> list B) (l : list A) (y : B) :
  y ∈ concat (map f l) <-> exists x, x ∈ l ∧ y ∈ f x.
Proof.
  rewrite elem_of_concat. split.
  - intros (ys & Hy & (x & -> & Hx)%list_elem_of_fmap). eauto.
  - intros (x & Hx & Hy). exists (f x). split; [done|]. apply list_elem_of_fmap. eauto.
Qed.



(** C7, as the code has it, on the plan of stacked mode for a roadmap with
    pairwise distinct node ids and a batch size [K ≥ 1]. [draw_roadmap]
    returns a plan whose subgraphs are the boxes of the clusters, one per
    cluster; a box holds its attributes, its nodes and then its rows.
    The rows of a cluster are those of its stage nodes in source order;
    the rows of a stage node [p] are those of the task targets of the
    explicit edges leaving [p], in edge order, an edge given twice
    counting twice; the rows of such a pair [(p, t)] cut the [M] method
    targets of the edges leaving [t], in edge order, into [ceil(M / K)]
    rows (one row when [M = 0]): row [i] holds the zero-size invisible
    proxy of the stage group, the task and the methods
    [i * K, ..., i * K + K - 1], at most [K] of them. *)
Theorem row_chunking (cluster_str : ClusterItem.t -> str) (r : Roadmap.t) (K : Z) :
  (1 ≤ K)%Z ->
  NoDup (map NodeItem.id (Roadmap.nodes r)) ->
  let k := Z.to_nat K in
  let targets (src : NodeItem.t) (ty : NodeType.t) : list NodeItem.t :=
    omap (fun e => match List.find (fun n => bool_decide (NodeItem.id n = EdgeItem.target e))
                                   (Roadmap.nodes r) with
                   | Some n => if decide (NodeItem.type n = ty) then Some n else None
                   | None => None
                   end)
         (filter (fun e => EdgeItem.source e = NodeItem.id src) (Roadmap.edges r)) in
  let stages_of (cl : ClusterItem.t) : list NodeItem.t :=
    filter (fun n => NodeItem.parent_cluster n = ClusterItem.id cl
                     ∧ (NodeItem.type n = NodeType.stage_label
                        ∨ NodeItem.type n = NodeType.phase)) (Roadmap.nodes r) in
  let row (cl : ClusterItem.t) (p t : NodeItem.t) (idx : nat) (mchunk : list NodeItem.t) :=
    Subgraph (Stacked.row_name cluster_str cl p t idx)
      (Attr None [kw "rank" "same"]
       :: Node (Stacked.proxy_id p t idx)
            [kw "label" ""; kw "shape" "box"; kw "style" "invis"; kw "width" "0";
             kw "height" "0"; kw "group" "phase"]
       :: Node (NodeItem.id t) []
       :: map (fun m => Node (NodeItem.id m) []) mchunk) in
  let rows_of (cl : ClusterItem.t) (p t : NodeItem.t) (rs : list stmt) :=
    exists chunks,
      rs = imap (row cl p t) chunks
      ∧ concat chunks = targets t NodeType.method
      ∧ length chunks
        = (if decide (targets t NodeType.method = []) then 1
           else ceil_div (length (targets t NodeType.method)) k)
      ∧ (forall i c, chunks !! i = Some c ->
           c = take k (drop (i * k) (targets t NodeType.method)) ∧ length c ≤ k) in
  let cluster_rows_are (cl : ClusterItem.t) (rows : list stmt) :=
    exists per_stage,
      rows = concat per_stage
      ∧ Forall2 (fun p rows_p =>
                   exists per_task,
                     rows_p = concat per_task
                     ∧ Forall2 (rows_of cl p) (targets p NodeType.task) per_task)
                (stages_of cl) per_stage in
  let box_of (cl : ClusterItem.t) (name : str) (sub : list stmt) :=
    exists at_ inner rows,
      name = lit "cluster_" ++ ClusterItem.id cl
      ∧ sub = Attr None at_ :: inner ++ rows
      ∧ Forall (fun s => exists nid a, s = Node nid a) inner
      ∧ cluster_rows_are cl rows in
  exists body,
    Stacked.draw_roadmap cluster_str r K = Ok body
    ∧ (forall cl, cl ∈ Roadmap.clusters r ->
                  exists name sub, Subgraph name sub ∈ body ∧ box_of cl name sub)
    ∧ (forall name sub, Subgraph name sub ∈ body ->
                        exists cl, cl ∈ Roadmap.clusters r ∧ box_of cl name sub).
Proof.
  intros HK Hnd k targets stages_of row rows_of cluster_rows_are box_of.
  destruct (draw_roadmap_total cluster_str r K) as [body Hbody]; [lia|].
  assert (forall src ty, targets_of_type r (NodeItem.id src) ty = targets src ty) as Htg.
  { intros src ty. by apply targets_of_type_find. }
  assert (forall cl p t rs,
            Stacked.task_rows cluster_str r K cl p t = Ok rs -> rows_of cl p t rs) as Htask.
  { intros cl p t rs (chunks & Hchunks & ->)%task_rows_inv. exists chunks.
    destruct (_chunks_spec (targets_of_type r (NodeItem.id t) NodeType.method) K HK)
      as (chunks' & Hc' & Hcat & Hall & Hlen & _).
    rewrite Hchunks in Hc'. injection Hc' as <-. rewrite Htg in *.
    split; [done|]. split; [done|]. split; [done|].
    intros i c Hi. split.
    - by apply (_chunks_lookup _ _ _ HK Hchunks).
    - rewrite Forall_forall in Hall. apply Hall. by eapply list_elem_of_lookup_2. }
  assert (forall cl rows,
            Stacked.cluster_rows cluster_str r K cl = Ok rows -> cluster_rows_are cl rows)
    as Hcluster.
  { intros cl rows (per_stage & -> & Hall)%cluster_rows_inv.
    exists per_stage. split; [done|].
    rewrite (proj1 (stage_nodes_source r (ClusterItem.id cl) Hnd)) in Hall.
    eapply Forall2_impl; [exact Hall|].
    intros p rows_p (per_task & -> & Hp). exists per_task. split; [done|].
    rewrite Htg in Hp. eapply Forall2_impl; [exact Hp|]. intros t rs. apply Htask. }
  assert (forall cl rows,
            Stacked.cluster_rows cluster_str r K cl = Ok rows ->
            box_of cl (lit "cluster_" ++ ClusterItem.id cl)
              (Attr None [kw "style" "dashed"; kw "color" "#9aa5b1";
                          kv "label" (ClusterItem.label cl); kw "labelloc" "t";
                          kw "labeljust" "l"]
               :: map Stacked.inner_node_stmt
                    (Stacked.cluster_inner_nodes r (ClusterItem.id cl))
               ++ rows)) as Hbox.
  { intros cl rows Hrows. eexists _, _, rows. split; [done|]. split; [done|].
    split; [|by apply Hcluster].
    apply Forall_forall. intros s (n & -> & _)%list_elem_of_fmap.
    unfold Stacked.inner_node_stmt. eauto. }
  exists body. split; [done|]. split.
  - intros cl Hcl.
    assert (exists rows, Stacked.cluster_rows cluster_str r K cl = Ok rows) as [rows Hrows].
    { apply draw_roadmap_inv in Hbody as (cs & Hcs & _).
      apply list_elem_of_lookup in Hcl as [i Hi].
      destruct (Forall2_lookup_l _ _ _ _ _ Hcs Hi) as (c & _ & Hc).
      apply draw_cluster_inv in Hc as (rows & Hrows & _). eauto. }
    eexists _, _. split; [|by apply (Hbox cl rows)].
    apply (elem_of_draw_roadmap_Subgraph _ _ _ _ _ _ Hbody). exists cl, rows. done.
  - intros name sub Hin.
    apply (elem_of_draw_roadmap_Subgraph _ _ _ _ _ _ Hbody) in Hin
      as (cl & rows & Hcl & Hrows & -> & ->).
    exists cl. split; [done|]. by apply Hbox.
Qed.

Lemma Ok_inj {A} (x y : A) : Ok x = Ok y -> x = y.
Proof. by intros [= ->]. Qed.

Lemma row_chunking_witness :
  exists body at_ inner,
    Stacked.draw_roadmap ClusterItem.id sample_rows 2 = Ok body
    ∧ Subgraph (lit "cluster_c1")
        (Attr None at_ :: inner
         ++ [Stacked.row_stmt ClusterItem.id (cluster "c1")
               (node "S" NodeType.stage_label "c1") (node "T1" NodeType.task "c1") 0
               [node "M1" NodeType.method "c1"; node "M2" NodeType.method "c1"];
             Stacked.row_stmt ClusterItem.id (cluster "c1")
               (node "S" NodeType.stage_label "c1") (node "T1" NodeType.task "c1") 1
               [node "M3" NodeType.method "c1"];
             Stacked.row_stmt ClusterItem.id (cluster "c1")
               (node "S" NodeType.stage_label "c1") (node "T2" NodeType.task "c1") 0
               []])
      ∈ body.
Proof.
  destruct (row_chunking ClusterItem.id sample_rows 2) as (body & Hbody & _ & _);
    [lia|by_evaluation|].
  exists body, [kw "style" "dashed"; kw "color" "#9aa5b1"; kv "label" (lit "c1");
                kw "labelloc" "t"; kw "labeljust" "l"],
    (map Stacked.inner_node_stmt (Stacked.cluster_inner_nodes sample_rows (lit "c1"))).
  split; [exact Hbody|].
  assert (Stacked.draw_roadmap ClusterItem.id sample_rows 2
          = Ok (map Stacked.stage_node_stmt (Stacked.stage_nodes sample_rows (lit "c1"))
                ++ Stacked.task_order_edges sample_rows (lit "c1")
                ++ [Subgraph (lit "cluster_c1")
                      (Attr None [kw "style" "dashed"; kw "color" "#9aa5b1";
                                  kv "label" (lit "c1"); kw "labelloc" "t";
                                  kw "labeljust" "l"]
                       :: map Stacked.inner_node_stmt
                            (Stacked.cluster_inner_nodes sample_rows (lit "c1"))
                       ++ [Stacked.row_stmt ClusterItem.id (cluster "c1")
                             (node "S" NodeType.stage_label "c1")
                             (node "T1" NodeType.task "c1") 0
                             [node "M1" NodeType.method "c1";
                              node "M2" NodeType.method "c1"];
                           Stacked.row_stmt ClusterItem.id (cluster "c1")
                             (node "S" NodeType.stage_label "c1")
                             (node "T1" NodeType.task "c1") 1
                             [node "M3" NodeType.method "c1"];
                           Stacked.row_stmt ClusterItem.id (cluster "c1")
                             (node "S" NodeType.stage_label "c1")
                             (node "T2" NodeType.task "c1") 0 []])]
                ++ map (Stacked.edge_stmt sample_rows) (Roadmap.edges sample_rows)
                ++ Stacked.stage_order_edges sample_rows)) as E
    by (vm_compute; reflexivity).
  rewrite E in Hbody. apply Ok_inj in Hbody as <-.
  rewrite !elem_of_app. right. right. left. by apply list_elem_of_singleton.
Defined.

Lemma stacked_edge_weight (r : Roadmap.t) (e : EdgeItem.t) :
  exists at_, Stacked.edge_stmt r e = Edge (EdgeItem.source e) (EdgeItem.target e) at_
              ∧ attr_get "weight" at_ = None.
Proof.
  unfold Stacked.edge_stmt, Stacked.edge_attrs. cbv zeta. eexists. split; [reflexivity|].
  repeat case_match; reflexivity.
Qed.

Lemma column_edge_weight (r : Roadmap.t) (e : EdgeItem.t) :
  exists at_, Column.edge_stmt r e = Edge (EdgeItem.source e) (EdgeItem.target e) at_
              ∧ attr_get "weight" at_ = None.
Proof.
  unfold Column.edge_stmt, Column.edge_attrs. cbv zeta. eexists. split; [reflexivity|].
  destruct (EdgeItem.label e); repeat case_match; reflexivity.
Qed.

Lemma adjacency_edges_attrs (pairs : gset (str * str)) (ids : list str) (a b : str)
    (at_ : attrs) :
  Edge a b at_ ∈ adjacency_edges pairs ids ->
  at_ = [kw "style" "solid"; kw "arrowhead" "normal"].
Proof.
  unfold adjacency_edges. by intros ([a' b'] & [= -> -> ->] & _)%list_elem_of_fmap.
Qed.

(** C8, as the code has it. Column mode, on a roadmap whose node ids are
    not empty and that has no node of the legacy type [phase]: the first
    node of each non-empty column, in the order stage, task, sub-content,
    method, forms a chain; every two neighbours of the chain are joined by
    an invisible edge of weight 100, these edges are part of the plan and
    the plan has no other weighted edge. Stacked mode, on every roadmap:
    no edge of the plan carries a weight; every edge is a solid ordering
    edge or stands for an explicit edge. *)
Theorem column_chain (r : Roadmap.t) (fontname : str) :
  let reps :=
    omap (fun col => head (map NodeItem.id
                             (filter (fun n => column_of (NodeItem.type n) = col)
                                     (Roadmap.nodes r))))
         [col_stage; col_task; col_sub_content; col_method] in
  (Forall (fun n => NodeItem.id n <> []) (Roadmap.nodes r) ->
   Forall (fun n => NodeItem.type n <> NodeType.phase) (Roadmap.nodes r) ->
   Column.chain r = reps
   ∧ Column.chain_edges r
     = map (fun '(a, b) => Edge a b [kw "style" "invis"; kw "weight" "100"])
           (consecutive (Column.chain r))
   ∧ length (Column.chain_edges r) = length (Column.chain r) - 1
   ∧ (forall s, s ∈ Column.chain_edges r ->
                s ∈ Column.generate_beautiful_roadmap r fontname)
   ∧ (forall a b,
        Edge a b [kw "style" "invis"; kw "weight" "100"]
        ∈ all_edges (Column.generate_beautiful_roadmap r fontname)
        <-> (a, b) ∈ consecutive reps)
   ∧ (forall a b at_,
        Edge a b at_ ∈ all_edges (Column.generate_beautiful_roadmap r fontname) ->
        attr_get "weight" at_ <> None ->
        at_ = [kw "style" "invis"; kw "weight" "100"]))
  ∧ (forall (cluster_str : ClusterItem.t -> str) (K : Z),
       (K <> 0%Z -> exists body, Stacked.draw_roadmap cluster_str r K = Ok body)
       ∧ (forall body a b at_,
            Stacked.draw_roadmap cluster_str r K = Ok body ->
            Edge a b at_ ∈ all_edges body ->
            attr_get "weight" at_ = None
            ∧ (at_ = [kw "style" "solid"; kw "arrowhead" "normal"]
               ∨ exists e, e ∈ Roadmap.edges r
                           ∧ EdgeItem.source e = a ∧ EdgeItem.target e = b))).
Proof.
  intros reps. split.
  - intros Hid Hph.
    assert (Column.chain r = reps) as Hchain.
    { unfold Column.chain, Column.all_stages, Column.all_tasks, Column.all_subs,
        Column.all_methods, Column.nodes.
      assert (forall ty col,
                ty <> NodeType.phase ->
                (forall ty', ty' <> NodeType.phase -> column_of ty' = col <-> ty' = ty) ->
                filter (fun n => NodeItem.type n = ty) (Roadmap.nodes r)
                = filter (fun n => column_of (NodeItem.type n) = col) (Roadmap.nodes r))
        as Hf.
      { intros ty col _ Hcol. apply filter_ext_Forall.
        eapply Forall_impl; [exact Hph|]. intros n Hn. simpl. now rewrite Hcol. }
      rewrite (Hf NodeType.stage_label col_stage), (Hf NodeType.task col_task),
        (Hf NodeType.sub_content col_sub_content), (Hf NodeType.method col_method);
        try done; try (intros [] ?; simpl; split; congruence).
      cbn [omap list_omap].
      rewrite !head_id_truthy by (apply Forall_forall; intros n [_ Hn]%list_elem_of_filter;
                                  rewrite Forall_forall in Hid; auto).
      reflexivity. }
    split; [exact Hchain|]. split; [reflexivity|]. split.
    { unfold Column.chain_edges. now rewrite length_map, length_consecutive. }
    split.
    { intros s Hs. unfold Column.generate_beautiful_roadmap.
      rewrite !elem_of_app. tauto. }
    split.
    + intros a b. rewrite all_edges_generate, !elem_of_app, elem_of_concat_map.
      rewrite <- Hchain. split.
      * intros [(cl & _ & Hin)|[Hin|[Hin|Hin]]].
        -- by apply adjacency_edges_attrs in Hin.
        -- apply list_elem_of_fmap in Hin as (e & He & _).
           destruct (column_edge_weight r e) as (at_ & Hat & Hw).
           rewrite Hat in He. injection He as _ _ <-. discriminate.
        -- unfold Column.chain_edges in Hin.
           by apply list_elem_of_fmap in Hin as ([a' b'] & [= -> ->] & Hin).
        -- by apply adjacency_edges_attrs in Hin.
      * intros Hin. right. right. left. unfold Column.chain_edges.
        apply list_elem_of_fmap. by exists (a, b).
    + intros a b at_. rewrite all_edges_generate, !elem_of_app, elem_of_concat_map.
      intros [(cl & _ & Hin)|[Hin|[Hin|Hin]]] Hw.
      * apply adjacency_edges_attrs in Hin as ->. by destruct Hw.
      * apply list_elem_of_fmap in Hin as (e & He & _).
        destruct (column_edge_weight r e) as (at' & Hat & Hw').
        rewrite Hat in He. injection He as _ _ ->. done.
      * unfold Column.chain_edges in Hin.
        by apply list_elem_of_fmap in Hin as ([a' b'] & [= _ _ ->] & Hin).
      * apply adjacency_edges_attrs in Hin as ->. by destruct Hw.
  - intros cluster_str K. split; [apply draw_roadmap_total|].
    intros body a b at_ Hbody. rewrite (all_edges_draw_roadmap _ _ _ _ Hbody).
    rewrite !elem_of_app, elem_of_concat_map.
    intros [(cl & _ & Hin)|[Hin|Hin]].
    + apply adjacency_edges_attrs in Hin as ->. split; [done|by left].
    + apply list_elem_of_fmap in Hin as (e & He & Hin).
      destruct (stacked_edge_weight r e) as (at' & Hat & Hw').
      rewrite Hat in He. injection He as -> -> ->. split; [done|]. right. eauto.
    + apply adjacency_edges_attrs in Hin as ->. split; [done|by left].
Qed.

Lemma column_chain_witness :
  Column.chain sample_ok = [lit "S"; lit "T1"; lit "Sub1"; lit "M1"]
  ∧ length (Column.chain_edges sample_ok) = 3
  ∧ Edge (lit "T1") (lit "Sub1") [kw "style" "invis"; kw "weight" "100"]
    ∈ all_edges (Column.generate_beautiful_roadmap sample_ok (lit "SimSun")).
Proof.
  destruct (column_chain sample_ok (lit "SimSun")) as [Hcol _].
  destruct Hcol as (Hc & _ & Hl & _ & Hin & _).
  - by_evaluation.
  - by_evaluation.
  - split; [|split].
    + rewrite Hc. vm_compute. reflexivity.
    + rewrite Hl, Hc. vm_compute. reflexivity.
    + apply Hin. apply elem_of_consecutive. exists 1. split; reflexivity.
Defined.

(** * Further properties of the graph model *)

Set Warnings "-clear-no-such-hyp".

(** ** Stripping *)

Lemma lstrip_split (s : str) :
  exists pre, s = pre ++ lstrip s ∧ Forall (fun c => is_space c = true) pre.
Proof.
  induction s as [|c s (pre & Hs & Hpre)]; [by exists []|].
  simpl. destruct (is_space c) eqn:Hc.
  - exists (c :: pre). split; [simpl; congruence|by constructor].
  - by exists [].
Qed.

Lemma lstrip_head (s : str) (c : char) (t : str) :
  lstrip s = c :: t -> is_space c = false.
Proof.
  induction s as [|d s IH]; [done|]. simpl.
  destruct (is_space d) eqn:Hd; [done|]. by intros [= -> _].
Qed.

Lemma lstrip_fixed (s : str) :
  match s with [] => True | c :: _ => is_space c = false end -> lstrip s = s.
Proof. destruct s as [|c s]; [done|]. simpl. by intros ->. Qed.

Lemma rstrip_split (s : str) :
  exists post, s = rstrip s ++ post ∧ Forall (fun c => is_space c = true) post.
Proof.
  unfold rstrip. destruct (lstrip_split (reverse s)) as (pre & Hs & Hpre).
  exists (reverse pre). split.
  - rewrite <- reverse_app, <- Hs. by rewrite reverse_involutive.
  - by apply Forall_reverse.
Qed.

Lemma rstrip_last (s t : str) (c : char) : rstrip s = t ++ [c] -> is_space c = false.
Proof.
  unfold rstrip. intros H. apply (f_equal reverse) in H.
  rewrite reverse_involutive, reverse_snoc in H. by eapply lstrip_head.
Qed.

Lemma rstrip_fixed (s : str) (c : char) :
  is_space c = false -> rstrip (s ++ [c]) = s ++ [c].
Proof. apply rstrip_keep. Qed.

(** A stripped string neither starts nor ends with whitespace. *)
Lemma strip_clean (s : str) :
  match strip s with
  | [] => True
  | c :: _ => is_space c = false
  end
  ∧ match reverse (strip s) with
    | [] => True
    | c :: _ => is_space c = false
    end.
Proof.
  unfold strip. split.
  - destruct (rstrip_split (lstrip s)) as (post & Hs & _).
    destruct (rstrip (lstrip s)) as [|c t] eqn:Hr; [done|].
    rewrite Hs in *. simpl in Hs. by eapply lstrip_head.
  - destruct (rstrip (lstrip s)) as [|c t] eqn:Hr using rev_ind; [done|].
    rewrite reverse_snoc. by eapply rstrip_last.
Qed.

(** Stripping what is clean at both ends changes nothing. *)
Lemma strip_fixed (s : str) :
  match s with [] => True | c :: _ => is_space c = false end ->
  match reverse s with [] => True | c :: _ => is_space c = false end ->
  strip s = s.
Proof.
  intros Hh Hl. unfold strip. rewrite lstrip_fixed by done.
  destruct s as [|c t] using rev_ind; [done|].
  rewrite reverse_snoc in Hl. by apply rstrip_keep.
Qed.

Lemma strip_idemp (s : str) : strip (strip s) = strip s.
Proof. destruct (strip_clean s). by apply strip_fixed. Qed.

Lemma blank_false (v : str) : blank v = false <-> strip v <> [].
Proof.
  unfold blank. destruct v as [|c v]; [by vm_compute|]. simpl.
  destruct (strip (c :: v)); simpl; split; congruence.
Qed.

Lemma blank_strip (v : str) : blank (strip v) = blank v.
Proof.
  destruct (blank v) eqn:Hb.
  - unfold blank in *. rewrite strip_idemp.
    destruct v as [|c v]; [done|]. simpl in Hb.
    destruct (strip (c :: v)); [done|discriminate].
  - apply blank_false. rewrite strip_idemp. by apply blank_false.
Qed.

(** ** Construction *)

Lemma of_value_Ok (v : str) (ty : NodeType.t) :
  NodeType.of_value v = Ok ty <-> v = NodeType.value ty.
Proof.
  unfold NodeType.of_value. split.
  - repeat case_decide; intros [= <-]; done.
  - intros ->. by destruct ty.
Qed.

Lemma validator_Ok (msg v w : str) :
  (if blank v then Raise (ValueError msg) else Ok (strip v)) = Ok w
  <-> blank v = false ∧ w = strip v.
Proof. destruct (blank v); split; (intros [= <-] || intros [? ->]); done. Qed.

Lemma ClusterItem_new_Ok (id label : str) (c : ClusterItem.t) :
  ClusterItem.new id label = Ok c
  <-> blank id = false ∧ blank label = false ∧ c = ClusterItem.mk (strip id) (strip label).
Proof.
  unfold ClusterItem.new, ClusterItem.not_empty.
  destruct (blank id), (blank label); simpl; split;
    (intros [= <-] || intros (? & ? & ->)); done.
Qed.

Lemma NodeItem_new_Ok (id label type parent_cluster : str) (n : NodeItem.t) :
  NodeItem.new id label type parent_cluster = Ok n
  <-> blank id = false ∧ blank label = false ∧ blank parent_cluster = false
      ∧ exists ty, type = NodeType.value ty
                   ∧ n = NodeItem.mk (strip id) (strip label) ty (strip parent_cluster).
Proof.
  unfold NodeItem.new, NodeItem.id_not_empty, NodeItem.label_not_empty,
    NodeItem.cluster_not_empty.
  destruct (NodeType.of_value type) as [ty|e] eqn:Hty.
  - apply of_value_Ok in Hty as ->.
    destruct (blank id), (blank label), (blank parent_cluster); simpl; split;
      try (intros [= <-]); try (intros (? & ? & ? & ty' & Hty' & ->)); try done.
    + repeat split; eauto.
    + assert (ty' = ty) as -> by (destruct ty, ty'; done || by vm_compute in Hty'). done.
  - split.
    + destruct (blank id), (blank label), (blank parent_cluster); simpl; by destruct e.
    + intros (_ & _ & _ & ty & -> & _).
      assert (NodeType.of_value (NodeType.value ty) = Ok ty) as E by by apply of_value_Ok.
      congruence.
Qed.

Lemma EdgeItem_new_Ok (source target : str) (label : option (option str)) (e : EdgeItem.t) :
  EdgeItem.new source target label = Ok e
  <-> blank source = false ∧ blank target = false
      ∧ e = EdgeItem.mk (strip source) (strip target) (default (Some []) label).
Proof.
  unfold EdgeItem.new, EdgeItem.endpoint_not_empty.
  destruct (blank source), (blank target); simpl; split;
    (intros [= <-] || intros (? & ? & ->)); done.
Qed.

Lemma validate_list_iff {A B} (f : A -> result B) (l : list A) (ys : list B) :
  validate_list f l = Ok ys <-> Forall2 (fun x y => f x = Ok y) l ys.
Proof.
  split; [apply validate_list_Forall2|].
  induction 1 as [|x y l ys Hxy _ IH]; [done|]. simpl. by rewrite Hxy, IH.
Qed.

Lemma Roadmap_new_Ok title clusters nodes edges (r : Roadmap.t) :
  Roadmap.new title clusters nodes edges = Ok r
  <-> blank title = false ∧ Roadmap.title r = strip title
      ∧ validate_list Roadmap.new_cluster clusters = Ok (Roadmap.clusters r)
      ∧ Roadmap.clusters r <> []
      ∧ NoDup (map ClusterItem.id (Roadmap.clusters r))
      ∧ validate_list Roadmap.new_node nodes = Ok (Roadmap.nodes r)
      ∧ Roadmap.nodes r <> []
      ∧ validate_list Roadmap.new_edge edges = Ok (Roadmap.edges r).
Proof.
  unfold Roadmap.new, Roadmap.title_not_empty. split.
  - destruct (blank title); [by repeat case_match|].
    destruct (validate_list Roadmap.new_cluster clusters) as [cs|]; simpl;
      [|by repeat case_match].
    destruct (Roadmap.clusters_non_empty cs) as [cs'|] eqn:Hcs; [|by repeat case_match].
    destruct (validate_list Roadmap.new_node nodes) as [ns|]; simpl;
      [|by repeat case_match].
    destruct (Roadmap.nodes_non_empty ns) as [ns'|] eqn:Hns; [|by repeat case_match].
    destruct (validate_list Roadmap.new_edge edges) as [es|]; simpl; [|done].
    intros [= <-]. simpl.
    unfold Roadmap.clusters_non_empty in Hcs. destruct cs as [|c cs]; [done|].
    destruct (not_unique _) eqn:Hu; [done|]. injection Hcs as <-.
    apply not_unique_false in Hu.
    destruct ns as [|n ns]; [done|]. injection Hns as <-.
    repeat split; try done. by destruct es.
  - destruct r as [t cs ns es]. simpl.
    intros (-> & -> & -> & Hcs & Hnd & -> & Hns & ->). simpl.
    unfold Roadmap.clusters_non_empty. destruct cs as [|c cs]; [done|].
    apply not_unique_false in Hnd. rewrite Hnd.
    destruct ns as [|n ns]; [done|]. simpl. by destruct es.
Qed.

(** X1. [ensure_consistency] returns exactly on the roadmaps whose node
    ids are pairwise distinct, whose edges all join node ids and whose
    nodes all name a declared cluster. *)
Theorem ensure_consistency_iff (r : Roadmap.t) :
  Roadmap.ensure_consistency r = Ok tt <->
  NoDup (map NodeItem.id (Roadmap.nodes r))
  ∧ (forall e, e ∈ Roadmap.edges r ->
       EdgeItem.source e ∈ map NodeItem.id (Roadmap.nodes r)
       ∧ EdgeItem.target e ∈ map NodeItem.id (Roadmap.nodes r))
  ∧ (forall n, n ∈ Roadmap.nodes r ->
       NodeItem.parent_cluster n ∈ map ClusterItem.id (Roadmap.clusters r)).
Proof. rewrite ensure_consistency_Ok, !Forall_forall. done. Qed.

Lemma check_edges_first id_set good e rest :
  Forall (fun e => EdgeItem.source e ∈ id_set ∧ EdgeItem.target e ∈ id_set) good ->
  EdgeItem.source e ∉ id_set ∨ EdgeItem.target e ∉ id_set ->
  Roadmap.check_edges id_set (good ++ e :: rest) = Raise (ValueError (Roadmap.msg_dangling e)).
Proof.
  intros Hgood Hbad. induction Hgood as [|g good [Hs Ht] _ IH]; simpl.
  - destruct Hbad as [Hb|Hb].
    + by rewrite (bool_decide_eq_true_2 _ Hb).
    + rewrite (bool_decide_eq_true_2 _ Hb). by rewrite orb_true_r.
  - rewrite !bool_decide_eq_false_2 by (intros Hn; by apply Hn). done.
Qed.

Lemma check_nodes_first cluster_ids good n rest :
  Forall (fun n => NodeItem.parent_cluster n ∈ cluster_ids) good ->
  NodeItem.parent_cluster n ∉ cluster_ids ->
  Roadmap.check_nodes cluster_ids (good ++ n :: rest)
  = Raise (ValueError (Roadmap.msg_undeclared n)).
Proof.
  intros Hgood Hbad. induction Hgood as [|g good Hg _ IH]; simpl.
  - by rewrite (bool_decide_eq_true_2 _ Hbad).
  - rewrite bool_decide_eq_false_2 by (intros Hn; by apply Hn). done.
Qed.

(** X2. The checks of [ensure_consistency] run in a fixed order and stop
    at the first failure: a repeated node id is reported whatever else is
    wrong; with distinct ids the first edge (in edge order) with an
    unknown endpoint is the one named in the message; with all edges
    resolved the first node (in node order) of an undeclared cluster is
    named. *)
Theorem ensure_consistency_first_failure (r : Roadmap.t) :
  let ids := map NodeItem.id (Roadmap.nodes r) in
  let cluster_ids := map ClusterItem.id (Roadmap.clusters r) in
  (¬ NoDup ids -> Roadmap.ensure_consistency r = Raise (ValueError Roadmap.msg_dup))
  ∧ (forall good e rest,
       NoDup ids -> Roadmap.edges r = good ++ e :: rest ->
       Forall (fun e => EdgeItem.source e ∈ ids ∧ EdgeItem.target e ∈ ids) good ->
       EdgeItem.source e ∉ ids ∨ EdgeItem.target e ∉ ids ->
       Roadmap.ensure_consistency r = Raise (ValueError (Roadmap.msg_dangling e)))
  ∧ (forall good n rest,
       NoDup ids ->
       Forall (fun e => EdgeItem.source e ∈ ids ∧ EdgeItem.target e ∈ ids) (Roadmap.edges r) ->
       Roadmap.nodes r = good ++ n :: rest ->
       Forall (fun n => NodeItem.parent_cluster n ∈ cluster_ids) good ->
       NodeItem.parent_cluster n ∉ cluster_ids ->
       Roadmap.ensure_consistency r = Raise (ValueError (Roadmap.msg_undeclared n))).
Proof.
  intros ids cluster_ids. unfold Roadmap.ensure_consistency. fold ids cluster_ids.
  split; [|split].
  - intros Hdup%not_unique_true. by rewrite Hdup.
  - intros good e rest Hnd%not_unique_false Hes Hgood Hbad. rewrite Hnd, Hes.
    rewrite check_edges_first; [done| |by rewrite !not_elem_of_list_to_set].
    eapply Forall_impl; [exact Hgood|]. intros x [? ?]. by rewrite !elem_of_list_to_set.
  - intros good n rest Hnd%not_unique_false Hes Hns Hgood Hbad. rewrite Hnd.
    rewrite check_edges_ok.
    2:{ eapply Forall_impl; [exact Hes|]. intros x [? ?]. by rewrite !elem_of_list_to_set. }
    simpl. rewrite Hns. apply check_nodes_first; [|by rewrite not_elem_of_list_to_set].
    eapply Forall_impl; [exact Hgood|]. intros x ?. by rewrite elem_of_list_to_set.
Qed.

Lemma ensure_consistency_first_failure_witness :
  Roadmap.ensure_consistency sample_duplicate = Raise (ValueError Roadmap.msg_dup)
  ∧ Roadmap.ensure_consistency sample_dangling
    = Raise (ValueError (Roadmap.msg_dangling (edge "T1" "X")))
  ∧ Roadmap.ensure_consistency sample_undeclared
    = Raise (ValueError (Roadmap.msg_undeclared (node "T2" NodeType.task "c2"))).
Proof.
  split; [|split].
  - destruct (ensure_consistency_first_failure sample_duplicate) as (H & _ & _).
    apply H. by_evaluation.
  - destruct (ensure_consistency_first_failure sample_dangling) as (_ & H & _).
    apply (H [] (edge "T1" "X") []); [by_evaluation|reflexivity|constructor|].
    right. by_evaluation.
  - destruct (ensure_consistency_first_failure sample_undeclared) as (_ & _ & H).
    apply (H sample_nodes (node "T2" NodeType.task "c2") []);
      [by_evaluation|constructor|reflexivity|by_evaluation|by_evaluation].
Defined.

Lemma validate_clusters_map (clusters : list RawCluster) (cs : list ClusterItem.t) :
  validate_list Roadmap.new_cluster clusters = Ok cs
  <-> Forall (fun c => blank (rc_id c) = false ∧ blank (rc_label c) = false) clusters
      ∧ cs = map (fun c => ClusterItem.mk (strip (rc_id c)) (strip (rc_label c))) clusters.
Proof.
  rewrite validate_list_iff. split.
  - induction 1 as [|x y l ys Hxy _ [IH ->]]; [done|].
    apply ClusterItem_new_Ok in Hxy as (? & ? & ->). split; [by constructor|done].
  - intros [Hall ->]. induction Hall as [|x l [? ?] _ IH]; constructor; [|done].
    by apply ClusterItem_new_Ok.
Qed.

Lemma validate_edges_map (edges : list RawEdge) (es : list EdgeItem.t) :
  validate_list Roadmap.new_edge edges = Ok es
  <-> Forall (fun e => blank (re_source e) = false ∧ blank (re_target e) = false) edges
      ∧ es = map (fun e => EdgeItem.mk (strip (re_source e)) (strip (re_target e))
                             (default (Some []) (re_label e))) edges.
Proof.
  rewrite validate_list_iff. split.
  - induction 1 as [|x y l ys Hxy _ [IH ->]]; [done|].
    apply EdgeItem_new_Ok in Hxy as (? & ? & ->). split; [by constructor|done].
  - intros [Hall ->]. induction Hall as [|x l [? ?] _ IH]; constructor; [|done].
    by apply EdgeItem_new_Ok.
Qed.

Lemma validate_nodes_Forall (nodes : list RawNode) :
  (exists ns, validate_list Roadmap.new_node nodes = Ok ns)
  <-> Forall (fun n => blank (rn_id n) = false ∧ blank (rn_label n) = false
                       ∧ blank (rn_parent_cluster n) = false
                       ∧ exists ty, rn_type n = NodeType.value ty) nodes.
Proof.
  split.
  - intros [ns Hns%validate_list_iff].
    induction Hns as [|x y l ys Hxy _ IH]; constructor; [|done].
    apply NodeItem_new_Ok in Hxy as (? & ? & ? & ty & ? & _). eauto.
  - induction 1 as [|x l (? & ? & ? & ty & Hty) _ [ns IH]]; [by exists []|].
    exists (NodeItem.mk (strip (rn_id x)) (strip (rn_label x)) ty
                        (strip (rn_parent_cluster x)) :: ns).
    simpl. rewrite IH. unfold Roadmap.new_node.
    rewrite (proj2 (NodeItem_new_Ok _ _ _ _
                      (NodeItem.mk (strip (rn_id x)) (strip (rn_label x)) ty
                                   (strip (rn_parent_cluster x))))); [reflexivity|].
    eauto 10.
Qed.

(** X3. When construction succeeds: [Roadmap(...)] returns exactly when
    the title is not blank, there is at least one cluster and one node,
    every cluster, node and edge dictionary has non-blank text fields, every
    node type is one of the five members, and the cluster ids are pairwise
    distinct once stripped. *)
Theorem Roadmap_new_succeeds_iff title (clusters : list RawCluster)
    (nodes : list RawNode) (edges : list RawEdge) :
  (exists r, Roadmap.new title clusters nodes edges = Ok r)
  <-> blank title = false
      ∧ clusters <> []
      ∧ Forall (fun c => blank (rc_id c) = false ∧ blank (rc_label c) = false) clusters
      ∧ NoDup (map (fun c => strip (rc_id c)) clusters)
      ∧ nodes <> []
      ∧ Forall (fun n => blank (rn_id n) = false ∧ blank (rn_label n) = false
                         ∧ blank (rn_parent_cluster n) = false
                         ∧ exists ty, rn_type n = NodeType.value ty) nodes
      ∧ Forall (fun e => blank (re_source e) = false ∧ blank (re_target e) = false) edges.
Proof.
  split.
  - intros [r (Ht & _ & Hcs & Hcne & Hnd & Hns & Hnne & Hes)%Roadmap_new_Ok].
    apply validate_clusters_map in Hcs as [Hcs Ecs].
    apply validate_edges_map in Hes as [Hes _].
    rewrite Ecs in Hcne, Hnd. rewrite map_map in Hnd. simpl in Hnd.
    repeat split; try done.
    + intros ->. done.
    + intros ->. simpl in Hns. injection Hns as E. congruence.
    + apply validate_nodes_Forall. eauto.
  - intros (Ht & Hcne & Hcs & Hnd & Hnne & Hns & Hes).
    apply validate_nodes_Forall in Hns as [ns Hns].
    eexists (Roadmap.mk (strip title) _ ns _).
    apply Roadmap_new_Ok. simpl.
    split; [done|]. split; [done|].
    split; [apply validate_clusters_map; by split|].
    split; [by destruct clusters|].
    split; [by rewrite map_map|].
    split; [done|].
    split; [|apply validate_edges_map; by split].
    intros ->. destruct nodes; [done|]. simpl in Hns. by repeat case_match.
Qed.

Lemma Roadmap_new_succeeds_iff_witness :
  exists r, Roadmap.new (lit " T ") [raw_c1] [raw_t1; raw_t1'] [] = Ok r.
Proof.
  apply Roadmap_new_succeeds_iff.
  split; [reflexivity|]. split; [done|].
  split; [by_evaluation|]. split; [by_evaluation|]. split; [done|].
  split; [|constructor].
  apply Forall_cons. split.
  { repeat split; try reflexivity. by exists NodeType.task. }
  apply Forall_cons. split; [|constructor].
  repeat split; try reflexivity. by exists NodeType.method.
Defined.

Lemma trimmed_strip (v : str) : blank v = false -> strip v <> [] ∧ strip (strip v) = strip v.
Proof. intros Hb. split; [by apply blank_false|apply strip_idemp]. Qed.

Lemma trimmed_not_blank (v : str) : v <> [] -> strip v = v -> blank v = false.
Proof. intros Hne Hs. apply blank_false. by rewrite Hs. Qed.

Lemma constructed_trimmed title clusters nodes edges (r : Roadmap.t) :
  Roadmap.new title clusters nodes edges = Ok r ->
  (Roadmap.title r <> [] ∧ strip (Roadmap.title r) = Roadmap.title r)
  ∧ Forall (fun c => (ClusterItem.id c <> [] ∧ strip (ClusterItem.id c) = ClusterItem.id c)
                     ∧ (ClusterItem.label c <> []
                        ∧ strip (ClusterItem.label c) = ClusterItem.label c))
           (Roadmap.clusters r)
  ∧ Forall (fun n => (NodeItem.id n <> [] ∧ strip (NodeItem.id n) = NodeItem.id n)
                     ∧ (NodeItem.label n <> [] ∧ strip (NodeItem.label n) = NodeItem.label n)
                     ∧ (NodeItem.parent_cluster n <> []
                        ∧ strip (NodeItem.parent_cluster n) = NodeItem.parent_cluster n))
           (Roadmap.nodes r)
  ∧ Forall (fun e => (EdgeItem.source e <> [] ∧ strip (EdgeItem.source e) = EdgeItem.source e)
                     ∧ (EdgeItem.target e <> []
                        ∧ strip (EdgeItem.target e) = EdgeItem.target e))
           (Roadmap.edges r).
Proof.
  intros (Ht & Etitle & Hcs & _ & _ & Hns & _ & Hes)%Roadmap_new_Ok.
  split; [rewrite Etitle; by apply trimmed_strip|].
  split; [|split].
  - apply validate_list_iff in Hcs.
    induction Hcs as [|x y l ys Hxy _ IH]; constructor; [|done].
    apply ClusterItem_new_Ok in Hxy as (? & ? & ->). simpl.
    split; by apply trimmed_strip.
  - apply validate_list_iff in Hns.
    induction Hns as [|x y l ys Hxy _ IH]; constructor; [|done].
    apply NodeItem_new_Ok in Hxy as (? & ? & ? & ty & _ & ->). simpl.
    repeat split; by apply trimmed_strip.
  - apply validate_list_iff in Hes.
    induction Hes as [|x y l ys Hxy _ IH]; constructor; [|done].
    apply EdgeItem_new_Ok in Hxy as (? & ? & ->). simpl.
    split; by apply trimmed_strip.
Qed.

(** X4. Construction normalises: in a roadmap that [Roadmap(...)]
    returned, the title, every cluster id and label, every node id, label
    and [parent_cluster] and every edge endpoint is non-empty and has no
    whitespace left at either end. *)
Theorem constructed_fields_trimmed title clusters nodes edges (r : Roadmap.t) :
  Roadmap.new title clusters nodes edges = Ok r ->
  let trimmed (v : str) := v <> [] ∧ strip v = v in
  trimmed (Roadmap.title r)
  ∧ (forall c, c ∈ Roadmap.clusters r ->
       trimmed (ClusterItem.id c) ∧ trimmed (ClusterItem.label c))
  ∧ (forall n, n ∈ Roadmap.nodes r ->
       trimmed (NodeItem.id n) ∧ trimmed (NodeItem.label n)
       ∧ trimmed (NodeItem.parent_cluster n))
  ∧ (forall e, e ∈ Roadmap.edges r ->
       trimmed (EdgeItem.source e) ∧ trimmed (EdgeItem.target e)).
Proof.
  intros (Ht & Hcs & Hns & Hes)%constructed_trimmed. cbv zeta.
  rewrite Forall_forall in Hcs. rewrite Forall_forall in Hns.
  rewrite Forall_forall in Hes. auto.
Qed.

Lemma constructed_fields_trimmed_witness :
  exists r, Roadmap.new (lit " T ") [raw_c1] [raw_t1] [] = Ok r
            ∧ strip (Roadmap.title r) = Roadmap.title r.
Proof.
  eexists. split; [vm_compute; reflexivity|].
  eapply (constructed_fields_trimmed (lit " T ") [raw_c1] [raw_t1] []).
  vm_compute. reflexivity.
Defined.

(** X5. Dump and reload: constructing a roadmap again from the dictionary
    of a constructed roadmap succeeds and gives the same roadmap (the
    validators leave validated values alone). *)
Theorem Roadmap_reload_constructed title clusters nodes edges (r : Roadmap.t) :
  Roadmap.new title clusters nodes edges = Ok r -> Roadmap_reload r = Ok r.
Proof.
  intros Hnew. pose proof (constructed_trimmed _ _ _ _ _ Hnew) as ([Ht Et] & Hcs & Hns & Hes).
  apply Roadmap_new_Ok in Hnew as (_ & _ & _ & Hcne & Hnd & _ & Hnne & _).
  unfold Roadmap_reload. apply Roadmap_new_Ok.
  split; [by apply trimmed_not_blank|]. split; [done|].
  split; [|split; [done|split; [done|split; [|split; [done|]]]]].
  - apply validate_list_iff. clear Hcne Hnd.
    induction Hcs as [|c cs [[? Ei] [? El]] _ IH]; constructor; [|done].
    apply ClusterItem_new_Ok. simpl. rewrite Ei, El.
    destruct c. repeat split; by apply trimmed_not_blank.
  - apply validate_list_iff. clear Hnne.
    induction Hns as [|n ns ([? Ei] & [? El] & [? Ep]) _ IH]; constructor; [|done].
    apply NodeItem_new_Ok. simpl. rewrite Ei, El, Ep.
    destruct n. repeat split; try by apply trimmed_not_blank. eauto.
  - apply validate_list_iff.
    induction Hes as [|e es [[? Es] [? Et']] _ IH]; constructor; [|done].
    apply EdgeItem_new_Ok. simpl. rewrite Es, Et'.
    destruct e. repeat split; by apply trimmed_not_blank.
Qed.

Lemma Roadmap_reload_constructed_witness :
  exists r, Roadmap.new (lit " T ") [raw_c1] [raw_t1; raw_t1'] [] = Ok r
            ∧ Roadmap_reload r = Ok r.
Proof.
  eexists. split; [vm_compute; reflexivity|].
  apply (Roadmap_reload_constructed (lit " T ") [raw_c1] [raw_t1; raw_t1'] []).
  vm_compute. reflexivity.
Defined.

(** * Further properties of the planners *)

(** ** Sorting *)

Lemma insert_by_Permutation {A} (key : A -> nat) x (l : list A) :
  insert_by key x l ≡ₚ x :: l.
Proof.
  induction l as [|y l IH]; [done|]. simpl.
  destruct (key x <=? key y); [done|]. rewrite IH. apply Permutation_swap.
Qed.

Lemma sorted_Permutation {A} (key : A -> nat) (l : list A) : sorted key l ≡ₚ l.
Proof.
  induction l as [|x l IH]; [done|].
  unfold sorted in *. simpl. rewrite insert_by_Permutation. by constructor.
Qed.

Lemma insert_by_sorted {A} (key : A -> nat) x (l : list A) :
  StronglySorted (fun a b => key a ≤ key b) l ->
  StronglySorted (fun a b => key a ≤ key b) (insert_by key x l).
Proof.
  induction 1 as [|y l Hl IH Hy]; simpl; [repeat constructor|].
  destruct (Nat.leb_spec (key x) (key y)) as [Hle|Hgt].
  - constructor; [by constructor|]. constructor; [done|].
    eapply Forall_impl; [exact Hy|]. simpl. lia.
  - constructor; [done|]. rewrite insert_by_Permutation. constructor; [lia|done].
Qed.

Lemma sorted_sorted {A} (key : A -> nat) (l : list A) :
  StronglySorted (fun a b => key a ≤ key b) (sorted key l).
Proof.
  induction l as [|x l IH]; [constructor|].
  unfold sorted in *. simpl. by apply insert_by_sorted.
Qed.

Lemma filter_insert_by {A} (key : A -> nat) (P : A -> Prop)
    `{!forall x, Decision (P x)} x (l : list A) :
  StronglySorted (fun a b => key a ≤ key b) l ->
  filter P (insert_by key x l)
  = if decide (P x) then insert_by key x (filter P l) else filter P l.
Proof.
  induction 1 as [|y l Hl IH Hy]; simpl.
  - rewrite filter_cons, filter_nil. by case_decide.
  - destruct (Nat.leb_spec (key x) (key y)) as [Hle|Hgt].
    + rewrite (filter_cons _ x). case_decide; [|done].
      symmetry. apply insert_by_head. apply Forall_forall.
      intros z [_ Hz]%list_elem_of_filter.
      apply elem_of_cons in Hz as [->|Hz]; [done|].
      rewrite Forall_forall in Hy. specialize (Hy z Hz). simpl in Hy. lia.
    + rewrite (filter_cons _ y (insert_by _ _ _)), IH, (filter_cons _ y l).
      destruct (decide (P x)), (decide (P y)); simpl; try done.
      by apply Nat.leb_gt in Hgt as ->.
Qed.

(** A stable sort commutes with filtering. *)
Lemma filter_sorted {A} (key : A -> nat) (P : A -> Prop)
    `{!forall x, Decision (P x)} (l : list A) :
  filter P (sorted key l) = sorted key (filter P l).
Proof.
  induction l as [|x l IH]; [done|].
  rewrite filter_cons. unfold sorted in *. simpl.
  rewrite filter_insert_by by apply sorted_sorted.
  case_decide; simpl; by rewrite IH.
Qed.

(** ** The two modes order alike *)

Lemma stage_nodes_agree (r : Roadmap.t) (cluster_id : str) :
  Stacked.stage_nodes r cluster_id = Column.stage_nodes r cluster_id.
Proof.
  unfold Stacked.stage_nodes, Column.stage_nodes, Column.current_nodes, Column.nodes.
  rewrite filter_sorted, list_filter_filter. f_equal.
  apply list_filter_iff. intros n. unfold is_stage.
  destruct (NodeItem.type n); simpl; naive_solver.
Qed.

Lemma task_ids_agree (r : Roadmap.t) (cluster_id : str) :
  Stacked.task_nodes_in_cluster r cluster_id = Column.task_ids r cluster_id.
Proof.
  unfold Stacked.task_nodes_in_cluster, Stacked.cluster_inner_nodes, Column.task_ids,
    Column.task_nodes, Column.current_nodes, Column.nodes.
  rewrite !filter_sorted, !list_filter_filter. do 2 f_equal.
  apply list_filter_iff. intros n. unfold is_stage.
  destruct (NodeItem.type n); simpl; naive_solver.
Qed.

(** X6. The two modes agree on order for every roadmap, validated or not:
    per cluster they list the same stage nodes and the same tasks in the
    same order, so the stage order and every synthesized ordering edge are
    the same in stacked and in column mode. *)
Theorem modes_order_alike (r : Roadmap.t) (cluster_id : str) :
  Stacked.stage_nodes r cluster_id = Column.stage_nodes r cluster_id
  ∧ Stacked.task_nodes_in_cluster r cluster_id = Column.task_ids r cluster_id
  ∧ Stacked.stage_order r = Column.stage_order r
  ∧ Stacked.task_order_edges r cluster_id = Column.task_order_edges r cluster_id
  ∧ Stacked.stage_order_edges r = Column.stage_order_edges r.
Proof.
  assert (Stacked.stage_order r = Column.stage_order r) as Ho.
  { unfold Stacked.stage_order, Column.stage_order, Column.clusters. f_equal.
    apply List.map_ext. intros c. by rewrite stage_nodes_agree. }
  split; [apply stage_nodes_agree|]. split; [apply task_ids_agree|].
  split; [exact Ho|]. split.
  - unfold Stacked.task_order_edges, Column.task_order_edges, Column.edges.
    by rewrite task_ids_agree.
  - unfold Stacked.stage_order_edges, Column.stage_order_edges, Column.edges.
    by rewrite Ho.
Qed.

(** ** Every node of a cluster is declared once *)

Lemma type_partition (l : list NodeItem.t) :
  filter (fun n => NodeItem.type n = NodeType.stage_label
                   ∨ NodeItem.type n = NodeType.phase) l
  ++ filter (fun n => NodeItem.type n = NodeType.task) l
  ++ filter (fun n => NodeItem.type n = NodeType.sub_content) l
  ++ filter (fun n => NodeItem.type n = NodeType.method) l
  ≡ₚ l.
Proof.
  induction l as [|x l IH]; [done|].
  rewrite !filter_cons.
  destruct (NodeItem.type x) eqn:Hx; repeat case_decide; try naive_solver.
  all: cbn [app]; rewrite ?app_assoc;
    try (etrans; [symmetry; apply Permutation_middle|]);
    rewrite <- ?app_assoc; by apply Permutation_skip.
Qed.

(** X7. Nothing is lost or drawn twice within a cluster, whatever the
    ids: in stacked mode the stage nodes drawn outside the box together
    with the nodes drawn inside it, and in column mode the stage, task,
    sub-content and method lists together, are a rearrangement of the
    nodes of the roadmap that name the cluster. *)
Theorem cluster_nodes_partition (r : Roadmap.t) (cluster_id : str) :
  Stacked.stage_nodes r cluster_id ++ Stacked.cluster_inner_nodes r cluster_id
  ≡ₚ filter (fun n => NodeItem.parent_cluster n = cluster_id) (Roadmap.nodes r)
  ∧ Column.stage_nodes r cluster_id ++ Column.task_nodes r cluster_id
    ++ Column.sub_nodes r cluster_id ++ Column.method_nodes r cluster_id
    ≡ₚ filter (fun n => NodeItem.parent_cluster n = cluster_id) (Roadmap.nodes r).
Proof.
  split.
  - unfold Stacked.stage_nodes, Stacked.cluster_inner_nodes.
    rewrite !sorted_Permutation.
    rewrite <- (filter_app_complement (fun n => is_stage (NodeItem.type n) = true)
                  (filter (fun n => NodeItem.parent_cluster n = cluster_id) (Roadmap.nodes r))).
    rewrite !list_filter_filter. f_equiv.
    + erewrite list_filter_iff; [done|]. naive_solver.
    + erewrite list_filter_iff; [done|]. intros n. simpl.
      destruct (is_stage (NodeItem.type n)); naive_solver.
  - unfold Column.stage_nodes, Column.task_nodes, Column.sub_nodes, Column.method_nodes.
    rewrite type_partition. apply sorted_Permutation.
Qed.

(** ** Chunking *)

(** X8. How [_chunks] fills the rows for a batch size [K ≥ 1]: chunk
    number [i] is [lst[i*K : (i+1)*K]], so every chunk but the last holds
    exactly [K] elements, and no chunk of a non-empty list is empty. *)
Theorem _chunks_rows {A} (lst : list A) (size : Z) (chunks : list (list A)) :
  (1 ≤ size)%Z -> _chunks lst size = Ok chunks ->
  forall i c, chunks !! i = Some c ->
    c = take (Z.to_nat size) (drop (i * Z.to_nat size) lst)
    ∧ (S i < length chunks -> length c = Z.to_nat size)
    ∧ (lst <> [] -> c <> []).
Proof.
  intros Hsize. unfold _chunks, range.
  destruct (Z.eqb_spec size 0) as [|_]; [lia|].
  destruct (Z.ltb_spec 0 size) as [_|]; [|lia]. simpl.
  rewrite Z.sub_0_r, Nat2Z.id.
  destruct (map _ _) as [|c0 cs] eqn:Hcs.
  - intros [= <-] i c Hi. apply list_lookup_singleton_Some in Hi as [-> <-].
    destruct lst as [|x lst].
    { split; [by rewrite drop_nil, take_nil|]. split; [simpl; lia|done]. }
    exfalso. simpl in Hcs.
    destruct (Z.ltb_spec 0 (Z.of_nat (S (length lst)))); [done|lia].
  - intros [= <-] i c Hi. rewrite <- Hcs in *. clear Hcs c0 cs.
    pose proof (slices_range_up_lookup lst size (length lst) 0 i c Hsize Hi) as [-> Hlt].
    simpl in *. split; [done|]. split.
    + intros Hnext. apply lookup_lt_is_Some_2 in Hnext as [c' Hc'].
      apply (slices_range_up_lookup lst size (length lst) 0 (S i) c' Hsize) in Hc' as [_ Hlt'].
      rewrite length_take, length_drop. simpl in Hlt'. lia.
    + intros _ Hnil. apply (f_equal length) in Hnil.
      rewrite length_take, length_drop in Hnil. simpl in Hnil. lia.
Qed.

Lemma _chunks_rows_witness :
  _chunks [1; 2; 3; 4; 5; 6; 7] 3 = Ok [[1; 2; 3]; [4; 5; 6]; [7]]
  ∧ [4; 5; 6] = take 3 (drop 3 [1; 2; 3; 4; 5; 6; 7]).
Proof.
  split; [reflexivity|].
  apply (_chunks_rows [1; 2; 3; 4; 5; 6; 7] 3 [[1; 2; 3]; [4; 5; 6]; [7]] ltac:(lia)
           eq_refl 1 [4; 5; 6] eq_refl).
Defined.

(** X9. A batch size that is not positive: zero makes [_chunks] raise
    the [ValueError] of [range] for every list, the empty one included; a
    negative size yields the single empty chunk whatever the list, so a
    task then gets one row with the proxy and the task and none of its
    methods. *)
Theorem _chunks_not_positive (cluster_str : ClusterItem.t -> str) (r : Roadmap.t)
    (cl : ClusterItem.t) (p t : NodeItem.t) (size : Z) :
  (size = 0%Z ->
   forall A (lst : list A),
     _chunks lst size = Raise (ValueError (lit "range() arg 3 must not be zero")))
  ∧ ((size < 0)%Z ->
     (forall A (lst : list A), _chunks lst size = Ok [[]])
     ∧ Stacked.task_rows cluster_str r size cl p t
       = Ok [Stacked.row_stmt cluster_str cl p t 0 []]).
Proof.
  split.
  - intros -> A lst. reflexivity.
  - intros Hneg.
    assert (forall A (lst : list A), _chunks lst size = Ok [[]]) as Hc.
    { intros A lst. unfold _chunks, range.
      destruct (Z.eqb_spec size 0) as [|_]; [lia|].
      destruct (Z.ltb_spec 0 size) as [|_]; [lia|]. simpl.
      replace (Z.to_nat (0 - Z.of_nat (length lst))) with 0 by lia. done. }
    split; [exact Hc|]. unfold Stacked.task_rows. by rewrite Hc.
Qed.

Lemma _chunks_not_positive_witness :
  _chunks [1; 2] 0 = Raise (ValueError (lit "range() arg 3 must not be zero"))
  ∧ _chunks [1; 2] (-1) = Ok [[]].
Proof.
  destruct (_chunks_not_positive ClusterItem.id sample_ok (cluster "c1")
              (node "S" NodeType.stage_label "c1") (node "T1" NodeType.task "c1") 0)
    as [H0 _].
  destruct (_chunks_not_positive ClusterItem.id sample_ok (cluster "c1")
              (node "S" NodeType.stage_label "c1") (node "T1" NodeType.task "c1") (-1))
    as [_ H1].
  split; [by apply H0|]. by apply H1.
Defined.

(** ** When the stacked planner raises *)

Lemma traverse_uniform {A B} (f : A -> result B) (l : list A) (e : exn) :
  (forall x, x ∈ l -> (exists y, f x = Ok y) ∨ f x = Raise e) ->
  ((exists x, x ∈ l ∧ f x = Raise e) ∧ traverse f l = Raise e)
  ∨ ((forall x, x ∈ l -> exists y, f x = Ok y) ∧ exists ys, traverse f l = Ok ys).
Proof.
  induction l as [|x l IH]; intros H.
  - right. split; [by intros ? ?%elem_of_nil|by exists []].
  - destruct (H x) as [[y Hy]|Hx]; [by left| |].
    + destruct IH as [[(z & Hz & Hfz) Ht]|[Hall [ys Hys]]].
      * intros z Hz. apply H. by right.
      * left. split; [exists z; split; [by right|done]|].
        simpl. rewrite Hy. simpl. by rewrite Ht.
      * right. split.
        -- intros z [->|Hz]%elem_of_cons; eauto.
        -- exists (y :: ys). simpl. rewrite Hy. simpl. by rewrite Hys.
    + left. split; [exists x; split; [by left|done]|]. simpl. by rewrite Hx.
Qed.

Lemma elem_of_targets_of_type (r : Roadmap.t) (src : str) (ty : NodeType.t) (t : NodeItem.t) :
  t ∈ targets_of_type r src ty
  <-> exists e, e ∈ Roadmap.edges r ∧ EdgeItem.source e = src
                ∧ nodes_by_id (Roadmap.nodes r) !! EdgeItem.target e = Some t
                ∧ NodeItem.type t = ty.
Proof.
  unfold targets_of_type. rewrite edges_by_source_get, list_elem_of_omap. split.
  - intros (e & [Hs He]%list_elem_of_filter & Ht). exists e.
    destruct (nodes_by_id _ !! _) as [n|]; [|done].
    case_decide; [|done]. injection Ht as ->. done.
  - intros (e & He & Hs & Hn & Hty). exists e. split; [by apply list_elem_of_filter|].
    rewrite Hn. by rewrite decide_True.
Qed.

Lemma elem_of_stage_nodes (r : Roadmap.t) (cluster_id : str) (p : NodeItem.t) :
  p ∈ Stacked.stage_nodes r cluster_id
  <-> p ∈ Roadmap.nodes r ∧ NodeItem.parent_cluster p = cluster_id
      ∧ is_stage (NodeItem.type p) = true.
Proof.
  unfold Stacked.stage_nodes. rewrite sorted_Permutation, list_elem_of_filter. tauto.
Qed.

Section zero_batch.
Variable cluster_str : ClusterItem.t -> str.
Variable r : Roadmap.t.

Let zero_step : exn := ValueError (lit "range() arg 3 must not be zero").

Lemma stage_rows_zero (cl : ClusterItem.t) (p : NodeItem.t) :
  (targets_of_type r (NodeItem.id p) NodeType.task = []
   ∧ Stacked.stage_rows cluster_str r 0 cl p = Ok [])
  ∨ (targets_of_type r (NodeItem.id p) NodeType.task <> []
     ∧ Stacked.stage_rows cluster_str r 0 cl p = Raise zero_step).
Proof.
  unfold Stacked.stage_rows.
  destruct (targets_of_type r (NodeItem.id p) NodeType.task) as [|t ts]; [by left|].
  right. done.
Qed.

Lemma cluster_rows_zero (cl : ClusterItem.t) :
  ((exists p t, p ∈ Stacked.stage_nodes r (ClusterItem.id cl)
                ∧ t ∈ targets_of_type r (NodeItem.id p) NodeType.task)
   ∧ Stacked.draw_cluster cluster_str r 0 cl = Raise zero_step)
  ∨ ((forall p t, p ∈ Stacked.stage_nodes r (ClusterItem.id cl) ->
                  t ∉ targets_of_type r (NodeItem.id p) NodeType.task)
     ∧ exists items, Stacked.draw_cluster cluster_str r 0 cl = Ok items).
Proof.
  unfold Stacked.draw_cluster, Stacked.cluster_rows.
  destruct (traverse_uniform (Stacked.stage_rows cluster_str r 0 cl)
              (Stacked.stage_nodes r (ClusterItem.id cl)) zero_step)
    as [[(p & Hp & Hraise) ->]|[Hall [ys ->]]].
  - intros p _. destruct (stage_rows_zero cl p) as [[_ ->]|[_ ->]]; eauto.
  - left. split; [|done].
    destruct (stage_rows_zero cl p) as [[_ E]|[Hne _]]; [congruence|].
    destruct (targets_of_type r (NodeItem.id p) NodeType.task) as [|t ts] eqn:Ht; [done|].
    exists p, t. split; [done|]. rewrite Ht. by left.
  - right. split; [|simpl; eauto].
    intros p t Hp Ht. destruct (Hall p Hp) as [y Hy].
    destruct (stage_rows_zero cl p) as [[E _]|[_ E]]; [|congruence].
    rewrite E in Ht. by apply elem_of_nil in Ht.
Qed.

Lemma draw_roadmap_zero :
  ((exists cl p t, cl ∈ Roadmap.clusters r
                   ∧ p ∈ Stacked.stage_nodes r (ClusterItem.id cl)
                   ∧ t ∈ targets_of_type r (NodeItem.id p) NodeType.task)
   ∧ Stacked.draw_roadmap cluster_str r 0 = Raise zero_step)
  ∨ ((forall cl p t, cl ∈ Roadmap.clusters r ->
                     p ∈ Stacked.stage_nodes r (ClusterItem.id cl) ->
                     t ∉ targets_of_type r (NodeItem.id p) NodeType.task)
     ∧ exists body, Stacked.draw_roadmap cluster_str r 0 = Ok body).
Proof.
  unfold Stacked.draw_roadmap.
  destruct (traverse_uniform (Stacked.draw_cluster cluster_str r 0)
              (Roadmap.clusters r) zero_step)
    as [[(cl & Hcl & Hraise) ->]|[Hall [ys ->]]].
  - intros cl _. destruct (cluster_rows_zero cl) as [[_ ->]|[_ [items ->]]]; eauto.
  - left. split; [|done].
    destruct (cluster_rows_zero cl) as [[(p & t & ? & ?) _]|[_ [items E]]]; [|congruence].
    by exists cl, p, t.
  - right. split; [|simpl; eauto].
    intros cl p t Hcl Hp. destruct (Hall cl Hcl) as [y Hy].
    destruct (cluster_rows_zero cl) as [[_ E]|[Hno _]]; [congruence|]. by apply Hno.
Qed.
End zero_batch.

(** X10. Exactly when stacked mode fails: [draw_roadmap] raises (the
    [ValueError] of a zero [range] step) if and only if the batch size is
    [0] and some stage node of a declared cluster is the source of an
    explicit edge whose target is found and is a task; in every other case
    it returns a graph body. *)
Theorem draw_roadmap_raises_iff (cluster_str : ClusterItem.t -> str) (r : Roadmap.t) (K : Z) :
  let reaches :=
    exists cl p e t,
      cl ∈ Roadmap.clusters r
      ∧ p ∈ Roadmap.nodes r ∧ NodeItem.parent_cluster p = ClusterItem.id cl
      ∧ is_stage (NodeItem.type p) = true
      ∧ e ∈ Roadmap.edges r ∧ EdgeItem.source e = NodeItem.id p
      ∧ nodes_by_id (Roadmap.nodes r) !! EdgeItem.target e = Some t
      ∧ NodeItem.type t = NodeType.task in
  (K = 0%Z ∧ reaches ->
   Stacked.draw_roadmap cluster_str r K
   = Raise (ValueError (lit "range() arg 3 must not be zero")))
  ∧ (¬ (K = 0%Z ∧ reaches) -> exists body, Stacked.draw_roadmap cluster_str r K = Ok body).
Proof.
  cbv zeta. split.
  - intros [-> (cl & p & e & t & Hcl & Hp & Hpc & Hst & He & Hs & Hn & Hty)].
    destruct (draw_roadmap_zero cluster_str r) as [[_ ->]|[Hno _]]; [done|].
    exfalso. apply (Hno cl p t Hcl).
    + by apply elem_of_stage_nodes.
    + apply elem_of_targets_of_type. eauto 10.
  - intros Hnot. destruct (decide (K = 0%Z)) as [->|HK]; [|by apply draw_roadmap_total].
    destruct (draw_roadmap_zero cluster_str r)
      as [[(cl & p & t & Hcl & Hp & Ht) _]|[_ Hok]]; [|done].
    exfalso. apply Hnot. split; [done|].
    apply elem_of_stage_nodes in Hp as (? & ? & ?).
    apply elem_of_targets_of_type in Ht as (e & ? & ? & ? & ?).
    exists cl, p, e, t. done.
Qed.

Lemma draw_roadmap_raises_iff_witness :
  Stacked.draw_roadmap ClusterItem.id sample_stage_edge 0
  = Raise (ValueError (lit "range() arg 3 must not be zero"))
  ∧ exists body, Stacked.draw_roadmap ClusterItem.id sample_method_edge 0 = Ok body.
Proof.
  split.
  - apply (draw_roadmap_raises_iff ClusterItem.id sample_stage_edge 0).
    split; [done|].
    exists (cluster "c1"), (node "S" NodeType.stage_label "c1"), (edge "S" "T1"),
      (node "T1" NodeType.task "c1").
    repeat split; by_evaluation.
  - apply (draw_roadmap_raises_iff ClusterItem.id sample_method_edge 0).
    intros [_ (cl & p & e & t & Hcl & Hp & Hpc & Hst & He & Hs & Hn & Hty)].
    apply list_elem_of_singleton in He as ->.
    revert Hp Hst Hs. unfold sample_method_edge, sample_nodes. simpl Roadmap.nodes.
    rewrite !elem_of_cons, elem_of_nil. intros [->|[->|[->|[->|[]]]]]; done.
Defined.

(** ** Rank groups of column mode *)

Lemma unique_id_inj (ns : list NodeItem.t) (a b : NodeItem.t) :
  NoDup (map NodeItem.id ns) -> a ∈ ns -> b ∈ ns -> NodeItem.id a = NodeItem.id b -> a = b.
Proof.
  intros Hnd Ha Hb Hid.
  pose proof (nodes_by_id_unique ns a Hnd Ha) as Ea.
  pose proof (nodes_by_id_unique ns b Hnd Hb) as Eb.
  rewrite Hid in Ea. congruence.
Qed.

Lemma elem_of_rank_group_inv (name : string) (ids : list str) (g x : str) (body : list stmt) :
  Subgraph g body ∈ Column.rank_group name ids -> Node x [] ∈ body ->
  g = lit name ∧ x ∈ ids.
Proof.
  destruct ids as [|y ids]; [by intros ?%elem_of_nil|].
  intros [= -> ->]%list_elem_of_singleton Hx. split; [done|].
  apply elem_of_cons in Hx as [?|Hx]; [done|].
  change (Node x [] ∈ map (fun nid => Node nid []) (y :: ids)) in Hx.
  apply list_elem_of_fmap in Hx as (z & [= ->] & Hz). done.
Qed.

(** X11. The global rank groups of column mode on a validated roadmap: a
    node is listed in the rank group named [g] exactly when its type is
    one of the four current types and [g] is the group of that type; a node
    of the legacy type [phase] is listed in none, and no node is listed in
    two groups. *)
Theorem rank_group_membership (r : Roadmap.t) (n : NodeItem.t) (g : str) :
  Roadmap.ensure_consistency r = Ok tt ->
  n ∈ Roadmap.nodes r ->
  (exists body, Subgraph g body ∈ Column.rank_groups r ∧ Node (NodeItem.id n) [] ∈ body)
  <-> NodeItem.type n <> NodeType.phase
      ∧ g = match column_of (NodeItem.type n) with
            | col_stage => lit "rank_stage"
            | col_task => lit "rank_task"
            | col_sub_content => lit "rank_sub"
            | col_method => lit "rank_method"
            end.
Proof.
  intros (Hnd & _ & _)%ensure_consistency_Ok Hin. split.
  - intros (body & Hg & Hb). unfold Column.rank_groups in Hg.
    assert (forall ty,
              NodeItem.id n
              ∈ map NodeItem.id (filter (fun m => NodeItem.type m = ty) (Column.nodes r)) ->
              NodeItem.type n = ty) as Hty.
    { intros ty (m & Hid & [Hm Hmin]%list_elem_of_filter)%list_elem_of_fmap.
      by rewrite (unique_id_inj (Roadmap.nodes r) n m Hnd Hin Hmin Hid). }
    rewrite !elem_of_app in Hg.
    destruct Hg as [Hg|[Hg|[Hg|Hg]]];
      destruct (elem_of_rank_group_inv _ _ _ _ _ Hg Hb) as [-> Hx];
      apply Hty in Hx; rewrite Hx; done.
  - intros [Hty ->]. by apply column_rank_by_type.
Qed.

Lemma rank_group_membership_witness :
  exists body, Subgraph (lit "rank_sub") body ∈ Column.rank_groups sample_ok
               ∧ Node (lit "Sub1") [] ∈ body.
Proof.
  apply (rank_group_membership sample_ok (node "Sub1" NodeType.sub_content "c1")
           (lit "rank_sub")); [vm_compute; reflexivity|by_evaluation|].
  split; [done|reflexivity].
Defined.

(** ** Ordering edges are not repeated *)













(** * Properties of the document reader *)

Lemma single_spaced_spec (prev : bool) (s : str) :
  single_spaced prev s ->
  (forall i c d, s !! i = Some c -> s !! S i = Some d -> is_space c = true ->
                 is_space d = false)
  ∧ (forall c, c ∈ s -> is_space c = true -> c = 32%N ∨ c = 10%N)
  ∧ (prev = true -> match s with [] => True | c :: _ => is_space c = false end).
Proof.
  revert prev. induction s as [|c s IH]; intros prev; simpl.
  - intros _. split; [done|]. split; [by intros ? ?%elem_of_nil|done].
  - destruct (is_space c) eqn:Hc.
    + intros (-> & Hcv & Hs). destruct (IH true Hs) as (Hadj & Hall & Hhead).
      split; [|split; [|done]].
      * intros [|i] x d; simpl.
        -- intros [= <-] Hd _. specialize (Hhead eq_refl). destruct s; [done|].
           simpl in Hd. by injection Hd as <-.
        -- apply Hadj.
      * intros x [->|Hx]%elem_of_cons; [done|]. by apply Hall.
    + intros Hs. destruct (IH false Hs) as (Hadj & Hall & _).
      split; [|split; [|done]].
      * intros [|i] x d; simpl; [|apply Hadj]. intros [= <-]. congruence.
      * intros x [->|Hx]%elem_of_cons; [congruence|]. by apply Hall.
Qed.

Lemma single_spaced_weaken (prev : bool) (s : str) :
  single_spaced prev s -> single_spaced false s.
Proof. destruct s as [|c s]; [done|]. simpl. destruct (is_space c); naive_solver. Qed.

Lemma single_spaced_head (prev : bool) (c : char) (s : str) :
  is_space c = false -> single_spaced false (c :: s) -> single_spaced prev (c :: s).
Proof. simpl. by intros ->. Qed.

Lemma single_spaced_take (prev : bool) (n : nat) (s : str) :
  single_spaced prev s -> single_spaced prev (take n s).
Proof.
  revert prev n. induction s as [|c s IH]; intros prev [|n]; simpl; try done.
  destruct (is_space c); [|apply IH]. intros (? & ? & ?). auto.
Qed.

Lemma single_spaced_app (prev : bool) (s : str) (d : char) (t : str) :
  is_space d = false ->
  single_spaced prev (s ++ [d]) -> single_spaced false t ->
  single_spaced prev (s ++ [d] ++ t).
Proof.
  intros Hd. revert prev. induction s as [|c s IH]; intros prev; simpl.
  - rewrite Hd. done.
  - destruct (is_space c); [|apply IH]. intros (? & ? & ?) ?. auto.
Qed.

Lemma collapse_single_spaced (prev in_run : bool) (text : str) :
  (in_run = false -> prev = false) -> single_spaced prev (collapse_ws in_run text).
Proof.
  revert prev in_run. induction text as [|c text IH]; intros prev in_run Hp; simpl; [done|].
  destruct (is_space c) eqn:Hc.
  - destruct in_run; [by apply IH|]. simpl. split; [auto|]. split; [by left|]. by apply IH.
  - simpl. rewrite Hc. by apply IH.
Qed.

Lemma collapse_snoc (in_run : bool) (text : str) (d : char) :
  is_space d = false -> collapse_ws in_run (text ++ [d]) = collapse_ws in_run text ++ [d].
Proof.
  intros Hd. revert in_run. induction text as [|c text IH]; intros in_run; simpl.
  - by rewrite Hd.
  - destruct (is_space c); [destruct in_run|]; simpl; by rewrite IH.
Qed.

Lemma collapse_idemp (b' b : bool) (text : str) :
  (b' = true -> b = true) ->
  collapse_ws b' (collapse_ws b text) = collapse_ws b text.
Proof.
  revert b' b. induction text as [|c text IH]; intros b' b Hb; simpl; [done|].
  destruct (is_space c) eqn:Hc.
  - destruct b; [by apply IH|]. destruct b'; [by discriminate Hb|].
    simpl. f_equal. by apply IH.
  - simpl. rewrite Hc. f_equal. by apply IH.
Qed.

(** The shape of a kept line: its first and last characters are those of
    the stripped paragraph, neither is whitespace. *)
Lemma docx_line_shape (para_text : str) :
  2 ≤ length (strip para_text) ->
  exists c mid d,
    strip para_text = c :: mid ++ [d]
    ∧ is_space c = false ∧ is_space d = false
    ∧ collapse_ws false (strip para_text) = c :: collapse_ws false mid ++ [d].
Proof.
  intros Hlen. destruct (strip_clean para_text) as [Hh Hl].
  destruct (strip para_text) as [|c rest]; [simpl in Hlen; lia|].
  destruct rest as [|x rest] using rev_ind; [simpl in Hlen; lia|]. clear IHrest.
  change (c :: rest ++ [x]) with ((c :: rest) ++ [x]) in Hl.
  rewrite reverse_snoc in Hl.
  exists c, rest, x. split; [done|]. split; [done|]. split; [done|].
  simpl. rewrite Hh. f_equal. by apply collapse_snoc.
Qed.

Lemma elem_of_docx_lines (paragraphs : list str) (line : str) :
  line ∈ docx_lines paragraphs ->
  exists c mid d, line = c :: mid ++ [d] ∧ is_space c = false ∧ is_space d = false
                  ∧ single_spaced false line
                  ∧ collapse_ws false line = line.
Proof.
  unfold docx_lines. intros (p & _ & Hp)%list_elem_of_omap. cbv beta zeta in Hp.
  destruct (Nat.leb_spec 2 (length (strip p))) as [Hlen|]; [|done].
  injection Hp as <-.
  destruct (docx_line_shape p Hlen) as (c & mid & d & _ & Hc & Hd & Hshape).
  exists c, (collapse_ws false mid), d.
  split; [done|]. split; [done|]. split; [done|].
  split; [by apply collapse_single_spaced|by apply collapse_idemp].
Qed.

Lemma join_single_spaced (lines : list str) :
  Forall (fun line => exists c mid d, line = c :: mid ++ [d] ∧ is_space c = false
                                      ∧ is_space d = false ∧ single_spaced false line) lines ->
  single_spaced false (join [10%N] lines)
  ∧ match join [10%N] lines with [] => True | c :: _ => is_space c = false end.
Proof.
  induction 1 as [|line lines (c & mid & d & -> & Hc & Hd & Hs) Hall [IH IHh]]; [done|].
  destruct lines as [|l2 lines]; [done|].
  assert (join [10%N] ((c :: mid ++ [d]) :: l2 :: lines)
          = (c :: mid) ++ [d] ++ 10%N :: join [10%N] (l2 :: lines)) as ->.
  { change (join [10%N] ((c :: mid ++ [d]) :: l2 :: lines))
      with ((c :: mid ++ [d]) ++ [10%N] ++ join [10%N] (l2 :: lines)).
    simpl. by rewrite <- app_assoc. }
  split; [|done].
  apply single_spaced_app; [done|done|].
  cbn [single_spaced]. change (is_space 10%N) with true. cbv iota.
  split; [done|]. split; [by right|].
  destruct (join [10%N] (l2 :: lines)) as [|x rest] eqn:Ej; [done|].
  by apply single_spaced_head.
Qed.

Lemma slice_to_prefix (s : str) (n : Z) : slice_to s n `prefix_of` s.
Proof. unfold slice_to. destruct (0 <=? n)%Z; apply prefix_take. Qed.

(** X13. What [read_docx] returns, for every list of paragraph texts and
    every limit: a prefix of the joined lines, of at most [max_chars]
    characters when the limit is not negative, that does not start with
    whitespace, in which no two whitespace characters are adjacent and the
    only whitespace characters are the space and the newline. *)
Theorem read_docx_tidy (paragraphs : list str) (max_chars : Z) :
  let text := read_docx paragraphs max_chars in
  text `prefix_of` join [10%N] (docx_lines paragraphs)
  ∧ ((0 ≤ max_chars)%Z -> length text ≤ Z.to_nat max_chars)
  ∧ match text with [] => True | c :: _ => is_space c = false end
  ∧ (forall i c d, text !! i = Some c -> text !! S i = Some d -> is_space c = true ->
                   is_space d = false)
  ∧ (forall c, c ∈ text -> is_space c = true -> c = 32%N ∨ c = 10%N).
Proof.
  cbv zeta. unfold read_docx.
  destruct (join_single_spaced (docx_lines paragraphs)) as [Hs Hh].
  { apply Forall_forall. intros line (c & mid & d & ? & ? & ? & ? & _)%elem_of_docx_lines.
    eauto 10. }
  set (full := join [10%N] (docx_lines paragraphs)) in *.
  assert (exists n, slice_to full max_chars = take n full) as [n En].
  { unfold slice_to. destruct (0 <=? max_chars)%Z; eauto. }
  split; [apply slice_to_prefix|]. split.
  { intros Hmax. unfold slice_to.
    destruct (Z.leb_spec 0 max_chars); [|lia]. rewrite length_take. lia. }
  rewrite En.
  assert (single_spaced false (take n full)) as Ht by by apply single_spaced_take.
  split.
  { destruct n, full; try done. }
  destruct (single_spaced_spec false _ Ht) as (Hadj & Hall & _). done.
Qed.

(** X14. Cleaning is idempotent: the lines [read_docx] keeps are already
    clean, so reading them again as paragraphs keeps every one of them
    unchanged; each kept line has at least two characters and neither
    starts nor ends with whitespace. *)
Theorem docx_lines_idempotent (paragraphs : list str) :
  docx_lines (docx_lines paragraphs) = docx_lines paragraphs
  ∧ (forall line, line ∈ docx_lines paragraphs -> 2 ≤ length line ∧ strip line = line).
Proof.
  assert (forall line, line ∈ docx_lines paragraphs -> 2 ≤ length line ∧ strip line = line)
    as Hlines.
  { intros line (c & mid & d & -> & Hc & Hd & _)%elem_of_docx_lines. split.
    - simpl. rewrite length_app. simpl. lia.
    - apply strip_fixed; [done|].
      change (c :: mid ++ [d]) with ((c :: mid) ++ [d]). by rewrite reverse_snoc. }
  split; [|exact Hlines].
  assert (forall lines : list str,
            Forall (fun line => 2 ≤ length line ∧ strip line = line
                                ∧ collapse_ws false line = line) lines ->
            docx_lines lines = lines) as Hfix.
  { induction 1 as [|line lines (Hlen & Hs & Hc) _ IH]; [done|].
    unfold docx_lines in *. cbn [omap list_omap]. rewrite Hs.
    destruct (Nat.leb_spec 2 (length line)); [|lia]. by rewrite Hc, IH. }
  apply Hfix. apply Forall_forall. intros line Hin.
  destruct (Hlines line Hin) as [? ?].
  destruct (elem_of_docx_lines _ _ Hin) as (? & ? & ? & _ & _ & _ & _ & ?). done.
Qed.

(** * Properties of the key loader *)

(** ** Stripping a set of characters *)

Lemma lstrip_chars_split (chars : list char) (s : str) :
  exists pre, s = pre ++ lstrip_chars chars s ∧ Forall (fun c => c ∈ chars) pre.
Proof.
  induction s as [|c s (pre & Hs & Hpre)]; [by exists []|].
  simpl. case_bool_decide as Hc.
  - exists (c :: pre). split; [simpl; congruence|by constructor].
  - by exists [].
Qed.

Lemma lstrip_chars_head (chars : list char) (s : str) (c : char) (t : str) :
  lstrip_chars chars s = c :: t -> c ∉ chars.
Proof.
  induction s as [|d s IH]; [done|]. simpl.
  case_bool_decide as Hd; [done|]. by intros [= -> _].
Qed.

Lemma rstrip_chars_split (chars : list char) (s : str) :
  exists post, s = rstrip_chars chars s ++ post ∧ Forall (fun c => c ∈ chars) post.
Proof.
  unfold rstrip_chars. destruct (lstrip_chars_split chars (reverse s)) as (pre & Hs & Hpre).
  exists (reverse pre). split.
  - rewrite <- reverse_app, <- Hs. by rewrite reverse_involutive.
  - by apply Forall_reverse.
Qed.

Lemma rstrip_chars_last (chars : list char) (s t : str) (c : char) :
  rstrip_chars chars s = t ++ [c] -> c ∉ chars.
Proof.
  unfold rstrip_chars. intros H. apply (f_equal reverse) in H.
  rewrite reverse_involutive, reverse_snoc in H. by eapply lstrip_chars_head.
Qed.

Lemma rstrip_chars_keep (chars : list char) (s : str) (d : char) :
  d ∉ chars -> rstrip_chars chars (s ++ [d]) = s ++ [d].
Proof.
  intros Hd. unfold rstrip_chars. rewrite reverse_snoc. simpl.
  rewrite bool_decide_eq_false_2 by done.
  by rewrite reverse_cons, reverse_involutive.
Qed.

(** What [s.strip(chars)] returns neither starts nor ends with one of
    [chars]. *)
Lemma strip_chars_clean (chars : list char) (s : str) :
  match strip_chars chars s with [] => True | c :: _ => c ∉ chars end
  ∧ match reverse (strip_chars chars s) with [] => True | c :: _ => c ∉ chars end.
Proof.
  unfold strip_chars. split.
  - destruct (rstrip_chars_split chars (lstrip_chars chars s)) as (post & Hs & _).
    destruct (rstrip_chars chars (lstrip_chars chars s)) as [|c t] eqn:Hr; [done|].
    rewrite Hs in *. simpl in Hs. by eapply lstrip_chars_head.
  - destruct (rstrip_chars chars (lstrip_chars chars s)) as [|c t] eqn:Hr using rev_ind;
      [done|].
    rewrite reverse_snoc. by eapply rstrip_chars_last.
Qed.

Lemma strip_chars_fixed (chars : list char) (s : str) :
  match s with [] => True | c :: _ => c ∉ chars end ->
  match reverse s with [] => True | c :: _ => c ∉ chars end ->
  strip_chars chars s = s.
Proof.
  intros Hh Hl. unfold strip_chars.
  assert (lstrip_chars chars s = s) as ->.
  { destruct s as [|c s]; [done|]. simpl. by rewrite bool_decide_eq_false_2. }
  destruct s as [|c t] using rev_ind; [done|].
  rewrite reverse_snoc in Hl. by apply rstrip_chars_keep.
Qed.

(** Stripping the quote [q] from [q ++ v ++ q] gives [v] back when [v]
    itself neither starts nor ends with [q]. *)
Lemma strip_chars_quoted (q : char) (v : str) :
  strip_chars [q] v = v -> strip_chars [q] ([q] ++ v ++ [q]) = v.
Proof.
  intros Hv. destruct (strip_chars_clean [q] v) as [Hh Hl]. rewrite Hv in Hh, Hl.
  unfold strip_chars. simpl. rewrite bool_decide_eq_true_2 by by left.
  destruct v as [|c v].
  - simpl. rewrite bool_decide_eq_true_2 by by left. done.
  - assert (lstrip_chars [q] ((c :: v) ++ [q]) = (c :: v) ++ [q]) as ->.
    { simpl. by rewrite bool_decide_eq_false_2. }
    unfold rstrip_chars. rewrite reverse_snoc. simpl.
    rewrite bool_decide_eq_true_2 by by left.
    destruct (reverse (c :: v)) as [|d w] eqn:Hr.
    { apply (f_equal reverse) in Hr. by rewrite reverse_involutive in Hr. }
    simpl. rewrite bool_decide_eq_false_2 by done.
    rewrite <- Hr. by rewrite reverse_involutive.
Qed.

(** ** Splitting at the first [=] *)

Lemma before_after (sep : char) (s : str) :
  sep ∈ s -> s = before sep s ++ sep :: after sep s ∧ sep ∉ before sep s.
Proof.
  induction s as [|c s IH]; [by intros ?%elem_of_nil|].
  simpl. destruct (N.eqb_spec c sep) as [->|Hne].
  - intros _. split; [done|]. by intros ?%elem_of_nil.
  - intros [?|Hin]%elem_of_cons; [congruence|]. destruct (IH Hin) as [Hs Hb].
    split; [simpl; congruence|]. intros [?|?]%elem_of_cons; [congruence|done].
Qed.

Lemma before_app (sep : char) (k rest : str) :
  sep ∉ k -> before sep (k ++ sep :: rest) = k ∧ after sep (k ++ sep :: rest) = rest.
Proof.
  induction k as [|c k IH]; simpl.
  - by rewrite N.eqb_refl.
  - intros Hk. apply not_elem_of_cons in Hk as [Hne Hk].
    destruct (N.eqb_spec c sep) as [|_]; [congruence|].
    destruct (IH Hk) as [-> ->]. done.
Qed.

Lemma strip_subseteq (s : str) : strip s ⊆ s.
Proof.
  unfold strip. intros c Hc.
  destruct (lstrip_split s) as (pre & Hs & _).
  destruct (rstrip_split (lstrip s)) as (post & Hr & _).
  rewrite Hs, Hr. rewrite !elem_of_app. auto.
Qed.

(** ** Lines of an environment file *)

Lemma parse_env_line_cases (line : str) :
  (forall data, parse_env_line data line = data)
  ∨ exists k v,
      (forall data, parse_env_line data line = <[k := v]> data)
      ∧ strip line <> [] ∧ startswith (lit "#") (strip line) = false
      ∧ 61%N ∈ strip line
      ∧ k = strip (before 61%N (strip line))
      ∧ v = strip_chars [39%N] (strip_chars [34%N] (strip (after 61%N (strip line)))).
Proof.
  unfold parse_env_line.
  destruct (strip line) as [|c s] eqn:Hs; [by left|].
  cbn [truthy negb orb].
  destruct (startswith (lit "#") (c :: s)) eqn:Hh; [by left|].
  case_bool_decide as Heq; [by left|].
  right. eexists _, _. split; [reflexivity|].
  split; [done|]. split; [done|]. split; [|done].
  by destruct (decide (61%N ∈ c :: s)).
Qed.

Lemma parse_env_fold (data : gmap str str) (lines : list str) :
  foldl parse_env_line data lines = _parse_env_file lines ∪ data.
Proof.
  unfold _parse_env_file. induction lines as [|line lines IH] using rev_ind.
  - simpl. by rewrite (left_id_L ∅ (∪)).
  - rewrite !foldl_snoc, IH.
    destruct (parse_env_line_cases line) as [E|(k & v & E & _)]; rewrite !E; [done|].
    by rewrite insert_union_l.
Qed.

Lemma parse_env_line_skip (data : gmap str str) (line : str) :
  strip line = [] ∨ startswith (lit "#") (strip line) = true ∨ 61%N ∉ strip line ->
  parse_env_line data line = data.
Proof.
  intros Hskip. unfold parse_env_line.
  destruct Hskip as [->|[->|Hno]]; [done|by rewrite orb_true_r|].
  rewrite (bool_decide_eq_true_2 _ Hno). by destruct (_ || _).
Qed.

(** X15. Lines of the environment file compose: parsing [l1 ++ l2] gives
    the entries of [l2] over those of [l1], so a later assignment of a key
    replaces an earlier one; a line that is blank, starts with [#] or has no
    [=] (after stripping) contributes nothing wherever it stands. *)
Theorem _parse_env_file_app (l1 l2 : list str) :
  _parse_env_file (l1 ++ l2) = _parse_env_file l2 ∪ _parse_env_file l1
  ∧ (forall k, _parse_env_file (l1 ++ l2) !! k
               = match _parse_env_file l2 !! k with
                 | Some v => Some v
                 | None => _parse_env_file l1 !! k
                 end)
  ∧ (forall line,
       strip line = [] ∨ startswith (lit "#") (strip line) = true ∨ 61%N ∉ strip line ->
       _parse_env_file (l1 ++ line :: l2) = _parse_env_file (l1 ++ l2)).
Proof.
  assert (_parse_env_file (l1 ++ l2) = _parse_env_file l2 ∪ _parse_env_file l1) as Happ.
  { unfold _parse_env_file at 1. rewrite foldl_app. apply parse_env_fold. }
  split; [exact Happ|]. split.
  - intros k. rewrite Happ, lookup_union.
    destruct (_parse_env_file l2 !! k), (_parse_env_file l1 !! k); done.
  - intros line Hskip. unfold _parse_env_file. rewrite !foldl_app. simpl.
    by rewrite parse_env_line_skip.
Qed.

Lemma _parse_env_file_app_witness :
  _parse_env_file (map lit ["A=1"; "# A=0"; "A=2"])%string !! lit "A" = Some (lit "2").
Proof.
  destruct (_parse_env_file_app [lit "A=1"] [lit "A=2"]) as (_ & _ & Hskip).
  change (map lit ["A=1"; "# A=0"; "A=2"])%string
    with ([lit "A=1"] ++ lit "# A=0" :: [lit "A=2"]).
  rewrite (Hskip (lit "# A=0")) by (right; left; reflexivity).
  vm_compute. reflexivity.
Defined.

Lemma rstrip_head (c : char) (x : str) :
  is_space c = false -> exists t, rstrip (c :: x) = c :: t.
Proof.
  intros Hc. destruct (rstrip_split (c :: x)) as (post & Hs & Hpost).
  destruct (rstrip (c :: x)) as [|c' t].
  - simpl in Hs. subst post. apply Forall_cons in Hpost as [? _]. congruence.
  - injection Hs as <- _. eauto.
Qed.

Lemma parse_env_line_key (line k v : str) (data : gmap str str) :
  (forall data, parse_env_line data line = <[k := v]> data) ->
  strip line <> [] -> startswith (lit "#") (strip line) = false ->
  61%N ∈ strip line ->
  k = strip (before 61%N (strip line)) ->
  v = strip_chars [39%N] (strip_chars [34%N] (strip (after 61%N (strip line)))) ->
  strip k = k ∧ (61%N ∉ k) ∧ startswith (lit "#") k = false
  ∧ match v with [] => True | c :: _ => c <> 39%N end
  ∧ match reverse v with [] => True | c :: _ => c <> 39%N end.
Proof.
  intros _ Hne Hh Heq -> ->. split; [apply strip_idemp|]. split; [|split].
  - intros Hin%strip_subseteq. by destruct (before_after 61%N (strip line) Heq) as [_ Hb].
  - destruct (strip_clean line) as [Hc _].
    destruct (strip line) as [|c s]; [done|]. simpl.
    destruct (N.eqb_spec c 61) as [|_]; [done|].
    unfold strip. rewrite lstrip_keep by done.
    destruct (rstrip_head c (before 61%N s) Hc) as [t ->].
    simpl in Hh |- *. by rewrite andb_true_r in *.
  - destruct (strip_chars_clean [39%N]
                (strip_chars [34%N] (strip (after 61%N (strip line))))) as [H1 H2].
    split.
    + destruct (strip_chars _ _); [done|]. by rewrite list_elem_of_singleton in H1.
    + destruct (reverse _); [done|]. by rewrite list_elem_of_singleton in H2.
Qed.

(** X16. Every entry [_parse_env_file] returns has a key that is stripped,
    holds no [=] and does not start with [#], and a value that neither
    starts nor ends with a single quote. *)
Theorem _parse_env_file_entries (lines : list str) (k v : str) :
  _parse_env_file lines !! k = Some v ->
  strip k = k ∧ (61%N ∉ k) ∧ startswith (lit "#") k = false
  ∧ match v with [] => True | c :: _ => c <> 39%N end
  ∧ match reverse v with [] => True | c :: _ => c <> 39%N end.
Proof.
  unfold _parse_env_file. induction lines as [|line lines IH] using rev_ind; [done|].
  rewrite foldl_snoc.
  destruct (parse_env_line_cases line) as [E|(k' & v' & E & Hne & Hh & Heq & Ek & Ev)];
    rewrite E; [done|].
  rewrite lookup_insert. case_decide as Hk; [|done].
  intros [= <-]. rewrite <- Hk.
  exact (parse_env_line_key line k' v' ∅ E Hne Hh Heq Ek Ev).
Qed.

Lemma _parse_env_file_entries_witness :
  strip (lit "A") = lit "A" ∧ (61%N ∉ lit "A").
Proof.
  destruct (_parse_env_file_entries [lit " A = 'x' "] (lit "A") (lit "x"))
    as (H1 & H2 & _); [vm_compute; reflexivity|]. done.
Defined.

Lemma lstrip_pad (a x : str) :
  Forall (fun c => is_space c = true) a -> lstrip (a ++ x) = lstrip x.
Proof. induction 1 as [|c a Hc _ IH]; [done|]. simpl. by rewrite Hc. Qed.

(** Stripping padded clean text gives the text. *)
Lemma strip_pad (a x b : str) :
  Forall (fun c => is_space c = true) a -> Forall (fun c => is_space c = true) b ->
  match x with [] => True | c :: _ => is_space c = false end ->
  match reverse x with [] => True | c :: _ => is_space c = false end ->
  strip (a ++ x ++ b) = x.
Proof.
  intros Ha Hb Hh Hl. unfold strip. rewrite lstrip_pad by done.
  destruct x as [|c x].
  - simpl. rewrite <- (app_nil_r b), lstrip_pad by done. done.
  - rewrite lstrip_fixed by done. unfold rstrip.
    rewrite reverse_app, lstrip_pad by by apply Forall_reverse.
    rewrite lstrip_fixed by done. apply reverse_involutive.
Qed.

(** X17. Writing and reading back one assignment: for a key that is
    stripped, has no [=] and does not start with [#], and a value that
    neither starts nor ends with whitespace or a quote, the line
    [key=value], with the value bare or wrapped in double or in single
    quotes and the line indented or followed by whitespace, sets exactly
    that key to that value. *)
Theorem parse_env_line_roundtrip (data : gmap str str) (indent k q v trail : str) :
  Forall (fun c => is_space c = true) indent ->
  Forall (fun c => is_space c = true) trail ->
  strip k = k -> 61%N ∉ k -> startswith (lit "#") k = false ->
  strip v = v -> strip_chars [34%N] v = v -> strip_chars [39%N] v = v ->
  q = [] ∨ q = [34%N] ∨ q = [39%N] ->
  parse_env_line data (indent ++ (k ++ 61%N :: q ++ v ++ q) ++ trail) = <[k := v]> data.
Proof.
  intros Hi Ht Hk Hkeq Hkh Hv Hv34 Hv39 Hq.
  destruct (strip_clean k) as [Hkc _]. rewrite Hk in Hkc.
  destruct (strip_clean v) as [Hvh Hvl]. rewrite Hv in Hvh, Hvl.
  assert (match reverse (q ++ v ++ q) with [] => True | c :: _ => is_space c = false end)
    as Hlast.
  { destruct Hq as [-> | [-> | ->]];
      [by rewrite app_nil_r | by rewrite app_assoc, reverse_snoc ..]. }
  assert (match q ++ v ++ q with [] => True | c :: _ => is_space c = false end) as Hfirst.
  { destruct Hq as [-> | [-> | ->]]; simpl; try done. by rewrite app_nil_r. }
  assert (strip (indent ++ (k ++ 61%N :: q ++ v ++ q) ++ trail) = k ++ 61%N :: q ++ v ++ q)
    as Hs.
  { apply strip_pad; try done.
    - destruct k; simpl; done.
    - rewrite (reverse_app k), reverse_cons.
      destruct (reverse (q ++ v ++ q)); simpl; done. }
  unfold parse_env_line. cbv zeta. rewrite Hs.
  assert (truthy (k ++ 61%N :: q ++ v ++ q) = true) as -> by by destruct k.
  assert (startswith (lit "#") (k ++ 61%N :: q ++ v ++ q) = false) as ->.
  { destruct k as [|c k]; [done|]. simpl in *. by rewrite andb_true_r in *. }
  cbn [negb orb]. rewrite bool_decide_eq_false_2.
  2:{ intros Hn. apply Hn. apply elem_of_app. right. by left. }
  destruct (before_app 61%N k (q ++ v ++ q) Hkeq) as [Eb Ea].
  unfold str, char in *. rewrite Eb, Ea, Hk.
  rewrite (strip_fixed (q ++ v ++ q)) by done.
  f_equal. destruct Hq as [-> | [-> | ->]].
  - rewrite app_nil_r. simpl. by rewrite Hv34, Hv39.
  - by rewrite strip_chars_quoted, Hv39.
  - rewrite (strip_chars_fixed [34%N]).
    + by apply strip_chars_quoted.
    + simpl. by rewrite list_elem_of_singleton.
    + rewrite app_assoc, reverse_snoc. by rewrite list_elem_of_singleton.
Qed.

Lemma parse_env_line_roundtrip_witness :
  parse_env_line ∅ (lit "  API_KEY=" ++ [34%N] ++ lit "sk-1 2" ++ [34%N] ++ [10%N])
  = {[ lit "API_KEY" := lit "sk-1 2" ]}.
Proof.
  apply (parse_env_line_roundtrip ∅ (lit "  ") (lit "API_KEY") [34%N] (lit "sk-1 2") [10%N]);
    try reflexivity; by_evaluation.
Defined.

(** ** The obfuscation mask *)




(** ** Where the key comes from *)

Section load_api_key_facts.
Variable path_exists : str -> bool.
Variable file_lines : str -> list str.
Variable getenv : str -> option str.
Variable decrypt_file : str -> str -> option str.

End load_api_key_facts.


(** * Properties of the answer reader *)

Lemma startswith_app (pat rest : str) : startswith pat (pat ++ rest) = true.
Proof. induction pat as [|c pat IH]; [done|]. simpl. by rewrite N.eqb_refl. Qed.

Lemma startswith_head (c : char) (pat s : str) (d : char) :
  c <> d -> startswith (c :: pat) (d :: s) = false.
Proof. intros Hne. simpl. by destruct (N.eqb_spec c d). Qed.

(** Without the first character of the pattern there is nothing to find;
    right after such a text the pattern is found at its end. *)
Lemma str_find_app (c : char) (pat pre rest : str) :
  c ∉ pre -> str_find (c :: pat) (pre ++ (c :: pat) ++ rest) = Some (length pre).
Proof.
  induction pre as [|d pre IH]; intros Hpre.
  - pose proof (startswith_app (c :: pat) rest) as Hs.
    cbn [app length str_find] in *. by rewrite Hs.
  - apply not_elem_of_cons in Hpre as [Hne Hpre]. specialize (IH Hpre).
    cbn [app length str_find] in *. rewrite startswith_head by done.
    by rewrite IH.
Qed.

Lemma str_rfind_Some (c : char) (s : str) (i : nat) :
  str_rfind c s = Some i -> s !! i = Some c ∧ c ∉ drop (S i) s.
Proof.
  revert i. induction s as [|d s IH]; intros i; simpl; [done|].
  destruct (str_rfind c s) as [i'|] eqn:Hr.
  - intros [= <-]. by apply IH.
  - destruct (N.eqb_spec d c) as [->|]; [|done]. intros [= <-]. split; [done|].
    simpl. rewrite drop_0. clear IH. induction s as [|e s IHs]; [by intros ?%elem_of_nil|].
    simpl in Hr. destruct (str_rfind c s); [done|].
    destruct (N.eqb_spec e c); [done|].
    intros [?|?]%elem_of_cons; [congruence|]. by apply IHs.
Qed.

Lemma str_rfind_None (c : char) (s : str) : str_rfind c s = None -> c ∉ s.
Proof.
  induction s as [|d s IH]; simpl; [by intros _ ?%elem_of_nil|].
  destruct (str_rfind c s); [done|]. destruct (N.eqb_spec d c); [done|].
  intros _ [?|?]%elem_of_cons; [congruence|]. by apply IH.
Qed.

Lemma str_find_char_Some (c : char) (s : str) (i : nat) :
  str_find [c] s = Some i -> s !! i = Some c ∧ c ∉ take i s.
Proof.
  revert i. induction s as [|d s IH]; intros i; [done|].
  cbn [str_find startswith]. rewrite andb_true_r.
  destruct (N.eqb_spec c d) as [->|Hne].
  - intros [= <-]. split; [done|]. rewrite take_0. by intros ?%elem_of_nil.
  - destruct (str_find [c] s) as [i'|]; [|done]. intros [= <-].
    destruct (IH i' eq_refl) as [Hi Hpre]. split; [done|].
    cbn [take]. intros [?|?]%elem_of_cons; [congruence|done].
Qed.

Lemma str_find_char_None (c : char) (s : str) : str_find [c] s = None -> c ∉ s.
Proof.
  induction s as [|d s IH]; [by intros _ ?%elem_of_nil|].
  cbn [str_find startswith]. rewrite andb_true_r.
  destruct (N.eqb_spec c d) as [->|Hne]; [done|].
  destruct (str_find [c] s); [done|]. intros _ [?|?]%elem_of_cons; [congruence|].
  by apply IH.
Qed.

(** A text with [o] at [a] and [c] at a later [b], cut at both. *)
Lemma cut_between (o c : char) (text : str) (a b : nat) :
  text !! a = Some o -> text !! b = Some c -> a < b ->
  exists mid,
    text = take a text ++ (o :: mid ++ [c]) ++ drop (S b) text
    ∧ take (b + 1 - a) (drop a text) = o :: mid ++ [c].
Proof.
  intros Ha Hb Hlt. exists (take (b - S a) (drop (S a) text)).
  assert (drop (S a) text !! (b - S a) = Some c) as Hb'.
  { rewrite lookup_drop. rewrite <- Hb. f_equal. lia. }
  pose proof (take_drop_middle _ _ _ Ha) as E1.
  pose proof (take_drop_middle _ _ _ Hb') as E2.
  rewrite drop_drop in E2. replace (S a + S (b - S a)) with (S b) in E2 by lia.
  assert (length (take (b - S a) (drop (S a) text)) = b - S a) as Hlen.
  { rewrite length_take, length_drop. apply lookup_lt_Some in Hb. lia. }
  set (mid := take (b - S a) (drop (S a) text)) in *.
  assert (drop a text = o :: mid ++ c :: drop (S b) text) as Hd.
  { rewrite (drop_S _ _ _ Ha). by rewrite E2. }
  split.
  - rewrite <- E1 at 1. f_equal. cbn [app]. f_equal. rewrite <- E2 at 1.
    by rewrite <- app_assoc.
  - rewrite Hd. replace (b + 1 - a) with (S (length mid + 1)) by lia.
    cbn [take]. f_equal.
    rewrite (take_app_add' mid (c :: drop (S b) text) (length mid)) by done.
    cbn [take]. by rewrite take_0.
Qed.

(** X20. Without a fenced block, [_extract_json_block] returns the text
    from the first [{] to the last [}] when the first [{] comes before the
    last [}], and nothing otherwise: the result starts with [{], ends with
    [}], no [{] precedes it and no [}] follows it in the answer. *)
Theorem _extract_json_block_braces (text : str) :
  search_fence text = None ->
  (forall r, _extract_json_block text = Some r ->
     exists pre mid post,
       text = pre ++ r ++ post ∧ r = 123%N :: mid ++ [125%N]
       ∧ (123%N ∉ pre) ∧ (125%N ∉ post))
  ∧ (_extract_json_block text = None <->
     ¬ exists i j, i < j ∧ text !! i = Some 123%N ∧ text !! j = Some 125%N).
Proof.
  intros Hf. unfold _extract_json_block. rewrite Hf. cbv zeta.
  change (lit "{") with [123%N].
  destruct (str_find [123%N] text) as [a|] eqn:Ha.
  - destruct (str_find_char_Some _ _ _ Ha) as [Hat Hbefore].
    destruct (str_rfind 125%N text) as [b|] eqn:Hb.
    + destruct (str_rfind_Some _ _ _ Hb) as [Hbt Hafter].
      destruct (Nat.ltb_spec a b) as [Hlt|Hge].
      * destruct (cut_between _ _ _ _ _ Hat Hbt Hlt) as (mid & Htext & Hr).
        split.
        -- intros r [= <-]. exists (take a text), mid, (drop (S b) text).
           rewrite Hr. done.
        -- split; [done|]. intros Hno. exfalso. apply Hno. by exists a, b.
      * split; [done|]. split; [|done]. intros _ (i & j & Hij & Hi & Hj).
        assert (a ≤ i).
        { destruct (decide (a ≤ i)); [done|]. exfalso. apply Hbefore.
          apply list_elem_of_lookup. exists i. rewrite lookup_take.
          by rewrite decide_True by lia. }
        assert (j ≤ b); [|lia].
        destruct (decide (j ≤ b)); [done|]. exfalso. apply Hafter.
        apply list_elem_of_lookup. exists (j - S b). rewrite lookup_drop.
        by replace (S b + (j - S b)) with j by lia.
    + split; [done|]. split; [|done]. intros _ (i & j & _ & _ & Hj).
      apply (str_rfind_None _ _ Hb). by eapply list_elem_of_lookup_2.
  - split; [done|]. split; [|done]. intros _ (i & j & _ & Hi & _).
    apply (str_find_char_None _ _ Ha). by eapply list_elem_of_lookup_2.
Qed.

Lemma _extract_json_block_braces_witness :
  search_fence (lit "plan: {a:{b}} end") = None
  ∧ exists pre mid post,
      lit "plan: {a:{b}} end" = pre ++ lit "{a:{b}}" ++ post
      ∧ lit "{a:{b}}" = 123%N :: mid ++ [125%N]
      ∧ (123%N ∉ pre) ∧ (125%N ∉ post).
Proof.
  split; [vm_compute; reflexivity|].
  destruct (_extract_json_block_braces (lit "plan: {a:{b}} end")) as [H _];
    [vm_compute; reflexivity|].
  apply H. vm_compute. reflexivity.
Defined.

Lemma search_fence_eq (text : str) :
  search_fence text
  = match fence_at text with
    | Some g => Some g
    | None => match text with [] => None | _ :: text' => search_fence text' end
    end.
Proof. by destruct text. Qed.

(** No match starts before the first backtick. *)
Lemma search_fence_skip (pre rest : str) :
  (96%N ∉ pre) -> search_fence (pre ++ rest) = search_fence rest.
Proof.
  induction pre as [|c pre IH]; [done|]. intros [Hc Hpre]%not_elem_of_cons.
  rewrite search_fence_eq. cbn [app]. unfold fence_at.
  change (lit "```") with (96%N :: lit "``").
  rewrite startswith_head by done. by apply IH.
Qed.

Lemma lstrip_app_clean (a rest : str) (c : char) :
  is_space c = false -> lstrip (a ++ c :: rest) = lstrip a ++ c :: rest.
Proof.
  intros Hc. induction a as [|d a IH]; simpl; [by rewrite Hc|].
  by destruct (is_space d).
Qed.

Lemma lstrip_subseteq (s : str) : lstrip s ⊆ s.
Proof.
  intros c Hc. destruct (lstrip_split s) as (pre & Hs & _).
  rewrite Hs. apply elem_of_app. by right.
Qed.

Lemma lstrip_idemp (s : str) : lstrip (lstrip s) = lstrip s.
Proof.
  induction s as [|c s IH]; [done|]. simpl.
  destruct (is_space c) eqn:Hc; [done|]. simpl. by rewrite Hc.
Qed.

Lemma matches_ci_clean (letter c : char) :
  (97 <= letter <= 122)%N -> matches_ci letter c = true -> is_space c = false.
Proof.
  intros Hl. unfold matches_ci.
  rewrite !orb_true_iff, andb_true_iff, !N.eqb_eq.
  intros Hc. apply not_true_iff_false. unfold is_space.
  rewrite !orb_true_iff, !andb_true_iff, !N.leb_le, !N.eqb_eq. lia.
Qed.

Lemma take_length_app {A} (l k : list A) : take (length l) (l ++ k) = l.
Proof. by rewrite take_app_length. Qed.

(** X21. A fenced block is read back: when the answer holds, after text
    without a backtick, three backticks, the word json in any mix of cases
    (with or without whitespace around it), a body without a backtick and
    three backticks, [_extract_json_block] returns the body stripped of the
    whitespace around it, whatever follows the closing fence. *)
Theorem _extract_json_block_fenced (pre ws0 tag ws1 body post : str) :
  (96%N ∉ pre) ->
  Forall (fun c => is_space c = true) ws0 ->
  Forall2 (fun letter c => matches_ci letter c = true) (lit "json") tag ->
  Forall (fun c => is_space c = true) ws1 ->
  (96%N ∉ body) ->
  _extract_json_block
    (pre ++ lit "```" ++ ws0 ++ tag ++ ws1 ++ body ++ lit "```" ++ post)
  = Some (strip body).
Proof.
  intros Hpre Hws0 Htag Hws1 Hbody.
  change (lit "json") with [106%N; 115%N; 111%N; 110%N] in Htag.
  apply Forall2_cons_inv_l in Htag as (j & tag1 & Hj & Htag & ->).
  apply Forall2_cons_inv_l in Htag as (s_ & tag2 & Hs & Htag & ->).
  apply Forall2_cons_inv_l in Htag as (o & tag3 & Ho & Htag & ->).
  apply Forall2_cons_inv_l in Htag as (n & tag4 & Hn & Htag & ->).
  apply Forall2_nil_inv_l in Htag as ->.
  unfold _extract_json_block. rewrite search_fence_skip by done.
  rewrite search_fence_eq.
  assert (fence_at (lit "```" ++ ws0 ++ [j; s_; o; n] ++ ws1 ++ body ++ lit "```" ++ post)
          = Some (lstrip body)) as ->.
  { unfold fence_at. rewrite startswith_app.
    change (drop 3 (lit "```" ++ ?x)) with x.
    rewrite lstrip_pad by done. cbn [app lstrip].
    rewrite (matches_ci_clean 106%N j) by (done || lia).
    rewrite Hj, Hs, Ho, Hn. cbn [andb]. cbv zeta.
    rewrite lstrip_pad by done.
    change (lit "```") with (96%N :: lit "``").
    cbn [app]. rewrite lstrip_app_clean by done.
    change (lstrip body ++ 96%N :: lit "``" ++ post)
      with (lstrip body ++ (96%N :: lit "``") ++ post).
    rewrite str_find_app by (intros ?%lstrip_subseteq; done).
    by rewrite take_length_app. }
  unfold strip. by rewrite lstrip_idemp.
Qed.

Lemma _extract_json_block_fenced_witness :
  _extract_json_block
    (lit "Here it is: " ++ lit "```" ++ lit " " ++ lit "JSon" ++ [10%N]
     ++ lit " {a: 1} " ++ lit "```" ++ lit " thanks {}")
  = Some (strip (lit " {a: 1} ")).
Proof.
  apply (_extract_json_block_fenced (lit "Here it is: ") (lit " ") (lit "JSon") [10%N]
           (lit " {a: 1} ") (lit " thanks {}")).
  - by_evaluation.
  - by repeat constructor.
  - by repeat constructor.
  - by repeat constructor.
  - by_evaluation.
Defined.

(** The fallback is always built and always consistent. *)
Lemma fallback_consistent (raw_text error : str) :
  exists r,
    build_fallback_roadmap raw_text error = Ok r
    ∧ Roadmap.ensure_consistency r = Ok tt
    ∧ length (Roadmap.nodes r) = 12.
Proof.
  unfold build_fallback_roadmap, Roadmap.new.
  pose proof (fallback_title_ok error) as Ht. cbv zeta in Ht |- *. rewrite Ht.
  set (cs := bind (validate_list Roadmap.new_cluster fallback_clusters) _).
  set (ns := bind (validate_list Roadmap.new_node fallback_nodes) _).
  set (es := bind (validate_list Roadmap.new_edge fallback_edges) _).
  vm_compute in cs, ns, es. subst cs ns es. cbv iota beta.
  eexists. split; [reflexivity|]. split; [vm_compute; reflexivity|reflexivity].
Qed.

(** X22. The last step of [analyze_structure] never raises and always
    returns a roadmap that [ensure_consistency] accepts: the roadmap built
    from the parsed fields when it is constructed and consistent, and
    otherwise the roadmap that [build_fallback_roadmap] builds with the
    text of the exception. *)
Theorem validate_or_fallback_consistent (exn_str : exn -> str) (text title : str)
    (clusters : list RawCluster) (nodes : list RawNode) (edges : list RawEdge) :
  exists r,
    validate_or_fallback exn_str text title clusters nodes edges = Ok r
    ∧ Roadmap.ensure_consistency r = Ok tt
    ∧ (forall r0, Roadmap.new title clusters nodes edges = Ok r0 ->
                  Roadmap.ensure_consistency r0 = Ok tt -> r = r0)
    ∧ (forall e, Roadmap.new title clusters nodes edges = Raise e ->
                 build_fallback_roadmap text (exn_str e) = Ok r)
    ∧ (forall r0 e, Roadmap.new title clusters nodes edges = Ok r0 ->
                    Roadmap.ensure_consistency r0 = Raise e ->
                    build_fallback_roadmap text (exn_str e) = Ok r).
Proof.
  unfold validate_or_fallback.
  destruct (Roadmap.new title clusters nodes edges) as [r0|e] eqn:Hnew; cbn.
  - destruct (Roadmap.ensure_consistency r0) as [[]|e] eqn:Hc; cbn.
    + exists r0. rewrite Hc. repeat split; congruence.
    + destruct (fallback_consistent text (exn_str e)) as (r & Hr & Hok & _).
      exists r. repeat split; try congruence.
  - destruct (fallback_consistent text (exn_str e)) as (r & Hr & Hok & _).
    exists r. repeat split; try congruence.
Qed.
